(** * Session lifecycle manager of the WhatsApp REST API wrapper

    A shallow embedding of [src/sessions.ts], [src/utils.ts] and
    [src/config.ts]: the session registry, the lifecycle operations
    ([setupSession], [validateSession], [reloadSession], [deleteSession],
    [flushSessions]), the event wiring of [initializeEvents] with its
    event gate, and the credential-directory deletion.  The start-up
    restoration, the checks of [src/middleware.ts] and the handlers of
    the session controller follow, on the same state.

    The automation driver (whatsapp-web.js, puppeteer) and Node's [fs] and
    [path] modules are external to the repository.  Their behaviour is a
    parameter of the development: every client object carries a [Script]
    that fixes what its driver calls answer, the file system is an
    explicit state, and everything is proved for all scripts and all
    file-system states.

    Asynchronous functions are embedded as state-and-exception
    computations that run each [await] to completion (the callers
    sequence the operations on one tenant); the passing of time is
    explicit ([tick] is one interval of the 100 ms timer), and the promise
    reactions registered with [.then] are kept in a micro-task queue.
    The one [await] that is a step of its own is the one of the recovery
    closure [restartSession], because the crash signals of the driver,
    which start it, arrive at any time. *)

From Stdlib Require Import ZArith String Ascii List Bool Lia.
From stdpp Require Import base option list gmap strings.

Local Open Scope Z_scope.
Local Open Scope string_scope.

(** ** JavaScript values *)

(** A JavaScript string is held as the bytes of its UTF-8 encoding. *)

(** A thrown value: an [Error] object (with the [code] of Node's
    [ErrnoException] when it has one), or any other value. *)
Inductive Exn :=
| JsError (message : string) (code : option string)
| JsOther.

(** How a call completes. *)
Inductive Completion (A : Type) :=
| Normal (a : A)
| Throw (e : Exn).
Arguments Normal {A} a.
Arguments Throw {A} e.

(** A promise as seen by [.then]: settled either way, or never settled. *)
Inductive Promise (A : Type) :=
| Resolved (a : A)
| Rejected (e : Exn)
| Pending.
Arguments Resolved {A} a.
Arguments Rejected {A} e.
Arguments Pending {A}.

(** [error instanceof Error ? error.message : 'Unknown error'] *)
Definition error_message (e : Exn) : string :=
  match e with
  | JsError m _ => m
  | JsOther => "Unknown error"
  end.

(** [(error as NodeJS.ErrnoException).code === c] *)
Definition has_code (e : Exn) (c : string) : bool :=
  match e with
  | JsError _ (Some c') => String.eqb c' c
  | _ => false
  end.

(** JavaScript truthiness of an optional string ([undefined] and the empty
    string are falsy), and [a || b] on such values. *)
Definition truthy (s : option string) : bool :=
  match s with
  | Some s => negb (String.eqb s "")
  | None => false
  end.

Definition js_or (a b : option string) : option string :=
  if truthy a then a else b.

(** [toUpperCase] and [toLowerCase] on strings of ASCII characters.  (On
    other strings the case mappings of the runtime are a parameter of the
    development, see [Config].) *)
Definition upper_ascii (c : ascii) : ascii :=
  let n := nat_of_ascii c in
  if ((97 <=? n) && (n <=? 122))%nat then ascii_of_nat (n - 32) else c.

Definition lower_ascii (c : ascii) : ascii :=
  let n := nat_of_ascii c in
  if ((65 <=? n) && (n <=? 90))%nat then ascii_of_nat (n + 32) else c.

Fixpoint string_map (f : ascii -> ascii) (s : string) : string :=
  match s with
  | EmptyString => EmptyString
  | String c r => String (f c) (string_map f r)
  end.

Definition ascii_toUpperCase : string -> string := string_map upper_ascii.
Definition ascii_toLowerCase : string -> string := string_map lower_ascii.

(** [Array.prototype.includes] on an array of strings. *)
Definition includes (l : list string) (s : string) : bool :=
  existsb (String.eqb s) l.

(** [String.prototype.startsWith] *)
Definition startsWith (s p : string) : bool := String.prefix p s.

(** ** Configuration ([src/config.ts]) *)

Record Config := {
  sessionFolderPath : string;
  baseWebhookURL : option string;
  maxAttachmentSize : Z;
  setMessagesAsSeen : bool;
  disabledCallbacks : list string;
  webVersion : option string;
  webVersionCacheType : string;
  recoverSessions : bool;
  (** [process.env], read by [sessions.ts] for the per-session webhook
      and the browser binary *)
  process_env : string -> option string;
  (** Node's [path.sep] and [path.join] of the platform *)
  path_sep : string;
  path_join : string -> string -> string;
  (** [String.prototype.toUpperCase] and [toLowerCase] of the runtime (the
      case mappings of Unicode) *)
  toUpperCase : string -> string;
  toLowerCase : string -> string
}.

(** ** The driver's objects *)

(** The client handle: the identity of a [Client] object. *)
Abbreviation handle := nat.

Inductive VersionCache :=
| CacheLocal
| CacheRemote (remotePath : string)
| CacheNone.

Record ClientOptions := {
  executablePath : option string;
  puppeteer_args : list string;
  userAgent : string;
  auth_clientId : string;
  auth_dataPath : string;
  (** [localAuth.logout] is replaced by a function that only logs *)
  auth_logout_overridden : bool;
  opt_webVersion : option string;
  opt_webVersionCache : option VersionCache
}.

(** What the driver answers for one client.  The fields are the calls
    [sessions.ts] makes on the client, its page and its browser. *)
Record Script := {
  (** timer intervals until [initialize] exposes [pupPage] and
      [pupBrowser]; [None]: it never does *)
  launch : option nat;
  (** [pupPage.isClosed()] *)
  tab_closed : Completion bool;
  (** [client.getState()]; a [WAState] is a string, [None] is [null] *)
  wa_state : Completion (option string);
  (** [client.logout()] and [client.destroy()] *)
  logout_result : Completion unit;
  destroy_result : Completion unit;
  (** after the browser is asked to close: timer intervals until its
      process reports disconnected; [None]: it stays connected *)
  shutdown : option nat;
  (** [typeof pupBrowser.isConnected === 'function'] *)
  has_isConnected : bool;
  (** the graceful close of [reloadSession]: [pupBrowser.pages()], every
      [page.close()], and [pupBrowser.close()] raced with 5 s *)
  close_result : Completion unit;
  (** [pupBrowser.process?.()] yields a child process *)
  has_process : bool
}.

(** The one-shot listeners of a page: the signal and the session id the
    [restartSession] closure was given. *)
Inductive Signal := SigClose | SigError.

Record Page := {
  once_listeners : list (Signal * string)
}.

Record Browser := {
  (** [Some 0]: disconnected; [Some (S n)]: disconnects after [n + 1]
      intervals; [None]: connected, no close in progress or a close that
      never completes *)
  closing : option nat
}.

(** The closure registered with [client.on]. *)
Inductive Handler :=
| Forward (dataType : string)
| ForwardSeen (dataType : string)
| OnMessage
| OnQr.

Record Listener := {
  l_event : string;
  l_handler : Handler;
  (** the [sessionWebhook] and [sessionId] the closure captured *)
  l_webhook : option string;
  l_session : string
}.

Record Client := {
  options : ClientOptions;
  pupPage : option Page;
  pupBrowser : option Browser;
  qr : option string;
  listeners : list Listener;
  (** the pending timer of the [waitForNestedObject] that
      [initializeEvents] started: the polls that are left *)
  polling : option (nat * string);
  script : Script
}.

(** ** The file system *)

Record FS := {
  (** how the operating system resolves a path (symbolic links, dot
      segments) to a canonical absolute path *)
  resolve : string -> string;
  (** the directories, by canonical path, with the names of their entries *)
  dirs : gmap string (list string);
  (** the [errno] codes that the next [unlink] attempts on a path raise *)
  busy : gmap string (list string)
}.

(** ** Observable effects *)

Inductive Event :=
| EvConstruct (h : handle) (sessionId : string)
| EvInitialize (h : handle)
| EvLogout (h : handle)
| EvDestroy (h : handle)
| EvCloseBrowser (h : handle)
| EvKill (h : handle)
| EvWebhook (url sessionId dataType : string)
| EvSendSeen (h : handle)
| EvUnlink (path : string)
| EvRmdir (path : string).

(** A promise reaction waiting in the micro-task queue. *)
Inductive Task :=
| ThenAttach (h : handle) (l : Listener)
| ThenRecover (h : handle) (sessionId : string).

(** ** The state of the process *)

Record World := {
  (** [const sessions: Map<string, Client>] *)
  sessions : gmap string handle;
  (** the client objects ever constructed; a handle is an index *)
  heap : list Client;
  files : FS;
  microtasks : list Task;
  (** the [restartSession] calls that wait at [await client.destroy()]:
      the session id each one sets up when the destroy has settled *)
  restarting : list string;
  trace : list Event;
  (** the milliseconds by which the timers of the machine fire late *)
  latency : nat
}.

Definition set_sessions (f : gmap string handle -> gmap string handle) (w : World) : World :=
  {| sessions := f (sessions w); heap := heap w; files := files w;
     microtasks := microtasks w; restarting := restarting w; trace := trace w;
     latency := latency w |}.

Definition set_heap (f : list Client -> list Client) (w : World) : World :=
  {| sessions := sessions w; heap := f (heap w); files := files w;
     microtasks := microtasks w; restarting := restarting w; trace := trace w;
     latency := latency w |}.

Definition set_files (f : FS -> FS) (w : World) : World :=
  {| sessions := sessions w; heap := heap w; files := f (files w);
     microtasks := microtasks w; restarting := restarting w; trace := trace w;
     latency := latency w |}.

Definition set_microtasks (f : list Task -> list Task) (w : World) : World :=
  {| sessions := sessions w; heap := heap w; files := files w;
     microtasks := f (microtasks w); restarting := restarting w; trace := trace w;
     latency := latency w |}.

Definition set_restarting (f : list string -> list string) (w : World) : World :=
  {| sessions := sessions w; heap := heap w; files := files w;
     microtasks := microtasks w; restarting := f (restarting w); trace := trace w;
     latency := latency w |}.

Definition set_latency (late : nat) (w : World) : World :=
  {| sessions := sessions w; heap := heap w; files := files w;
     microtasks := microtasks w; restarting := restarting w; trace := trace w;
     latency := late |}.

(** Append one effect to the trace. *)
Definition observe (e : Event) (w : World) : World :=
  {| sessions := sessions w; heap := heap w; files := files w;
     microtasks := microtasks w; restarting := restarting w; trace := trace w ++ [e];
     latency := latency w |}.

(** ** Computations: state and exceptions *)

Definition M (A : Type) : Type := World -> Completion A * World.

Definition ret {A} (a : A) : M A := fun w => (Normal a, w).
Definition throw {A} (e : Exn) : M A := fun w => (Throw e, w).

Definition bind {A B} (m : M A) (k : A -> M B) : M B :=
  fun w =>
    match m w with
    | (Normal a, w') => k a w'
    | (Throw e, w') => (Throw e, w')
    end.

(** [try { m } catch (error) { handler error }] *)
Definition try_catch {A} (m : M A) (handler : Exn -> M A) : M A :=
  fun w =>
    match m w with
    | (Normal a, w') => (Normal a, w')
    | (Throw e, w') => handler e w'
    end.

Definition get : M World := fun w => (Normal w, w).
Definition modify (f : World -> World) : M unit := fun w => (Normal tt, f w).
Definition lift {A} (c : Completion A) : M A := fun w => (c, w).

Notation "'do' x <- m ; k" := (bind m (fun x => k))
  (at level 10, x name, m at level 100, k at level 200).
Notation "'run' m ; k" := (bind m (fun _ => k))
  (at level 10, m at level 100, k at level 200).

(** [for (const x of l) { body x }] *)
Fixpoint forEach {A} (l : list A) (body : A -> M unit) : M unit :=
  match l with
  | [] => ret tt
  | x :: r => run body x; forEach r body
  end.

(** ** Objects on the heap *)

Definition with_pupPage (p : option Page) (c : Client) : Client :=
  {| options := options c; pupPage := p; pupBrowser := pupBrowser c;
     qr := qr c; listeners := listeners c; polling := polling c;
     script := script c |}.

Definition with_pupBrowser (b : option Browser) (c : Client) : Client :=
  {| options := options c; pupPage := pupPage c; pupBrowser := b;
     qr := qr c; listeners := listeners c; polling := polling c;
     script := script c |}.

Definition with_qr (q : option string) (c : Client) : Client :=
  {| options := options c; pupPage := pupPage c; pupBrowser := pupBrowser c;
     qr := q; listeners := listeners c; polling := polling c;
     script := script c |}.

Definition with_listeners (l : list Listener) (c : Client) : Client :=
  {| options := options c; pupPage := pupPage c; pupBrowser := pupBrowser c;
     qr := qr c; listeners := l; polling := polling c;
     script := script c |}.

Definition with_polling (p : option (nat * string)) (c : Client) : Client :=
  {| options := options c; pupPage := pupPage c; pupBrowser := pupBrowser c;
     qr := qr c; listeners := listeners c; polling := p;
     script := script c |}.

Definition with_script (s : Script) (c : Client) : Client :=
  {| options := options c; pupPage := pupPage c; pupBrowser := pupBrowser c;
     qr := qr c; listeners := listeners c; polling := polling c;
     script := s |}.

Definition with_launch (l : option nat) (s : Script) : Script :=
  {| launch := l; tab_closed := tab_closed s; wa_state := wa_state s;
     logout_result := logout_result s; destroy_result := destroy_result s;
     shutdown := shutdown s; has_isConnected := has_isConnected s;
     close_result := close_result s; has_process := has_process s |}.

(** The object behind a handle. *)
Definition client_at (w : World) (h : handle) : option Client := heap w !! h.

(** Mutate the object behind a handle. *)
Definition update_client (h : handle) (f : Client -> Client) (w : World) : World :=
  set_heap (alter f h) w.

(** [client.pupPage] and [client.pupBrowser] *)
Definition page_of (w : World) (h : handle) : option Page :=
  c ← client_at w h; pupPage c.

Definition browser_of (w : World) (h : handle) : option Browser :=
  c ← client_at w h; pupBrowser c.

Definition script_of (w : World) (h : handle) : option Script :=
  script <$> client_at w h.

(** [client.on(event, fn)] *)
Definition client_on (h : handle) (l : Listener) (w : World) : World :=
  update_client h (fun c => with_listeners (listeners c ++ [l]) c) w.

(** [page.once('close', ...)] and [page.once('error', ...)] of the
    recovery wiring: both run [restartSession sessionId]. *)
Definition attach_recovery (sessionId : string) (c : Client) : Client :=
  match pupPage c with
  | Some p =>
      with_pupPage
        (Some {| once_listeners :=
                   once_listeners p ++ [(SigClose, sessionId); (SigError, sessionId)] |})
        c
  | None => c
  end.

(** [pupPage.removeAllListeners('close')] and [('error')] *)
Definition removeAllListeners (h : handle) (w : World) : World :=
  update_client h
    (fun c => match pupPage c with
              | Some _ => with_pupPage (Some {| once_listeners := [] |}) c
              | None => c
              end) w.

(** ** Time *)

(** The timer constants of [waitForNestedObject]: [maxWaitTime = 10000]
    and [interval = 100].  The check runs at the start and then whenever
    its timer fires, and it rejects when it finds
    [Date.now() - start > maxWaitTime].  A timer set for [interval] fires
    after [interval + late] milliseconds, so the check after [n] intervals
    reads [n * (interval + late)] on the clock: [wait_polls late] is the
    number of intervals before the check that rejects, the least [n] with
    [n * (interval + late) > maxWaitTime].  With timers on time that is
    101 intervals (the check at 10000 ms still passes); with timers that
    are 1 ms late, 100 intervals; it is never less than one.  The latency
    is that of the machine when the wait begins. *)
Definition maxWaitTime : Z := 10000.
Definition interval : Z := 100.
Definition wait_polls (late : nat) : nat :=
  S (Z.to_nat (maxWaitTime / (interval + Z.of_nat late))).

(** One interval of driver progress on a client: the launch exposes the
    page and the browser, a closing browser gets nearer to disconnected. *)
Definition driver_progress (c : Client) : Client :=
  let c :=
    match launch (script c) with
    | Some 0%nat =>
        with_script (with_launch None (script c))
          (with_pupBrowser (Some {| closing := None |})
             (with_pupPage (Some {| once_listeners := [] |}) c))
    | Some (S n) => with_script (with_launch (Some n) (script c)) c
    | None => c
    end in
  match pupBrowser c with
  | Some {| closing := Some (S n) |} => with_pupBrowser (Some {| closing := Some n |}) c
  | _ => c
  end.

(** The timer of a pending [waitForNestedObject(client, 'pupPage')] of
    [initializeEvents] fires: [checkObject] resolves (and the [.then]
    reaction attaches the recovery listeners), rejects (the [.catch]
    reaction logs), or re-arms the timer. *)
Definition poll_progress (c : Client) : Client :=
  match polling c with
  | Some (more, sessionId) =>
      match pupPage c with
      | Some _ => with_polling None (attach_recovery sessionId c)
      | None =>
          match more with
          | O => with_polling None c
          | S l => with_polling (Some (l, sessionId)) c
          end
      end
  | None => c
  end.

(** One timer interval passes: 100 ms and the latency of the timer. *)
Definition tick (w : World) : World :=
  set_heap (map (fun c => poll_progress (driver_progress c))) w.

(** [await new Promise((resolve) => setTimeout(resolve, ms))] for a
    multiple of the interval. *)
Definition sleep (intervals : nat) : M unit :=
  modify (fun w => Nat.iter intervals tick w).

(** [waitForNestedObject(client, 'pupPage')] awaited. *)
Fixpoint waitForNestedObject (more : nat) (h : handle) (w : World) : Completion unit * World :=
  match page_of w h with
  | Some _ => (Normal tt, w)
  | None =>
      match more with
      | O => (Throw (JsError "Timeout waiting for nested object" None), w)
      | S l => waitForNestedObject l h (tick w)
      end
  end.

(** ** Driver calls *)

(** The browser of a client is asked to close. *)
Definition request_close (h : handle) (w : World) : World :=
  update_client h
    (fun c => match pupBrowser c with
              | Some _ => with_pupBrowser (Some {| closing := shutdown (script c) |}) c
              | None => c
              end) w.

Definition driver_call (h : handle) (e : Event) (result : Script -> Completion unit) : M unit :=
  fun w =>
    let w := observe e w in
    match script_of w h with
    | Some s =>
        match result s with
        | Normal tt => (Normal tt, request_close h w)
        | Throw err => (Throw err, w)
        end
    | None => (Throw JsOther, w)
    end.

Definition client_logout (h : handle) : M unit := driver_call h (EvLogout h) logout_result.
Definition client_destroy (h : handle) : M unit := driver_call h (EvDestroy h) destroy_result.
Definition browser_close_all (h : handle) : M unit := driver_call h (EvCloseBrowser h) close_result.

(** [client.getState()] *)
Definition client_getState (h : handle) : M (option string) :=
  fun w =>
    match script_of w h with
    | Some s => (wa_state s, w)
    | None => (Throw JsOther, w)
    end.

(** [client.pupPage?.isClosed()] as a condition *)
Definition page_isClosed (h : handle) : M bool :=
  fun w =>
    match page_of w h, script_of w h with
    | Some _, Some s => (tab_closed s, w)
    | _, _ => (Normal false, w)
    end.

(** [client.pupBrowser.isConnected()] *)
Definition browser_isConnected (w : World) (h : handle) : bool :=
  match browser_of w h with
  | Some {| closing := Some O |} => false
  | _ => true
  end.

(** ** Results ([interface ValidationResult]) *)

Record ValidationResult := {
  success : bool;
  message : string;
  state : option string;
  (** [client?: Client]; no function of [sessions.ts] sets it *)
  client : option handle
}.

(** The driver library: what its constructors and the synchronous part of
    [initialize] do. *)
Record Driver := {
  (** [new LocalAuth({ clientId, dataPath })] *)
  LocalAuth_new : string -> string -> Completion unit;
  (** [new Client(clientOptions)], for the next free handle: the script of
      the new client *)
  Client_new : handle -> ClientOptions -> Completion Script;
  (** what [client.initialize()] does to the file system before it first
      suspends (the auth strategy creates the credential directory) *)
  initialize_files : ClientOptions -> FS -> FS
}.

Section Sessions.

Variable cfg : Config.
Variable driver : Driver.

(** *** Node's [fs] on the file-system state *)

Definition is_dir (fs : FS) (p : string) : bool :=
  match dirs fs !! p with
  | Some _ => true
  | None => false
  end.

(** [p] is an entry of one of the directories. *)
Definition is_entry (fs : FS) (p : string) : bool :=
  existsb
    (fun de => existsb (fun f => String.eqb (path_join cfg (fst de) f) p) (snd de))
    (map_to_list (dirs fs)).

(** The error of a failed system call, with Node's message
    [CODE: description, syscall 'path']. *)
Definition errno_description (code : string) : string :=
  if String.eqb code "ENOENT" then "no such file or directory"
  else if String.eqb code "EPERM" then "operation not permitted"
  else if String.eqb code "EBUSY" then "resource busy or locked"
  else if String.eqb code "EACCES" then "permission denied"
  else if String.eqb code "EISDIR" then "illegal operation on a directory"
  else if String.eqb code "ENOTEMPTY" then "directory not empty"
  else if String.eqb code "EEXIST" then "file already exists"
  else if String.eqb code "ENOTDIR" then "not a directory"
  else if String.eqb code "EROFS" then "read-only file system"
  else if String.eqb code "EIO" then "i/o error"
  else "unknown error".

Definition errno (code syscall path : string) : Exn :=
  JsError (code +:+ ": " +:+ errno_description code +:+ ", " +:+ syscall +:+ " '"
           +:+ path +:+ "'")
    (Some code).

Definition enoent (syscall path : string) : Exn := errno "ENOENT" syscall path.

(** [fs.existsSync(p)] *)
Definition existsSync (fs : FS) (p : string) : bool :=
  is_dir fs (resolve fs p) || is_entry fs (resolve fs p).

(** [fs.promises.realpath(p)] *)
Definition realpath (p : string) : M string :=
  fun w =>
    if existsSync (files w) p then (Normal (resolve (files w) p), w)
    else (Throw (enoent "realpath" p), w).

(** [fs.promises.readdir(p)] *)
Definition readdir (p : string) : M (list string) :=
  fun w =>
    match dirs (files w) !! resolve (files w) p with
    | Some entries => (Normal entries, w)
    | None => (Throw (enoent "scandir" p), w)
    end.

(** Drop the entry with path [p] from the directory that lists it. *)
Definition drop_entry (p : string) (ds : gmap string (list string)) : gmap string (list string) :=
  map_imap
    (fun d entries =>
       Some (List.filter (fun f => negb (String.eqb (path_join cfg d f) p)) entries))
    ds.

(** [fs.promises.unlink(p)]: a scripted failure, or [EISDIR] on a
    directory, or the entry goes. *)
Definition unlink (p : string) : M unit :=
  fun w =>
    let w := observe (EvUnlink p) w in
    let fs := files w in
    match busy fs !! p with
    | Some (code :: later) =>
        (Throw (errno code "unlink" p),
         set_files (fun fs => {| resolve := resolve fs; dirs := dirs fs;
                                 busy := <[p := later]> (busy fs) |}) w)
    | _ =>
        if is_dir fs p then (Throw (errno "EISDIR" "unlink" p), w)
        else if is_entry fs p then
          (Normal tt,
           set_files (fun fs => {| resolve := resolve fs; dirs := drop_entry p (dirs fs);
                                   busy := busy fs |}) w)
        else (Throw (enoent "unlink" p), w)
    end.

(** [fs.promises.rmdir(p)]: only an empty directory goes. *)
Definition rmdir (p : string) : M unit :=
  fun w =>
    let w := observe (EvRmdir p) w in
    match dirs (files w) !! p with
    | Some [] =>
        (Normal tt,
         set_files (fun fs => {| resolve := resolve fs;
                                 dirs := delete p (drop_entry p (dirs fs));
                                 busy := busy fs |}) w)
    | Some (_ :: _) => (Throw (errno "ENOTEMPTY" "rmdir" p), w)
    | None => (Throw (enoent "rmdir" p), w)
    end.

(** *** [src/utils.ts] *)

(** [checkIfEventisEnabled]: the promise is resolved when the event is not
    in [disabledCallbacks]; the executor does nothing otherwise. *)
Definition checkIfEventisEnabled (event : string) : Promise unit :=
  if negb (includes (disabledCallbacks cfg) event) then Resolved tt else Pending.

(** [triggerWebhook]: the POST is sent; a failure is logged by the
    [.catch] reaction. *)
Definition triggerWebhook (webhookURL sessionId dataType : string) : World -> World :=
  observe (EvWebhook webhookURL sessionId dataType).

(** *** [src/sessions.ts] *)

(** [file.match(/^session-(.+)$/)]: the capture, when the name matches.
    The dot of the pattern does not match a line terminator: LF, CR,
    U+2028 or U+2029, the last two being the bytes E2 80 A8 and E2 80 A9
    of the UTF-8 encoding that the strings here hold. *)
Definition starts_line_terminator (l : list ascii) : bool :=
  match l with
  | c :: r =>
      (Ascii.eqb c "010" || Ascii.eqb c "013"
       || match r with
          | b :: d :: _ =>
              Ascii.eqb c "226" && Ascii.eqb b "128"
              && (Ascii.eqb d "168" || Ascii.eqb d "169")
          | _ => false
          end)%char
  | [] => false
  end.

Fixpoint free_of_line_terminators (l : list ascii) : bool :=
  match l with
  | [] => true
  | _ :: r => negb (starts_line_terminator l) && free_of_line_terminators r
  end.

Definition no_line_terminator (s : string) : bool :=
  free_of_line_terminators (list_ascii_of_string s).

Definition match_session (file : string) : option string :=
  let rest := String.substring 8 (String.length file - 8) file in
  if startsWith file "session-" && negb (String.eqb rest "") && no_line_terminator rest
  then Some rest else None.

(** [validateSession] *)
Definition validateSession (sessionId : string) : M ValidationResult :=
  do w <- get;
  match sessions w !! sessionId with
  | None => ret {| success := false; message := "session_not_found"; state := None; client := None |}
  | Some h =>
      try_catch
        (run waitForNestedObject (wait_polls (latency w)) h;
         do closed <- page_isClosed h;
         if closed
         then ret {| success := false; message := "browser tab closed"; state := None; client := None |}
         else
           do st <- client_getState h;
           if bool_decide (st = Some "CONNECTED")
           then ret {| success := true; message := "session_connected";
                       state := Some "CONNECTED"; client := None |}
           else ret {| success := false; message := "session_not_connected";
                       state := st; client := None |})
        (fun error =>
           ret {| success := false; message := error_message error; state := None; client := None |})
  end.

(** The gated subscriptions of [initializeEvents], in source order, each
    with the closure it registers: those before the [qr] listener and
    those after it. *)
Definition gated_before_qr : list (string * Handler) :=
  [ ("auth_failure", Forward "status");
    ("authenticated", Forward "authenticated");
    ("call", Forward "call");
    ("change_state", Forward "change_state");
    ("disconnected", Forward "disconnected");
    ("group_join", Forward "group_join");
    ("group_leave", Forward "group_leave");
    ("group_update", Forward "group_update");
    ("loading_screen", Forward "loading_screen");
    ("media_uploaded", Forward "media_uploaded");
    ("message", OnMessage);
    ("message_ack", ForwardSeen "message_ack");
    ("message_create", ForwardSeen "message_create");
    ("message_reaction", Forward "message_reaction");
    ("message_edit", Forward "message_edit");
    ("message_ciphertext", Forward "message_ciphertext");
    ("message_revoke_everyone", Forward "message_revoke_everyone");
    ("message_revoke_me", Forward "message_revoke_me") ].

Definition gated_after_qr : list (string * Handler) :=
  [ ("ready", Forward "ready");
    ("contact_changed", Forward "contact_changed");
    ("chat_removed", Forward "chat_removed");
    ("chat_archived", Forward "chat_archived");
    ("unread_count", Forward "unread_count") ].

Definition listener_for (sessionWebhook : option string) (sessionId : string)
    (eh : string * Handler) : Listener :=
  {| l_event := fst eh; l_handler := snd eh;
     l_webhook := sessionWebhook; l_session := sessionId |}.

(** [checkIfEventisEnabled(event).then(_ => { client.on(event, fn) })]:
    the reaction is queued when the promise is resolved, and never
    otherwise. *)
Definition subscribe_gated (h : handle) (sessionWebhook : option string) (sessionId : string)
    (eh : string * Handler) (w : World) : World :=
  match checkIfEventisEnabled (fst eh) with
  | Resolved _ =>
      set_microtasks (fun q => (q ++ [ThenAttach h (listener_for sessionWebhook sessionId eh)])%list) w
  | Rejected _ => w
  | Pending => w
  end.

(** [waitForNestedObject(client, 'pupPage').then(...).catch(...)] of the
    recovery wiring: the first [checkObject] runs at once, the later ones
    from the timer ([poll_progress]). *)
Definition start_recovery_wait (h : handle) (sessionId : string) (w : World) : World :=
  match page_of w h with
  | Some _ => set_microtasks (fun q => (q ++ [ThenRecover h sessionId])%list) w
  | None =>
      match wait_polls (latency w) with
      | O => w
      | S more => update_client h (with_polling (Some (more, sessionId))) w
      end
  end.

(** [initializeEvents] *)
Definition initializeEvents (h : handle) (sessionId : string) (w : World) : World :=
  let sessionWebhook :=
    js_or (process_env cfg (toUpperCase cfg sessionId +:+ "_WEBHOOK_URL"))
      (baseWebhookURL cfg) in
  let w := if recoverSessions cfg then start_recovery_wait h sessionId w else w in
  let w := fold_left (fun w eh => subscribe_gated h sessionWebhook sessionId eh w) gated_before_qr w in
  let w := client_on h (listener_for sessionWebhook sessionId ("qr", OnQr)) w in
  fold_left (fun w eh => subscribe_gated h sessionWebhook sessionId eh w) gated_after_qr w.

(** The [clientOptions] that [setupSession] builds. *)
Definition clientOptions_for (sessionId : string) : ClientOptions :=
  let versioned := truthy (webVersion cfg) in
  let kind := toLowerCase cfg (webVersionCacheType cfg) in
  {| executablePath := js_or (process_env cfg "CHROME_BIN") None;
     puppeteer_args := ["--no-sandbox"; "--disable-setuid-sandbox"; "--disable-gpu";
                        "--disable-dev-shm-usage"];
     userAgent := "Mozilla/5.0 (X11; Linux x86_64) AppleWebKit/537.36 (KHTML, like Gecko) Chrome/117.0.0.0 Safari/537.36";
     auth_clientId := sessionId;
     auth_dataPath := sessionFolderPath cfg;
     auth_logout_overridden := true;
     opt_webVersion := if versioned then webVersion cfg else None;
     opt_webVersionCache :=
       if versioned then
         Some (if String.eqb kind "local" then CacheLocal
               else if String.eqb kind "remote" then
                 CacheRemote ("https://raw.githubusercontent.com/wppconnect-team/wa-version/main/html/"
                              +:+ default "" (webVersion cfg) +:+ ".html")
               else CacheNone)
       else None |}.

Definition new_client (o : ClientOptions) (s : Script) : Client :=
  {| options := o; pupPage := None; pupBrowser := None; qr := None;
     listeners := []; polling := None; script := s |}.

(** [setupSession] *)
Definition setupSession (sessionId : string) : M ValidationResult :=
  try_catch
    (do w <- get;
     if bool_decide (is_Some (sessions w !! sessionId))
     then ret {| success := false;
                 message := "Session already exists for: " +:+ sessionId;
                 state := None; client := None |}
     else
       run lift (LocalAuth_new driver sessionId (sessionFolderPath cfg));
       let clientOptions := clientOptions_for sessionId in
       do w <- get;
       let h := length (heap w) in
       do s <- lift (Client_new driver h clientOptions);
       run modify (fun w => observe (EvConstruct h sessionId)
                              (set_heap (fun hp => (hp ++ [new_client clientOptions s])%list) w));
       run modify (fun w => set_files (initialize_files driver clientOptions)
                              (observe (EvInitialize h) w));
       run modify (initializeEvents h sessionId);
       run modify (set_sessions (insert sessionId h));
       ret {| success := true; message := "Session initiated successfully";
              state := Some "CONNECTED"; client := None |})
    (fun error =>
       ret {| success := false; message := error_message error; state := None; client := None |}).

(** [deleteSessionFolder] *)
Definition unlink_with_retry (filePath : string) : M unit :=
  try_catch (unlink filePath)
    (fun error =>
       if has_code error "EPERM" || has_code error "EBUSY"
       then run sleep 10; unlink filePath
       else throw error).

Definition deleteSessionFolder (sessionId : string) : M unit :=
  try_catch
    (let targetDirPath := path_join cfg (sessionFolderPath cfg) ("session-" +:+ sessionId) in
     do resolvedTargetDirPath <- realpath targetDirPath;
     do resolvedSessionPath <- realpath (sessionFolderPath cfg);
     let safeSessionPath := resolvedSessionPath +:+ path_sep cfg in
     if negb (startsWith resolvedTargetDirPath safeSessionPath)
     then throw (JsError "Invalid path: Directory traversal detected" None)
     else
       do entries <- readdir resolvedTargetDirPath;
       run forEach entries
             (fun file => unlink_with_retry (path_join cfg resolvedTargetDirPath file));
       rmdir resolvedTargetDirPath)
    (fun error => throw error).

(** [reloadSession] *)
Definition reloadSession (sessionId : string) : M unit :=
  try_catch
    (do w <- get;
     match sessions w !! sessionId with
     | None => ret tt
     | Some h =>
         match page_of w h, browser_of w h with
         | None, _ => ret tt
         | Some _, None => ret tt
         | Some _, Some _ =>
             run modify (removeAllListeners h);
             run try_catch (browser_close_all h)
                   (fun _ =>
                      do w <- get;
                      if default false (has_process <$> script_of w h)
                      then modify (observe (EvKill h)) else ret tt);
             run modify (set_sessions (delete sessionId));
             run setupSession sessionId;
             ret tt
         end
     end)
    (fun error => throw error).

(** The disconnect poll of [deleteSession]: at most ten waits of 1 s. *)
Fixpoint await_disconnected (more : nat) (h : handle) (w : World) : World :=
  if browser_isConnected w h then
    match more with
    | O => w
    | S m => await_disconnected m h (Nat.iter 10 tick w)
    end
  else w.

(** [deleteSession] *)
Definition deleteSession (sessionId : string) (validation : ValidationResult) : M unit :=
  try_catch
    (do w <- get;
     match sessions w !! sessionId with
     | None => ret tt
     | Some h =>
         match page_of w h with
         | None => ret tt
         | Some _ =>
             run modify (removeAllListeners h);
             run (if success validation then client_logout h
                  else if String.eqb (message validation) "session_not_connected"
                       then client_destroy h
                       else ret tt);
             run (do w <- get;
                  match browser_of w h, default false (has_isConnected <$> script_of w h) with
                  | Some _, true => modify (await_disconnected 10 h)
                  | _, _ => ret tt
                  end);
             run deleteSessionFolder sessionId;
             modify (set_sessions (delete sessionId))
         end
     end)
    (fun error => throw error).

(** One round of the loop of [flushSessions]. *)
Definition flush_file (deleteOnlyInactive : bool) (file : string) : M unit :=
  match match_session file with
  | Some sessionId =>
      try_catch
        (do validation <- validateSession sessionId;
         if negb deleteOnlyInactive || negb (success validation)
         then deleteSession sessionId validation
         else ret tt)
        (fun validationError => ret tt)
  | None => ret tt
  end.

(** [flushSessions] *)
Definition flushSessions (deleteOnlyInactive : bool) : M unit :=
  try_catch
    (do w <- get;
     if negb (existsSync (files w) (sessionFolderPath cfg)) then ret tt
     else
       do entries <- readdir (sessionFolderPath cfg);
       forEach entries (flush_file deleteOnlyInactive))
    (fun error => throw error).

(** *** Promise reactions *)

Definition run_task (t : Task) : World -> World :=
  match t with
  | ThenAttach h l => client_on h l
  | ThenRecover h sessionId => update_client h (attach_recovery sessionId)
  end.

(** The micro-task queue runs dry before the next timer or I/O callback. *)
Definition drain (w : World) : World :=
  fold_left (fun w t => run_task t w) (microtasks w) (set_microtasks (fun _ => []) w).

(** *** The listeners at work *)

(** What an emitted event carries, as far as the listeners look at it. *)
Record EventArgs := {
  arg_qr : string;
  hasMedia : bool;
  (** [message._data?.size] *)
  data_size : option Z;
  (** [message.downloadMedia()] and [message.getChat()] *)
  downloadMedia : Completion unit;
  getChat : Completion unit
}.

(** [if (sessionWebhook) { triggerWebhook(...) } else { console.warn(...) }] *)
Definition forward (l : Listener) (dataType : string) (w : World) : World :=
  match l_webhook l with
  | Some url => if truthy (Some url) then triggerWebhook url (l_session l) dataType w else w
  | None => w
  end.

(** [if (setMessagesAsSeen) { const chat = await message.getChat(); chat.sendSeen() }] *)
Definition mark_seen (h : handle) (a : EventArgs) (w : World) : World :=
  if setMessagesAsSeen cfg then
    match getChat a with
    | Normal _ => observe (EvSendSeen h) w
    | Throw _ => w
    end
  else w.

Definition run_handler (h : handle) (l : Listener) (a : EventArgs) (w : World) : World :=
  match l_handler l with
  | Forward dataType => forward l dataType w
  | ForwardSeen dataType => mark_seen h a (forward l dataType w)
  | OnMessage =>
      let w := forward l "message" w in
      let small :=
        match data_size a with
        | Some size => Z.ltb size (maxAttachmentSize cfg)
        | None => false
        end in
      (* the download is started and not awaited: its reaction posts the
         attachment when the listener has gone on to the read receipt *)
      let w := mark_seen h a w in
      if hasMedia a && small then
        match checkIfEventisEnabled "media", downloadMedia a with
        | Resolved _, Normal _ => forward l "media" w
        | _, _ => w
        end
      else w
  | OnQr =>
      let w := update_client h (with_qr (Some (arg_qr a))) w in
      match checkIfEventisEnabled "qr" with
      | Resolved _ => forward l "qr" w
      | _ => w
      end
  end.

(** The driver emits [event] on the client [h]. *)
Definition client_emit (h : handle) (event : string) (a : EventArgs) (w : World) : World :=
  fold_left
    (fun w l => if String.eqb (l_event l) event then run_handler h l a w else w)
    (default [] (listeners <$> client_at w h)) w.

(** The [restartSession] closure of the recovery wiring of client [h],
    up to its [await client.destroy()]: the destroy is called, and the
    closure waits for it to settle, whichever way. *)
Definition restartSession (h : handle) (sessionId : string) (w : World) : World :=
  let w := set_sessions (delete sessionId) w in
  let w := snd (try_catch (client_destroy h) (fun _ => ret tt) w) in
  set_restarting (fun q => (q ++ [sessionId])%list) w.

(** A destroy has settled: the [restartSession] that waited longest goes
    on with [setupSession(sessionId)]. *)
Definition restartSession_resume (w : World) : World :=
  match restarting w with
  | [] => w
  | sessionId :: later => snd (setupSession sessionId (set_restarting (fun _ => later) w))
  end.

Definition signal_eqb (a b : Signal) : bool :=
  match a, b with
  | SigClose, SigClose | SigError, SigError => true
  | _, _ => false
  end.

(** The page of client [h] emits a signal: its one-shot listeners for the
    signal are removed and run. *)
Definition page_emit (h : handle) (sig : Signal) (w : World) : World :=
  match page_of w h with
  | Some p =>
      let fired := List.filter (fun l => signal_eqb (fst l) sig) (once_listeners p) in
      let kept := List.filter (fun l => negb (signal_eqb (fst l) sig)) (once_listeners p) in
      let w := update_client h (with_pupPage (Some {| once_listeners := kept |})) w in
      fold_left (fun w l => restartSession h (snd l) w) fired w
  | None => w
  end.

(** *** The process as a transition system *)

(** What can happen next: a call of the HTTP layer into the manager, an
    event of the driver, a pending destroy settling, a timer interval, or
    the environment changing what the driver answers, what is on disk or
    how late the timers fire.
    (The start-up restoration is a [CallSetup] per credential directory.) *)
Inductive Action :=
| CallSetup (sessionId : string)
| CallValidate (sessionId : string)
| CallReload (sessionId : string)
| CallDelete (sessionId : string) (validation : ValidationResult)
| CallFlush (deleteOnlyInactive : bool)
| ClientEmits (h : handle) (event : string) (a : EventArgs)
| PageEmits (h : handle) (sig : Signal)
| DestroySettles
| TimePasses
| DriverChanges (h : handle) (s : Script)
| DiskChanges (fs : FS)
| LoadChanges (late : nat).

Definition perform (a : Action) (w : World) : World :=
  drain
    match a with
    | CallSetup sessionId => snd (setupSession sessionId w)
    | CallValidate sessionId => snd (validateSession sessionId w)
    | CallReload sessionId => snd (reloadSession sessionId w)
    | CallDelete sessionId validation => snd (deleteSession sessionId validation w)
    | CallFlush deleteOnlyInactive => snd (flushSessions deleteOnlyInactive w)
    | ClientEmits h event a => client_emit h event a w
    | PageEmits h sig => page_emit h sig w
    | DestroySettles => restartSession_resume w
    | TimePasses => tick w
    | DriverChanges h s => update_client h (with_script s) w
    | DiskChanges fs => set_files (fun _ => fs) w
    | LoadChanges late => set_latency late w
    end.

Definition perform_all (l : list Action) (w : World) : World :=
  fold_left (fun w a => perform a w) l w.

End Sessions.

(** The process at start: [sessions] is a fresh [Map].  The timers are a
    millisecond late, as they are on a machine that has other work. *)
Definition boot (fs : FS) : World :=
  {| sessions := ∅; heap := []; files := fs; microtasks := []; restarting := [];
     trace := []; latency := 1%nat |}.

(** ** A concrete environment, for the examples *)

Module Example.

(** POSIX [path.join] on paths that are already normal. *)
Definition posix_join (a b : string) : string := a +:+ "/" +:+ b.

Definition config (deny : list string) (recover : bool) : Config :=
  {| sessionFolderPath := "/srv/sessions";
     baseWebhookURL := Some "http://localhost:3000/localCallbackExample";
     maxAttachmentSize := 10000000;
     setMessagesAsSeen := false;
     disabledCallbacks := deny;
     webVersion := None;
     webVersionCacheType := "none";
     recoverSessions := recover;
     process_env := fun _ => None;
     path_sep := "/";
     path_join := posix_join;
     toUpperCase := ascii_toUpperCase;
     toLowerCase := ascii_toLowerCase |}.

(** The character class of the client-id check of the driver's
    [LocalAuth] constructor, [/^[-_\w]+$/i]. *)
Definition id_char (c : ascii) : bool :=
  let n := nat_of_ascii c in
  ((48 <=? n) && (n <=? 57) || (65 <=? n) && (n <=? 90) || (97 <=? n) && (n <=? 122)
   || (n =? 95) || (n =? 45))%nat.

(** A client that launches in three intervals, answers [state], and
    whose browser disconnects two intervals after a close. *)
Definition script_with (state : option string) : Script :=
  {| launch := Some 3%nat;
     tab_closed := Normal false;
     wa_state := Normal state;
     logout_result := Normal tt;
     destroy_result := Normal tt;
     shutdown := Some 2%nat;
     has_isConnected := true;
     close_result := Normal tt;
     has_process := true |}.

(** A driver like the real one: [LocalAuth] rejects a client id outside
    its character class, and [initialize] creates the credential
    directory [session-<clientId>] ([session] for an empty id) under the
    data path. *)
Definition driver : Driver :=
  {| LocalAuth_new := fun clientId _ =>
       if negb (String.eqb clientId "") && negb (forallb id_char (list_ascii_of_string clientId))
       then Throw (JsError "Invalid clientId. Only alphanumeric characters, underscores and hyphens are allowed." None)
       else Normal tt;
     Client_new := fun _ _ => Normal (script_with (Some "OPENING"));
     initialize_files := fun o fs =>
       let name := if String.eqb (auth_clientId o) "" then "session"
                   else "session-" +:+ auth_clientId o in
       let d := posix_join (auth_dataPath o) name in
       match dirs fs !! d with
       | Some _ => fs
       | None =>
           {| resolve := resolve fs;
              dirs := <[d := []]> (alter (fun entries => (entries ++ [name])%list) (auth_dataPath o) (dirs fs));
              busy := busy fs |}
       end |}.

(** A disk with the credential root and the given session directories,
    each holding one file, and the directories [others] elsewhere; a path
    resolves to itself unless [links] says otherwise. *)
Definition disk (links : list (string * string)) (others : list string) (ids : list string) : FS :=
  {| resolve := fun p =>
       match List.find (fun l => String.eqb (fst l) p) links with
       | Some l => snd l
       | None => p
       end;
     dirs :=
       <["/srv/sessions" := List.map (fun sessionId => "session-" +:+ sessionId) ids]>
         (list_to_map
            (List.map (fun sessionId => ("/srv/sessions/session-" +:+ sessionId, ["Cookies"])) ids
             ++ List.map (fun d => (d, [])) others)%list);
     busy := ∅ |}.

(** A client whose page and browser are up. *)
Definition running (sessionId : string) (state : option string) : Client :=
  {| options := clientOptions_for (config [] false) sessionId;
     pupPage := Some {| once_listeners := [] |};
     pupBrowser := Some {| closing := None |};
     qr := None; listeners := []; polling := None;
     script := with_launch None (script_with state) |}.

(** A client whose browser tab has been closed. *)
Definition closed_tab (sessionId : string) : Client :=
  {| options := clientOptions_for (config [] false) sessionId;
     pupPage := Some {| once_listeners := [] |};
     pupBrowser := Some {| closing := None |};
     qr := None; listeners := []; polling := None;
     script :=
       {| launch := None; tab_closed := Normal true; wa_state := Normal None;
          logout_result := Normal tt; destroy_result := Normal tt;
          shutdown := Some 2%nat; has_isConnected := true;
          close_result := Normal tt; has_process := true |} |}.

(** A client whose launch never exposes a page. *)
Definition stalled (sessionId : string) : Client :=
  {| options := clientOptions_for (config [] false) sessionId;
     pupPage := None; pupBrowser := None;
     qr := None; listeners := []; polling := None;
     script := with_launch None (script_with None) |}.

Definition world (reg : list (string * handle)) (objects : list Client) (fs : FS) : World :=
  {| sessions := list_to_map reg; heap := objects; files := fs;
     microtasks := []; restarting := []; trace := []; latency := 1%nat |}.

End Example.

(** * Start-up, configuration and the HTTP layer *)

(** ** [src/config.ts]: the deny-list from the environment *)

(** [String.prototype.split] on a one-character separator. *)
Fixpoint split (sep : ascii) (s : string) : list string :=
  match s with
  | EmptyString => [EmptyString]
  | String c r =>
      if Ascii.eqb c sep then EmptyString :: split sep r
      else match split sep r with
           | piece :: pieces => String c piece :: pieces
           | [] => [String c EmptyString]
           end
  end.

(** [process.env.DISABLED_CALLBACKS ? process.env.DISABLED_CALLBACKS.split('|') : []] *)
Definition disabledCallbacks_of (DISABLED_CALLBACKS : option string) : list string :=
  match DISABLED_CALLBACKS with
  | Some s => if truthy (Some s) then split "|" s else []
  | None => []
  end.

(** ** [restoreSessions] *)

Section Restore.

Variable cfg : Config.
Variable driver : Driver.
(** Node's [path.dirname] and [path.basename] of the platform *)
Variable path_dirname : string -> string.
Variable path_basename : string -> string.

(** [fs.mkdirSync(p)], not recursive: the parent has to be there, the
    path must be free. *)
Definition mkdirSync (p : string) : M unit :=
  fun w =>
    let fs := files w in
    if existsSync cfg fs p
    then (Throw (errno "EEXIST" "mkdir" p), w)
    else
      match dirs fs !! resolve fs (path_dirname p) with
      | Some entries =>
          (Normal tt,
           set_files
             (fun fs =>
                {| resolve := resolve fs;
                   dirs := <[resolve fs p := []]>
                             (<[resolve fs (path_dirname p) :=
                                  (entries ++ [path_basename p])%list]> (dirs fs));
                   busy := busy fs |}) w)
      | None => (Throw (enoent "mkdir" p), w)
      end.

(** The body of [files.forEach] in [restoreSessions]. *)
Definition restore_file (file : string) : M unit :=
  match match_session file with
  | Some sessionId => run setupSession cfg driver sessionId; ret tt
  | None => ret tt
  end.

(** [restoreSessions], with the callback of [fs.readdir] run when the
    listing is there.  The callback ignores the error argument: when the
    listing fails, [files] is [undefined] and [files.forEach] throws a
    [TypeError] that no handler catches. *)
Definition restoreSessions : M unit :=
  do started <-
    try_catch
      (do w <- get;
       run (if negb (existsSync cfg (files w) (sessionFolderPath cfg))
            then mkdirSync (sessionFolderPath cfg) else ret tt);
       ret true)
      (fun error => ret false);
  if started then
    fun w =>
      match readdir (sessionFolderPath cfg) w with
      | (Normal entries, w) => forEach entries restore_file w
      | (Throw _, w) =>
          (Throw (JsError "Cannot read properties of undefined (reading 'forEach')" None), w)
      end
  else ret tt.

End Restore.

(** ** The HTTP layer *)

(** What a handler sends: [res.status(status).json(body)]. *)
Inductive Body :=
| JsonValidation (v : ValidationResult)
| JsonMessage (ok : bool) (text : string)
| JsonQr (code : string)
| JsonError (error : string)
| JsonThrown (error : Exn).

Record Response := {
  status : nat;
  body : Body
}.

(** [res.json(body)] *)
Definition res_json (b : Body) : Response := {| status := 200; body := b |}.

(** [sendErrorResponse(res, status, message)] of [src/utils.ts] *)
Definition sendErrorResponse (code : nat) (b : Body) : Response :=
  {| status := code; body := b |}.

(** What a middleware does: it calls [next()] or it answers. *)
Inductive Verdict :=
| Next
| Reply (r : Response).

Module Middleware.

(** [\w] of a regular expression without the unicode flag *)
Definition word_char (c : ascii) : bool :=
  let n := nat_of_ascii c in
  ((48 <=? n) && (n <=? 57) || (65 <=? n) && (n <=? 90) || (97 <=? n) && (n <=? 122)
   || (n =? 95))%nat.

(** [/^[\w-]+$/.test(s)] *)
Definition name_test (s : string) : bool :=
  negb (String.eqb s "")
  && forallb (fun c => word_char c || Ascii.eqb c "-"%char) (list_ascii_of_string s).

(** [apikey], on the configured [globalApiKey] and the [x-api-key] header *)
Definition apikey (globalApiKey : option string) (header : option string) : Verdict :=
  if truthy globalApiKey then
    if negb (truthy header) || negb (bool_decide (header = globalApiKey))
    then Reply (sendErrorResponse 403 (JsonError "Invalid API key"))
    else Next
  else Next.

(** [sessionNameValidation] *)
Definition sessionNameValidation (sessionId : string) : Verdict :=
  if negb (name_test sessionId)
  then Reply (sendErrorResponse 422 (JsonError "Session should be alphanumerical or -"))
  else Next.

(** [sessionValidation] *)
Definition sessionValidation (sessionId : string) : M Verdict :=
  do validation <- validateSession sessionId;
  if negb (success validation)
  then ret (Reply (sendErrorResponse 404 (JsonError (message validation))))
  else ret Next.

End Middleware.

Module SessionController.

Section Handlers.

Variable cfg : Config.
Variable driver : Driver.

(** [waitForNestedObject(rootObj, 'pupPage')] on a root that may be
    [undefined]: [rootObj || {}] has no [pupPage] then, and the wait can
    only time out. *)
Fixpoint wait_in_vain (more : nat) (w : World) : Completion unit * World :=
  match more with
  | O => (Throw (JsError "Timeout waiting for nested object" None), w)
  | S l => wait_in_vain l (tick w)
  end.

Definition waitForNestedObject_root (rootObj : option handle) : M unit :=
  fun w =>
    match rootObj with
    | Some h => waitForNestedObject (wait_polls (latency w)) h w
    | None => wait_in_vain (wait_polls (latency w)) w
    end.

(** [startSession]: the handler returns after it has started the wait;
    the reactions queued by [setupSession] run, then the timers. *)
Definition startSession (sessionId : string) : M Response :=
  try_catch
    (do setupSessionReturn <- setupSession cfg driver sessionId;
     if negb (success setupSessionReturn)
     then ret (sendErrorResponse 422 (JsonError (message setupSessionReturn)))
     else
       run modify drain;
       try_catch
         (run waitForNestedObject_root (client setupSessionReturn);
          ret (res_json (JsonMessage true (message setupSessionReturn))))
         (fun err =>
            match err with
            | JsError text _ => ret (sendErrorResponse 500 (JsonError text))
            | JsOther => ret (sendErrorResponse 500 (JsonThrown err))
            end))
    (fun error =>
       match error with
       | JsError _ _ => ret (sendErrorResponse 500 (JsonThrown error))
       | JsOther => ret (sendErrorResponse 500 (JsonError "Unknown error"))
       end).

(** [statusSession] *)
Definition statusSession (sessionId : string) : M Response :=
  try_catch
    (do sessionData <- validateSession sessionId;
     ret (res_json (JsonValidation sessionData)))
    (fun error => ret (sendErrorResponse 500 (JsonThrown error))).

(** [sessionQrCode] *)
Definition sessionQrCode (sessionId : string) : M Response :=
  try_catch
    (do w <- get;
     match sessions w !! sessionId ≫= client_at w with
     | None => ret (res_json (JsonMessage false "session_not_found"))
     | Some session =>
         match qr session with
         | Some code =>
             if truthy (Some code) then ret (res_json (JsonQr code))
             else ret (res_json (JsonMessage false "qr code not ready or already scanned"))
         | None => ret (res_json (JsonMessage false "qr code not ready or already scanned"))
         end
     end)
    (fun error => ret (sendErrorResponse 500 (JsonThrown error))).

(** [restartSession] *)
Definition restartSession (sessionId : string) : M Response :=
  try_catch
    (do validation <- validateSession sessionId;
     if String.eqb (message validation) "session_not_found"
     then ret (res_json (JsonValidation validation))
     else
       run reloadSession cfg driver sessionId;
       ret (res_json (JsonMessage true "Restarted successfully")))
    (fun error => ret (sendErrorResponse 500 (JsonThrown error))).

(** [terminateSession] *)
Definition terminateSession (sessionId : string) : M Response :=
  try_catch
    (do validation <- validateSession sessionId;
     if String.eqb (message validation) "session_not_found"
     then ret (res_json (JsonValidation validation))
     else
       run deleteSession cfg sessionId validation;
       ret (res_json (JsonMessage true "Logged out successfully")))
    (fun error => ret (sendErrorResponse 500 (JsonThrown error))).

(** [terminateInactiveSessions] and [terminateAllSessions] *)
Definition terminateInactiveSessions : M Response :=
  try_catch
    (run flushSessions cfg true;
     ret (res_json (JsonMessage true "Flush completed successfully")))
    (fun error => ret (sendErrorResponse 500 (JsonThrown error))).

Definition terminateAllSessions : M Response :=
  try_catch
    (run flushSessions cfg false;
     ret (res_json (JsonMessage true "Flush completed successfully")))
    (fun error => ret (sendErrorResponse 500 (JsonThrown error))).

End Handlers.

End SessionController.

(** * The vocabulary of the properties *)

(** Every run of [m] relates the state before to the state after. *)
Definition respects {A} (R : relation World) (m : M A) : Prop :=
  forall w, R w (snd (m w)).

(** The results that the operations return. *)
Definition session_not_found : ValidationResult :=
  {| success := false; message := "session_not_found"; state := None; client := None |}.

Definition already_exists (sessionId : string) : ValidationResult :=
  {| success := false; message := "Session already exists for: " +:+ sessionId;
     state := None; client := None |}.

Definition initiated : ValidationResult :=
  {| success := true; message := "Session initiated successfully";
     state := Some "CONNECTED"; client := None |}.

Definition failed (e : Exn) : ValidationResult :=
  {| success := false; message := error_message e; state := None; client := None |}.

(** The state that a successful [setupSession] leaves. *)
Definition started (cfg : Config) (driver : Driver) (sessionId : string) (s : Script)
    (w : World) : World :=
  let h := length (heap w) in
  let o := clientOptions_for cfg sessionId in
  set_sessions (insert sessionId h)
    (initializeEvents cfg h sessionId
       (set_files (initialize_files driver o)
          (observe (EvInitialize h)
             (observe (EvConstruct h sessionId)
                (set_heap (fun hp => (hp ++ [new_client o s])%list) w))))).

(** The error of a directory that resolves outside the credential root. *)
Definition traversal_error : Exn := JsError "Invalid path: Directory traversal detected" None.

(** The credential directory of a tenant, as [deleteSessionFolder] names it. *)
Definition credential_dir (cfg : Config) (sessionId : string) : string :=
  path_join cfg (sessionFolderPath cfg) ("session-" +:+ sessionId).

(** The operating system resolves paths as before. *)
Definition same_resolve (w w' : World) : Prop := resolve (files w') = resolve (files w).

(** A call into [fs] that deletes. *)
Definition is_fs_event (e : Event) : Prop :=
  match e with
  | EvUnlink _ | EvRmdir _ => True
  | _ => False
  end.

(** The trace grows, and only by file-system calls. *)
Definition only_fs_events (w w' : World) : Prop :=
  exists evs, Forall is_fs_event evs /\ trace w' = (trace w ++ evs)%list.

(** The part of [deleteSession] after the logout or destroy: the
    disconnect poll, the directory, the Registry entry. *)
Definition teardown_rest (cfg : Config) (sessionId : string) (h : handle) : M unit :=
  run (do w <- get;
       match browser_of w h, default false (has_isConnected <$> script_of w h) with
       | Some _, true => modify (await_disconnected 10 h)
       | _, _ => ret tt
       end);
  run deleteSessionFolder cfg sessionId;
  modify (set_sessions (delete sessionId)).

(** Only the client objects change. *)
Definition only_heap (w w' : World) : Prop :=
  files w' = files w /\ sessions w' = sessions w /\ trace w' = trace w /\
  microtasks w' = microtasks w.

(** The state of the process when the loop of [flushSessions] has gone
    through the entries [done]. *)
Definition flush_rounds (cfg : Config) (deleteOnlyInactive : bool) (done : list string)
    (w : World) : World :=
  snd (forEach done (flush_file cfg deleteOnlyInactive) w).

(** A listener that the gate allows: the [qr] listener, which consults
    the gate itself, or a listener for an event that is not denied. *)
Definition allowed_listener (cfg : Config) (l : Listener) : Prop :=
  (l_event l = "qr" /\ l_handler l = OnQr) \/
  (l_event l <> "qr" /\ ~ In (l_event l) (disabledCallbacks cfg)).

(** A reaction that the gate allows: it attaches a listener for an event
    that is not denied, or it is the recovery wiring. *)
Definition allowed_task (cfg : Config) (t : Task) : Prop :=
  match t with
  | ThenAttach _ l => l_event l <> "qr" /\ ~ In (l_event l) (disabledCallbacks cfg)
  | ThenRecover _ _ => True
  end.

(** Every listener attached, and every listener about to be, is allowed. *)
Definition gate_kept (cfg : Config) (w : World) : Prop :=
  Forall (fun c => Forall (allowed_listener cfg) (listeners c)) (heap w) /\
  Forall (allowed_task cfg) (microtasks w).

(** A step that keeps the gate. *)
Definition keeps_gate (cfg : Config) (w w' : World) : Prop :=
  gate_kept cfg w -> gate_kept cfg w'.

(** A change to a client that leaves its listeners alone. *)
Definition listener_neutral (f : Client -> Client) : Prop :=
  forall c, listeners (f c) = listeners c.

(** An event without attachment; [qr] is the pairing code when it is the
    pairing-code event. *)
Definition plain_args (qr : string) : EventArgs :=
  {| arg_qr := qr; hasMedia := false; data_size := None;
     downloadMedia := Normal tt; getChat := Normal tt |}.

(** The clients constructed for a tenant, as the trace shows them. *)
Definition constructed (sessionId : string) (t : list Event) : list handle :=
  omap (fun e => match e with
                 | EvConstruct h s => if String.eqb s sessionId then Some h else None
                 | _ => None
                 end) t.

(** The webhook URL of a session, as [initializeEvents] picks it: the
    per-session variable of the environment, else the base URL. *)
Definition sessionWebhook_of (cfg : Config) (sessionId : string) : option string :=
  js_or (process_env cfg (toUpperCase cfg sessionId +:+ "_WEBHOOK_URL")) (baseWebhookURL cfg).

(** The reactions that the gated subscriptions of a list queue. *)
Definition subscriptions (cfg : Config) (h : handle) (sessionWebhook : option string)
    (sessionId : string) (l : list (string * Handler)) : list Task :=
  omap (fun eh => match checkIfEventisEnabled cfg (fst eh) with
                  | Resolved _ => Some (ThenAttach h (listener_for sessionWebhook sessionId eh))
                  | _ => None
                  end) l.

(** An effect other than a webhook or a read receipt. *)
Definition plain_event (e : Event) : Prop :=
  match e with
  | EvWebhook _ _ _ | EvSendSeen _ => False
  | _ => True
  end.

(** A step that keeps a property of the state. *)
Definition keeps (I : World -> Prop) (w w' : World) : Prop := I w -> I w'.

(** A property of the state that the building blocks of the manager
    keep. *)
Record Stable (cfg : Config) (driver : Driver) (I : World -> Prop) : Prop := {
  st_delete : forall sessionId w, I w -> I (set_sessions (delete sessionId) w);
  st_files : forall f w, I w -> I (set_files f w);
  st_restarting : forall f w, I w -> I (set_restarting f w);
  st_latency : forall late w, I w -> I (set_latency late w);
  st_observe : forall e w, plain_event e -> I w -> I (observe e w);
  st_update : forall h f w, listener_neutral f -> I w -> I (update_client h f w);
  st_tick : forall w, I w -> I (tick w);
  st_started : forall sessionId s w,
    sessions w !! sessionId = None -> I w -> I (started cfg driver sessionId s w);
  st_drain : forall w, I w -> I (drain w);
  st_emit : forall h event a w, I w -> I (client_emit cfg h event a w)
}.

(** Every Registry entry holds a client that was constructed, and no two
    tenant ids hold the same client. *)
Definition registry_sound (w : World) : Prop :=
  (forall sessionId h, sessions w !! sessionId = Some h -> (h < length (heap w))%nat) /\
  (forall id1 id2 h, sessions w !! id1 = Some h -> sessions w !! id2 = Some h -> id1 = id2).

(** The listeners of every client satisfy [PC], the listeners about to be
    attached satisfy [PL], and the effects so far satisfy [PE]. *)
Definition wired (PC : list Listener -> Prop) (PL : Listener -> Prop) (PE : Event -> Prop)
    (w : World) : Prop :=
  Forall (fun c => PC (listeners c)) (heap w) /\
  Forall (fun t => match t with ThenAttach _ l => PL l | ThenRecover _ _ => True end)
    (microtasks w) /\
  Forall PE (trace w).

(** Paths resolve as [r] says, and the directory [t] is there. *)
Definition dir_kept (r : string -> string) (t : string) (w : World) : Prop :=
  resolve (files w) = r /\ is_dir (files w) t = true.

(** The line terminators of JavaScript, in UTF-8: LF, CR, U+2028 and
    U+2029; and a string that holds one. *)
Definition line_terminators : list (list ascii) :=
  [["010"]; ["013"]; ["226"; "128"; "168"]; ["226"; "128"; "169"]]%char.

Definition holds_line_terminator (s : string) : Prop :=
  exists t pre post,
    In t line_terminators /\ list_ascii_of_string s = (pre ++ t ++ post)%list.

(** The data types that a listener can post: the one of its closure, and
    for the message listener the attachment as well, behind the gate. *)
Definition may_send (cfg : Config) (l : Listener) (dataType : string) : Prop :=
  match l_handler l with
  | Forward d | ForwardSeen d => dataType = d
  | OnMessage =>
      dataType = "message" \/ (dataType = "media" /\ ~ In "media" (disabledCallbacks cfg))
  | OnQr => dataType = "qr" /\ ~ In "qr" (disabledCallbacks cfg)
  end.

(** A listener that holds the webhook URL of its own session. *)
Definition own_webhook (cfg : Config) (l : Listener) : Prop :=
  l_webhook l = sessionWebhook_of cfg (l_session l).

(** A webhook that went to the URL configured for its session. *)
Definition routed (cfg : Config) (e : Event) : Prop :=
  match e with
  | EvWebhook url sessionId _ => sessionWebhook_of cfg sessionId = Some url /\ url <> ""
  | _ => True
  end.

(** A listener whose closure does not post the data type. *)
Definition silent_on (dataType : string) (l : Listener) : Prop :=
  match l_handler l with
  | Forward d | ForwardSeen d => d <> dataType
  | OnMessage | OnQr => True
  end.

(** An effect other than a webhook of the data type. *)
Definition not_webhook_of (dataType : string) (e : Event) : Prop :=
  match e with
  | EvWebhook _ _ d => d <> dataType
  | _ => True
  end.

(** An effect other than a read receipt. *)
Definition not_sendSeen (e : Event) : Prop :=
  match e with
  | EvSendSeen _ => False
  | _ => True
  end.

(** The listeners of a client hold the one that stores the pairing code. *)
Definition has_qr_listener (ls : list Listener) : Prop :=
  exists l, In l ls /\ l_event l = "qr" /\ l_handler l = OnQr.

(** A client whose launch is over without a page. *)
Definition never_launches (c : Client) : Prop :=
  pupPage c = None /\ launch (script c) = None.

(** The constructors of the driver succeed for a tenant. *)
Definition constructible (cfg : Config) (driver : Driver) (sessionId : string) : Prop :=
  LocalAuth_new driver sessionId (sessionFolderPath cfg) = Normal tt /\
  forall h, exists s, Client_new driver h (clientOptions_for cfg sessionId) = Normal s.

(** The tenants that a directory listing names. *)
Definition discovered (entries : list string) (sessionId : string) : Prop :=
  exists file, In file entries /\ match_session file = Some sessionId.

(** The Registry is as before. *)
Definition same_sessions (w w' : World) : Prop := sessions w' = sessions w.

(** A deletion inside the directory [target] that lists [entries]: the
    directory itself, or one of its entries. *)
Definition inside (cfg : Config) (target : string) (entries : list string) (e : Event) : Prop :=
  match e with
  | EvRmdir p => p = target
  | EvUnlink p => exists file, In file entries /\ p = path_join cfg target file
  | _ => False
  end.

(** The trace grows, and only by deletions inside [target]. *)
Definition deletes_inside (cfg : Config) (target : string) (entries : list string)
    (w w' : World) : Prop :=
  exists evs, Forall (inside cfg target entries) evs /\ trace w' = (trace w ++ evs)%list.

(** The page of client [h] is there, without one-shot listeners, and no
    recovery wait is pending that would attach them. *)
Definition detached (h : handle) (w : World) : Prop :=
  exists c, client_at w h = Some c /\ pupPage c = Some {| once_listeners := [] |} /\
            polling c = None.

(** * Properties *)

(** ** Reasoning about computations *)

Section Respects.

Context (R : relation World) `{!PreOrder R}.

Lemma respects_ret {A} (a : A) : respects R (ret a).
Proof. intros w. reflexivity. Qed.

Lemma respects_throw {A} (e : Exn) : respects R (@throw A e).
Proof. intros w. reflexivity. Qed.

Lemma respects_lift {A} (c : Completion A) : respects R (lift c).
Proof. intros w. reflexivity. Qed.

Lemma respects_get : respects R get.
Proof. intros w. reflexivity. Qed.

Lemma respects_modify (f : World -> World) :
  (forall w, R w (f w)) -> respects R (modify f).
Proof. intros H w. apply H. Qed.

Lemma respects_bind {A B} (m : M A) (k : A -> M B) :
  respects R m -> (forall a, respects R (k a)) -> respects R (bind m k).
Proof.
  intros Hm Hk w. unfold bind. specialize (Hm w).
  destruct (m w) as [[a|e] w1]; simpl in *; [|assumption].
  etransitivity; [exact Hm|apply Hk].
Qed.

Lemma respects_try_catch {A} (m : M A) (handler : Exn -> M A) :
  respects R m -> (forall e, respects R (handler e)) -> respects R (try_catch m handler).
Proof.
  intros Hm Hk w. unfold try_catch. specialize (Hm w).
  destruct (m w) as [[a|e] w1]; simpl in *; [assumption|].
  etransitivity; [exact Hm|apply Hk].
Qed.

Lemma respects_forEach {A} (l : list A) (body : A -> M unit) :
  (forall x, respects R (body x)) -> respects R (forEach l body).
Proof.
  intros Hb. induction l as [|x l IH]; simpl.
  - apply respects_ret.
  - apply respects_bind; [apply Hb|intros _; exact IH].
Qed.

Lemma respects_iter (f : World -> World) (n : nat) :
  (forall w, R w (f w)) -> forall w, R w (Nat.iter n f w).
Proof.
  intros Hf w. induction n as [|n IH]; simpl; [reflexivity|].
  etransitivity; [exact IH|apply Hf].
Qed.

End Respects.

(** Running a computation step by step. *)
Lemma bind_normal {A B} (m : M A) (k : A -> M B) (w w1 : World) (a : A) :
  m w = (Normal a, w1) -> bind m k w = k a w1.
Proof. intros H. unfold bind. now rewrite H. Qed.

Lemma bind_throw {A B} (m : M A) (k : A -> M B) (w w1 : World) (e : Exn) :
  m w = (Throw e, w1) -> bind m k w = (Throw e, w1).
Proof. intros H. unfold bind. now rewrite H. Qed.

Lemma try_catch_normal {A} (m : M A) (handler : Exn -> M A) (w w1 : World) (a : A) :
  m w = (Normal a, w1) -> try_catch m handler w = (Normal a, w1).
Proof. intros H. unfold try_catch. now rewrite H. Qed.

Lemma try_catch_throw {A} (m : M A) (handler : Exn -> M A) (w w1 : World) (e : Exn) :
  m w = (Throw e, w1) -> try_catch m handler w = handler e w1.
Proof. intros H. unfold try_catch. now rewrite H. Qed.

(** Break a computation into its calls. *)
Ltac respects_step :=
  lazymatch goal with
  | |- respects _ (ret _) => apply respects_ret; typeclasses eauto
  | |- respects _ (throw _) => apply respects_throw; typeclasses eauto
  | |- respects _ get => apply respects_get; typeclasses eauto
  | |- respects _ (lift _) => apply respects_lift; typeclasses eauto
  | |- respects _ (bind _ _) => apply respects_bind; [typeclasses eauto| |intros ?]
  | |- respects _ (try_catch _ _) => apply respects_try_catch; [typeclasses eauto| |intros ?]
  | |- respects _ (forEach _ _) => apply respects_forEach; [typeclasses eauto|intros ?]
  | |- respects _ (modify _) => apply respects_modify; intros ?
  | |- respects _ (match ?x with _ => _ end) => destruct x
  end.

#[local] Instance keeps_preorder (I : World -> Prop) : PreOrder (keeps I).
Proof. split; [now intros w|intros a b c Hab Hbc H; auto]. Qed.

Lemma page_isClosed_eq (h : handle) (w : World) (c : Client) :
  client_at w h = Some c -> is_Some (pupPage c) ->
  page_isClosed h w = (tab_closed (script c), w).
Proof.
  intros Hc [p Hp]. unfold page_isClosed, page_of, script_of.
  rewrite Hc. simpl. now rewrite Hp.
Qed.

Lemma client_getState_eq (h : handle) (w : World) (c : Client) :
  client_at w h = Some c -> client_getState h w = (wa_state (script c), w).
Proof. intros Hc. unfold client_getState, script_of. now rewrite Hc. Qed.

(** ** The event gate *)

Lemma includes_In (l : list string) (s : string) : includes l s = true <-> In s l.
Proof.
  unfold includes. rewrite existsb_exists. split.
  - intros (x & Hx & E). apply String.eqb_eq in E. now subst.
  - intros H. exists s. split; [assumption|apply String.eqb_refl].
Qed.

Lemma includes_not_In (l : list string) (s : string) : includes l s = false <-> ~ In s l.
Proof.
  rewrite <- includes_In. destruct (includes l s); split; congruence.
Qed.

(** C9, as amended.  The promise of the event gate is resolved exactly
    when the event name is not in the deny-list [disabledCallbacks]; for a
    name in the deny-list it is never settled: it stays pending, neither
    resolved nor rejected. *)
Theorem gate_resolved_iff_enabled (cfg : Config) (event : string) :
  (checkIfEventisEnabled cfg event = Resolved tt <-> ~ In event (disabledCallbacks cfg)) /\
  (checkIfEventisEnabled cfg event = Pending <-> In event (disabledCallbacks cfg)) /\
  (forall e, checkIfEventisEnabled cfg event <> Rejected e).
Proof.
  unfold checkIfEventisEnabled.
  destruct (includes (disabledCallbacks cfg) event) eqn:E; simpl.
  - apply includes_In in E. repeat split; try congruence; tauto.
  - apply includes_not_In in E. repeat split; try congruence; tauto.
Qed.

(** C9 at work: ["message"] is not in the deny-list, so its check is
    resolved. *)
Lemma gate_resolved_example :
  checkIfEventisEnabled (Example.config ["qr"] false) "message" = Resolved tt.
Proof.
  apply (proj1 (gate_resolved_iff_enabled (Example.config ["qr"] false) "message")).
  intros [H|[]]. discriminate H.
Defined.

(** C9 as stated fails: with ["qr"] in the deny-list the check for ["qr"]
    never yields a result. *)
Lemma gate_pending_for_denied :
  In "qr" (disabledCallbacks (Example.config ["qr"] false)) /\
  checkIfEventisEnabled (Example.config ["qr"] false) "qr" = Pending /\
  ~ (exists enabled, checkIfEventisEnabled (Example.config ["qr"] false) "qr" = Resolved enabled).
Proof.
  split; [left; reflexivity|]. split; [reflexivity|].
  intros [enabled H]. discriminate H.
Qed.

(** ** [validateSession] *)

Lemma waitForNestedObject_spec (more : nat) (h : handle) (w : World) :
  match waitForNestedObject more h w with
  | (Normal _, w') => is_Some (page_of w' h)
  | (Throw e, _) => e = JsError "Timeout waiting for nested object" None
  end.
Proof.
  revert w. induction more as [|more IH]; intros w; simpl.
  - destruct (page_of w h) eqn:E; [rewrite E; eauto|reflexivity].
  - destruct (page_of w h) eqn:E; [rewrite E; eauto|apply IH].
Qed.

(** C4.  [validateSession] never throws: it always returns a result.
    For an id with no Registry entry the result is exactly
    [{success: false, message: "session_not_found", state: null}] and
    nothing changes.  Whatever the driver does (the page never shows up in
    time, the tab is closed, a call throws, the state is not CONNECTED)
    the result is a failure: success is reported only when the page is
    there, the tab is open and the driver's state is CONNECTED. *)
Theorem validateSession_never_throws (sessionId : string) (w : World) :
  exists r w',
    validateSession sessionId w = (Normal r, w') /\
    (sessions w !! sessionId = None -> r = session_not_found /\ w' = w) /\
    (success r = true ->
       exists h c,
         sessions w !! sessionId = Some h /\ client_at w' h = Some c /\
         is_Some (pupPage c) /\ tab_closed (script c) = Normal false /\
         wa_state (script c) = Normal (Some "CONNECTED")).
Proof.
  unfold validateSession. rewrite (bind_normal get _ w w w eq_refl).
  destruct (sessions w !! sessionId) as [h|] eqn:Hreg.
  2:{ eexists _, _. split; [reflexivity|]. split; [auto|]. simpl. discriminate. }
  assert (Hfail : forall (m : M ValidationResult) e w1,
            m w = (Throw e, w1) ->
            exists r w',
              try_catch m
                (fun error => ret {| success := false; message := error_message error;
                                     state := None; client := None |}) w = (Normal r, w') /\
              (Some h = None -> r = session_not_found /\ w' = w) /\
              (success r = true ->
                 exists h0 c, Some h = Some h0 /\ client_at w' h0 = Some c /\
                   is_Some (pupPage c) /\ tab_closed (script c) = Normal false /\
                   wa_state (script c) = Normal (Some "CONNECTED"))).
  { intros m e w1 Hm. rewrite (try_catch_throw _ _ _ _ _ Hm).
    eexists _, _. split; [reflexivity|]. split; [discriminate|]. simpl. discriminate. }
  pose proof (waitForNestedObject_spec (wait_polls (latency w)) h w) as Hwait.
  destruct (waitForNestedObject (wait_polls (latency w)) h w) as [[[]|e] w1] eqn:Ew.
  2:{ eapply Hfail, bind_throw, Ew. }
  destruct Hwait as [p Hp]. unfold page_of in Hp.
  destruct (client_at w1 h) as [c|] eqn:Hc; [|discriminate Hp]. simpl in Hp.
  assert (Hpage : is_Some (pupPage c)) by eauto.
  pose proof (page_isClosed_eq h w1 c Hc Hpage) as Eclosed.
  pose proof (client_getState_eq h w1 c Hc) as Estate.
  destruct (tab_closed (script c)) as [closed|e] eqn:Hclosed.
  2:{ eapply Hfail. rewrite (bind_normal _ _ _ _ _ Ew). eapply bind_throw, Eclosed. }
  destruct closed.
  { erewrite try_catch_normal.
    2:{ rewrite (bind_normal _ _ _ _ _ Ew), (bind_normal _ _ _ _ _ Eclosed). reflexivity. }
    eexists _, _. split; [reflexivity|]. split; [discriminate|]. simpl. discriminate. }
  destruct (wa_state (script c)) as [st|e] eqn:Hstate.
  2:{ eapply Hfail. rewrite (bind_normal _ _ _ _ _ Ew), (bind_normal _ _ _ _ _ Eclosed).
      eapply bind_throw, Estate. }
  destruct (decide (st = Some "CONNECTED")) as [Hst|Hst].
  - erewrite try_catch_normal.
    2:{ rewrite (bind_normal _ _ _ _ _ Ew), (bind_normal _ _ _ _ _ Eclosed),
          (bind_normal _ _ _ _ _ Estate).
        rewrite bool_decide_true by exact Hst. reflexivity. }
    subst st. eexists _, _. split; [reflexivity|]. split; [discriminate|].
    intros _. exists h, c. eauto 10.
  - erewrite try_catch_normal.
    2:{ rewrite (bind_normal _ _ _ _ _ Ew), (bind_normal _ _ _ _ _ Eclosed),
          (bind_normal _ _ _ _ _ Estate).
        rewrite bool_decide_false by exact Hst. reflexivity. }
    eexists _, _. split; [reflexivity|]. split; [discriminate|]. simpl. discriminate.
Qed.

(** C4 at work: tenant ["4"] on a fresh process. *)
Lemma validateSession_unknown_tenant :
  validateSession "4" (boot (Example.disk [] [] [])) =
  (Normal session_not_found, boot (Example.disk [] [] [])).
Proof.
  destruct (validateSession_never_throws "4" (boot (Example.disk [] [] [])))
    as (r & w' & E & Habsent & _).
  destruct (Habsent (lookup_empty _)) as [-> ->]. exact E.
Defined.

(** ** [setupSession] *)

Lemma setupSession_existing (cfg : Config) (driver : Driver) (sessionId : string)
    (w : World) (h : handle) :
  sessions w !! sessionId = Some h ->
  setupSession cfg driver sessionId w = (Normal (already_exists sessionId), w).
Proof.
  intros Hreg. unfold setupSession.
  erewrite try_catch_normal; [reflexivity|].
  rewrite (bind_normal get _ w w w eq_refl).
  rewrite bool_decide_true by eauto. reflexivity.
Qed.

Lemma setupSession_fresh (cfg : Config) (driver : Driver) (sessionId : string) (w : World) :
  sessions w !! sessionId = None ->
  setupSession cfg driver sessionId w =
  match LocalAuth_new driver sessionId (sessionFolderPath cfg),
        Client_new driver (length (heap w)) (clientOptions_for cfg sessionId) with
  | Normal _, Normal s => (Normal initiated, started cfg driver sessionId s w)
  | Throw e, _ => (Normal (failed e), w)
  | Normal _, Throw e => (Normal (failed e), w)
  end.
Proof.
  intros Hreg. unfold setupSession, try_catch.
  rewrite (bind_normal get _ w w w eq_refl).
  rewrite bool_decide_false by (rewrite Hreg; intros [? ?]; discriminate).
  unfold bind at 1. unfold lift at 1.
  destruct (LocalAuth_new driver sessionId (sessionFolderPath cfg)) as [[]|e]; [|reflexivity].
  rewrite (bind_normal get _ w w w eq_refl).
  unfold bind at 1. unfold lift at 1.
  destruct (Client_new driver (length (heap w)) (clientOptions_for cfg sessionId)) as [s|e];
    reflexivity.
Qed.

Lemma subscribe_gated_heap cfg h wh sessionId eh w :
  heap (subscribe_gated cfg h wh sessionId eh w) = heap w /\
  sessions (subscribe_gated cfg h wh sessionId eh w) = sessions w.
Proof. unfold subscribe_gated. destruct (checkIfEventisEnabled cfg (fst eh)); auto. Qed.

Lemma subscribe_all_heap cfg h wh sessionId l w :
  heap (fold_left (fun w eh => subscribe_gated cfg h wh sessionId eh w) l w) = heap w /\
  sessions (fold_left (fun w eh => subscribe_gated cfg h wh sessionId eh w) l w) = sessions w.
Proof.
  revert w. induction l as [|eh l IH]; intros w; simpl; [auto|].
  destruct (IH (subscribe_gated cfg h wh sessionId eh w)) as [-> ->].
  apply subscribe_gated_heap.
Qed.

(** [initializeEvents] leaves the Registry alone, and on the client only
    adds the [qr] listener and arms the recovery poll. *)
Lemma initializeEvents_client cfg h sessionId w c :
  client_at w h = Some c -> pupPage c = None ->
  sessions (initializeEvents cfg h sessionId w) = sessions w /\
  exists c', client_at (initializeEvents cfg h sessionId w) h = Some c' /\
             pupPage c' = None /\ pupBrowser c' = pupBrowser c /\ script c' = script c.
Proof.
  intros Hc Hp. unfold initializeEvents. cbv zeta.
  set (wh := js_or _ _).
  set (w0 := if recoverSessions cfg then _ else _).
  assert (H0 : sessions w0 = sessions w /\
               exists c0, client_at w0 h = Some c0 /\ pupPage c0 = None /\
                          pupBrowser c0 = pupBrowser c /\ script c0 = script c).
  { subst w0. destruct (recoverSessions cfg); [|eauto 10].
    unfold start_recovery_wait, page_of. rewrite Hc. simpl. rewrite Hp. simpl.
    split; [reflexivity|]. unfold client_at, update_client. simpl.
    unfold client_at in Hc. rewrite list_lookup_alter_eq, Hc. simpl. eauto 10. }
  destruct H0 as (Hs0 & c0 & Hc0 & Hp0 & Hb0 & Hsc0).
  destruct (subscribe_all_heap cfg h wh sessionId gated_before_qr w0) as [Hh1 Hs1].
  set (w1 := fold_left _ gated_before_qr w0) in *.
  set (w2 := client_on h _ w1).
  destruct (subscribe_all_heap cfg h wh sessionId gated_after_qr w2) as [Hh2 Hs2].
  unfold client_at. rewrite Hh2, Hs2.
  subst w2. unfold client_on, update_client. simpl.
  rewrite Hs1, Hs0. split; [reflexivity|].
  rewrite Hh1, list_lookup_alter_eq. unfold client_at in Hc0. rewrite Hc0. simpl.
  eexists. split; [reflexivity|]. simpl. rewrite Hb0, Hsc0. auto.
Qed.

Lemma started_registry cfg driver sessionId s w :
  sessions (started cfg driver sessionId s w) !! sessionId = Some (length (heap w)) /\
  exists c, client_at (started cfg driver sessionId s w) (length (heap w)) = Some c /\
            pupPage c = None /\ pupBrowser c = None /\ script c = s.
Proof.
  unfold started.
  set (w0 := set_files _ _).
  assert (Hc : client_at w0 (length (heap w)) = Some (new_client (clientOptions_for cfg sessionId) s)).
  { unfold client_at. simpl. rewrite lookup_app_r by lia.
    now replace (length (heap w) - length (heap w))%nat with 0%nat by lia. }
  destruct (initializeEvents_client cfg (length (heap w)) sessionId w0 _ Hc eq_refl)
    as (Hs & c' & Hc' & Hp & Hb & Hsc).
  split.
  - simpl. apply lookup_insert_eq.
  - exists c'. unfold client_at in *. simpl. auto.
Qed.

(** C3.  A tenant id has at most one Registry entry: when the id already
    has an entry, [setupSession] returns a failure result and leaves the
    whole state as it was (the Registry, the handle of the existing
    session, the heap of clients: no client is constructed).  In
    particular a second start right after a successful first one is
    rejected and the entry still holds the handle of the first. *)
Theorem setupSession_twice_rejected (cfg : Config) (driver : Driver) (sessionId : string)
    (w : World) :
  (forall h, sessions w !! sessionId = Some h ->
     setupSession cfg driver sessionId w = (Normal (already_exists sessionId), w)) /\
  (forall r1 w1,
     setupSession cfg driver sessionId w = (Normal r1, w1) -> success r1 = true ->
     sessions w1 !! sessionId = Some (length (heap w)) /\
     setupSession cfg driver sessionId w1 = (Normal (already_exists sessionId), w1)).
Proof.
  split.
  - intros h. apply setupSession_existing.
  - intros r1 w1 E Hok.
    destruct (sessions w !! sessionId) as [h|] eqn:Hreg.
    { rewrite (setupSession_existing _ _ _ _ _ Hreg) in E.
      injection E as <- <-. discriminate Hok. }
    rewrite (setupSession_fresh _ _ _ _ Hreg) in E.
    destruct (LocalAuth_new driver sessionId (sessionFolderPath cfg)) as [[]|e].
    2:{ injection E as <- <-. discriminate Hok. }
    destruct (Client_new driver (length (heap w)) (clientOptions_for cfg sessionId)) as [s|e].
    2:{ injection E as <- <-. discriminate Hok. }
    injection E as <- <-.
    destruct (started_registry cfg driver sessionId s w) as [Hh _].
    split; [exact Hh|]. eapply setupSession_existing, Hh.
Qed.

(** C3 at work: tenant ["1"] started twice on a fresh process. *)
Lemma setupSession_twice_example :
  let cfg := Example.config [] false in
  let w1 := snd (setupSession cfg Example.driver "1" (boot (Example.disk [] [] []))) in
  sessions w1 !! "1" = Some 0%nat /\
  setupSession cfg Example.driver "1" w1 = (Normal (already_exists "1"), w1).
Proof.
  intros cfg w1.
  assert (H : sessions w1 !! "1" = Some 0%nat) by (vm_compute; reflexivity).
  split; [exact H|].
  exact (proj1 (setupSession_twice_rejected cfg Example.driver "1" w1) 0%nat H).
Defined.

(** C10, as amended.  For a tenant id with no Registry entry whose
    auth-strategy and client constructors do not throw, [setupSession]
    returns success with the state field CONNECTED, although the client
    it registered has no page and no browser yet and its driver may
    answer anything later (any script).  When a constructor throws,
    [setupSession] returns a failure result with the error's message and
    a null state, and leaves the state of the process as it was. *)
Theorem setupSession_reports_connected (cfg : Config) (driver : Driver) (sessionId : string)
    (w : World) :
  sessions w !! sessionId = None ->
  match LocalAuth_new driver sessionId (sessionFolderPath cfg),
        Client_new driver (length (heap w)) (clientOptions_for cfg sessionId) with
  | Normal _, Normal s =>
      exists w' c,
        setupSession cfg driver sessionId w = (Normal initiated, w') /\
        state initiated = Some "CONNECTED" /\
        sessions w' !! sessionId = Some (length (heap w)) /\
        client_at w' (length (heap w)) = Some c /\
        pupPage c = None /\ pupBrowser c = None /\ script c = s
  | Throw e, _ | Normal _, Throw e =>
      setupSession cfg driver sessionId w = (Normal (failed e), w)
  end.
Proof.
  intros Hreg. rewrite (setupSession_fresh _ _ _ _ Hreg).
  destruct (LocalAuth_new driver sessionId (sessionFolderPath cfg)) as [[]|e]; [|reflexivity].
  destruct (Client_new driver (length (heap w)) (clientOptions_for cfg sessionId)) as [s|e];
    [|reflexivity].
  destruct (started_registry cfg driver sessionId s w) as (Hh & c & Hc & Hp & Hb & Hs).
  exists (started cfg driver sessionId s w), c. auto 10.
Qed.

(** C10 at work: tenant ["4"] is reported CONNECTED by the start, and not
    connected by the validation that follows. *)
Lemma setupSession_connected_example :
  let cfg := Example.config [] false in
  let w0 := boot (Example.disk [] [] []) in
  exists w',
    setupSession cfg Example.driver "4" w0 = (Normal initiated, w') /\
    fst (validateSession "4" (drain w')) =
    Normal {| success := false; message := "session_not_connected";
              state := Some "OPENING"; client := None |}.
Proof.
  intros cfg w0.
  pose proof (setupSession_reports_connected cfg Example.driver "4" w0 (lookup_empty _)) as H.
  simpl in H. destruct H as (w' & c & E & _).
  exists w'. split; [exact E|].
  replace w' with (snd (setupSession cfg Example.driver "4" w0)) by now rewrite E.
  vm_compute. reflexivity.
Defined.

(** C10 as stated fails: the driver's [LocalAuth] rejects the id
    ["bad id!"], and the start of that unregistered tenant reports a
    failure. *)
Lemma setupSession_bad_id_fails :
  let cfg := Example.config [] false in
  let w0 := boot (Example.disk [] [] []) in
  sessions w0 !! "bad id!" = None /\
  exists r, fst (setupSession cfg Example.driver "bad id!" w0) = Normal r /\
            success r = false /\ state r = None.
Proof.
  intros cfg w0. split; [apply lookup_empty|].
  eexists. split; [vm_compute; reflexivity|]. split; reflexivity.
Qed.

(** ** [deleteSessionFolder] *)

(** C6.  [deleteSessionFolder] resolves the tenant's directory and the
    credential root to real paths; when the resolved directory does not
    start with the resolved root followed by the path separator, it
    throws the traversal error and the state is as before: no file is
    unlinked and no directory removed, not even attempted. *)
Theorem deleteSessionFolder_rejects_traversal (cfg : Config) (sessionId : string) (w : World)
    (resolvedTargetDirPath resolvedSessionPath : string) :
  realpath cfg (credential_dir cfg sessionId) w = (Normal resolvedTargetDirPath, w) ->
  realpath cfg (sessionFolderPath cfg) w = (Normal resolvedSessionPath, w) ->
  startsWith resolvedTargetDirPath (resolvedSessionPath +:+ path_sep cfg) = false ->
  deleteSessionFolder cfg sessionId w = (Throw traversal_error, w).
Proof.
  intros Ht Hr Hout. unfold deleteSessionFolder.
  erewrite try_catch_throw; [reflexivity|].
  unfold credential_dir in Ht.
  rewrite (bind_normal _ _ _ _ _ Ht), (bind_normal _ _ _ _ _ Hr), Hout.
  reflexivity.
Qed.

(** C6 at work: the directory of tenant ["evil"] is a link to a sibling
    of the credential root whose name starts like the root's. *)
Lemma deleteSessionFolder_sibling_example :
  let cfg := Example.config [] false in
  let w := Example.world [] []
             (Example.disk [("/srv/sessions/session-evil", "/srv/sessions-old/x")]
                ["/srv/sessions-old/x"] ["a"]) in
  realpath cfg (credential_dir cfg "evil") w = (Normal "/srv/sessions-old/x", w) /\
  startsWith "/srv/sessions-old/x" "/srv/sessions" = true /\
  deleteSessionFolder cfg "evil" w = (Throw traversal_error, w).
Proof.
  intros cfg w.
  assert (Ht : realpath cfg (credential_dir cfg "evil") w = (Normal "/srv/sessions-old/x", w))
    by (vm_compute; reflexivity).
  assert (Hr : realpath cfg (sessionFolderPath cfg) w = (Normal "/srv/sessions", w))
    by (vm_compute; reflexivity).
  split; [exact Ht|]. split; [reflexivity|].
  exact (deleteSessionFolder_rejects_traversal cfg "evil" w _ _ Ht Hr eq_refl).
Defined.

Lemma bind_inv_normal {A B} (m : M A) (k : A -> M B) (w w' : World) (b : B) :
  bind m k w = (Normal b, w') ->
  exists a w1, m w = (Normal a, w1) /\ k a w1 = (Normal b, w').
Proof.
  unfold bind. destruct (m w) as [[a|e] w1]; intros H; [eauto|discriminate].
Qed.

Lemma try_catch_rethrow {A} (m : M A) (w : World) :
  try_catch m (fun error => throw error) w = m w.
Proof. unfold try_catch, throw. now destruct (m w) as [[a|e] w1]. Qed.

#[local] Instance same_resolve_preorder : PreOrder same_resolve.
Proof. split; [now intros w|intros a b c Hab Hbc; unfold same_resolve in *; congruence]. Qed.

Lemma sleep_files (n : nat) (w : World) : files (snd (sleep n w)) = files w.
Proof.
  unfold sleep, modify. simpl. induction n as [|n IH]; [reflexivity|exact IH].
Qed.

Lemma unlink_resolve (cfg : Config) (p : string) : respects same_resolve (unlink cfg p).
Proof.
  intros w. unfold unlink, same_resolve. simpl.
  destruct (busy (files w) !! p) as [[|code later]|]; simpl;
    repeat (match goal with |- context [if ?b then _ else _] => destruct b end; simpl);
    reflexivity.
Qed.

Lemma unlink_with_retry_resolve (cfg : Config) (p : string) :
  respects same_resolve (unlink_with_retry cfg p).
Proof.
  unfold unlink_with_retry. apply respects_try_catch; [typeclasses eauto|apply unlink_resolve|].
  intros e. destruct (has_code e "EPERM" || has_code e "EBUSY").
  - apply respects_bind; [typeclasses eauto| |intros _; apply unlink_resolve].
    intros w. unfold same_resolve. now rewrite sleep_files.
  - apply respects_throw. typeclasses eauto.
Qed.

Lemma is_entry_dropped (cfg : Config) (rv : string -> string) (ds : gmap string (list string))
    (bz : gmap string (list string)) (p : string) :
  is_entry cfg {| resolve := rv; dirs := delete p (drop_entry cfg p ds); busy := bz |} p = false.
Proof.
  apply not_true_is_false. unfold is_entry. simpl. intros H.
  apply existsb_exists in H as ([d entries] & Hin & Hex). simpl in Hex.
  apply list_elem_of_In, elem_of_map_to_list in Hin.
  apply lookup_delete_Some in Hin as [_ Hin].
  unfold drop_entry in Hin. rewrite map_lookup_imap in Hin.
  destruct (ds !! d) as [entries0|]; simpl in Hin; [|discriminate].
  injection Hin as <-.
  apply existsb_exists in Hex as (f & Hf & Heq).
  apply filter_In in Hf as [_ Hf]. rewrite Heq in Hf. discriminate.
Qed.

(** When [deleteSessionFolder] returns, the directory is gone. *)
Lemma deleteSessionFolder_removes (cfg : Config) (sessionId : string) (w w' : World) :
  deleteSessionFolder cfg sessionId w = (Normal tt, w') ->
  existsSync cfg (files w') (credential_dir cfg sessionId) = false.
Proof.
  unfold deleteSessionFolder. rewrite try_catch_rethrow. intros H.
  apply bind_inv_normal in H as (rt & w1 & Hrt & H).
  unfold realpath in Hrt.
  destruct (existsSync cfg (files w) _); [|discriminate]. injection Hrt as <- <-.
  apply bind_inv_normal in H as (rr & w1 & Hrr & H).
  unfold realpath in Hrr.
  destruct (existsSync cfg (files w) _); [|discriminate]. injection Hrr as <- <-.
  destruct (negb _); [discriminate|].
  apply bind_inv_normal in H as (entries & w1 & Hread & H).
  unfold readdir in Hread.
  destruct (dirs (files w) !! _); [|discriminate]. injection Hread as <- <-.
  apply bind_inv_normal in H as ([] & w2 & Hloop & H).
  assert (Hres : resolve (files w2) = resolve (files w)).
  { pose proof (respects_forEach same_resolve l
                  (fun file => unlink_with_retry cfg
                                 (path_join cfg (resolve (files w)
                                    (path_join cfg (sessionFolderPath cfg) ("session-" +:+ sessionId)))
                                    file))
                  (fun x => unlink_with_retry_resolve cfg _) w) as Hr.
    rewrite Hloop in Hr. exact Hr. }
  unfold rmdir in H. simpl in H.
  destruct (dirs (files w2) !! _) as [[|x entries]|] eqn:Hd; try discriminate.
  injection H as <-.
  unfold existsSync, credential_dir. simpl. rewrite Hres.
  rewrite is_entry_dropped. unfold is_dir. simpl.
  now rewrite lookup_delete_eq.
Qed.

(** ** [deleteSession] *)

#[local] Instance only_fs_events_preorder : PreOrder only_fs_events.
Proof.
  split.
  - intros w. exists []. split; [constructor|now rewrite app_nil_r].
  - intros a b c (e1 & H1 & E1) (e2 & H2 & E2). exists (e1 ++ e2)%list. split.
    + apply Forall_app; auto.
    + now rewrite E2, E1, app_assoc.
Qed.

Lemma same_trace_only_fs (w w' : World) : trace w' = trace w -> only_fs_events w w'.
Proof. intros H. exists []. split; [constructor|now rewrite app_nil_r]. Qed.

Lemma iter_tick_trace (n : nat) (w : World) : trace (Nat.iter n tick w) = trace w.
Proof. induction n as [|n IH]; [reflexivity|exact IH]. Qed.

Lemma iter_tick_sessions (n : nat) (w : World) : sessions (Nat.iter n tick w) = sessions w.
Proof. induction n as [|n IH]; [reflexivity|exact IH]. Qed.

Lemma iter_tick_files (n : nat) (w : World) : files (Nat.iter n tick w) = files w.
Proof. induction n as [|n IH]; [reflexivity|exact IH]. Qed.

Lemma await_disconnected_frame (more : nat) (h : handle) (w : World) :
  trace (await_disconnected more h w) = trace w /\
  sessions (await_disconnected more h w) = sessions w /\
  files (await_disconnected more h w) = files w.
Proof.
  revert w. induction more as [|more IH]; intros w; cbn [await_disconnected].
  - destruct (browser_isConnected w h); auto.
  - destruct (browser_isConnected w h); [|auto].
    destruct (IH (Nat.iter 10 tick w)) as (-> & -> & ->).
    now rewrite iter_tick_trace, iter_tick_sessions, iter_tick_files.
Qed.

Lemma unlink_only_fs (cfg : Config) (p : string) : respects only_fs_events (unlink cfg p).
Proof.
  intros w. exists [EvUnlink p]. split; [repeat constructor|].
  unfold unlink. simpl.
  destruct (busy (files w) !! p) as [[|code later]|]; simpl;
    repeat (match goal with |- context [if ?b then _ else _] => destruct b end; simpl);
    reflexivity.
Qed.

Lemma rmdir_only_fs (cfg : Config) (p : string) : respects only_fs_events (rmdir cfg p).
Proof.
  intros w. exists [EvRmdir p]. split; [repeat constructor|].
  unfold rmdir. simpl.
  destruct (dirs (files w) !! p) as [[|x entries]|]; reflexivity.
Qed.

Lemma realpath_pure (cfg : Config) (p : string) (w : World) : snd (realpath cfg p w) = w.
Proof. unfold realpath. now destruct (existsSync cfg (files w) p). Qed.

Lemma readdir_pure (p : string) (w : World) : snd (readdir p w) = w.
Proof. unfold readdir. now destruct (dirs (files w) !! resolve (files w) p). Qed.

Lemma respects_pure {A} (R : relation World) `{!Reflexive R} (m : M A) :
  (forall w, snd (m w) = w) -> respects R m.
Proof. intros H w. rewrite H. reflexivity. Qed.

Lemma deleteSessionFolder_only_fs (cfg : Config) (sessionId : string) :
  respects only_fs_events (deleteSessionFolder cfg sessionId).
Proof.
  unfold deleteSessionFolder.
  apply respects_try_catch; [typeclasses eauto| |intros e; apply respects_throw; typeclasses eauto].
  apply respects_bind; [typeclasses eauto| |intros rt].
  { apply respects_pure; [typeclasses eauto|apply realpath_pure]. }
  apply respects_bind; [typeclasses eauto| |intros rr].
  { apply respects_pure; [typeclasses eauto|apply realpath_pure]. }
  destruct (negb _); [apply respects_throw; typeclasses eauto|].
  apply respects_bind; [typeclasses eauto| |intros entries].
  { apply respects_pure; [typeclasses eauto|apply readdir_pure]. }
  apply respects_bind; [typeclasses eauto| |intros _; apply rmdir_only_fs].
  apply respects_forEach; [typeclasses eauto|]. intros file.
  unfold unlink_with_retry.
  apply respects_try_catch; [typeclasses eauto|apply unlink_only_fs|]. intros e.
  destruct (_ || _); [|apply respects_throw; typeclasses eauto].
  apply respects_bind; [typeclasses eauto| |intros _; apply unlink_only_fs].
  intros w. apply same_trace_only_fs. exact (iter_tick_trace 10 w).
Qed.

Lemma disconnect_poll_frame (h : handle) (w : World) :
  exists w1,
    (do w <- get;
     match browser_of w h, default false (has_isConnected <$> script_of w h) with
     | Some _, true => modify (await_disconnected 10 h)
     | _, _ => ret tt
     end) w = (Normal tt, w1) /\
    trace w1 = trace w /\ sessions w1 = sessions w /\ files w1 = files w.
Proof.
  rewrite (bind_normal get _ w w w eq_refl).
  destruct (browser_of w h) as [b|]; [|exists w; auto].
  destruct (default false (has_isConnected <$> script_of w h)); [|exists w; auto].
  eexists. split; [reflexivity|]. apply await_disconnected_frame.
Qed.

Lemma teardown_rest_only_fs (cfg : Config) (sessionId : string) (h : handle) :
  respects only_fs_events (teardown_rest cfg sessionId h).
Proof.
  intros w. unfold teardown_rest.
  destruct (disconnect_poll_frame h w) as (w1 & E & Ht & _).
  rewrite (bind_normal _ _ _ _ _ E).
  transitivity w1; [now apply same_trace_only_fs|].
  apply respects_bind; [typeclasses eauto|apply deleteSessionFolder_only_fs|].
  intros _ w2. now apply same_trace_only_fs.
Qed.

(** [deleteSession] on a registered session whose page is there. *)
Lemma deleteSession_registered (cfg : Config) (sessionId : string) (v : ValidationResult)
    (w : World) (h : handle) (p : Page) :
  sessions w !! sessionId = Some h -> page_of w h = Some p ->
  deleteSession cfg sessionId v w =
  bind (if success v then client_logout h
        else if String.eqb (message v) "session_not_connected" then client_destroy h
             else ret tt)
       (fun _ => teardown_rest cfg sessionId h) (removeAllListeners h w).
Proof.
  intros Hreg Hpage. unfold deleteSession. rewrite try_catch_rethrow.
  rewrite (bind_normal get _ w w w eq_refl), Hreg, Hpage.
  reflexivity.
Qed.

(** [deleteSession] on an unknown session, or one whose page is not there. *)
Lemma deleteSession_early_return (cfg : Config) (sessionId : string) (v : ValidationResult)
    (w : World) :
  sessions w !! sessionId = None \/
  (exists h, sessions w !! sessionId = Some h /\ page_of w h = None) ->
  deleteSession cfg sessionId v w = (Normal tt, w).
Proof.
  intros H. unfold deleteSession. rewrite try_catch_rethrow.
  rewrite (bind_normal get _ w w w eq_refl).
  destruct H as [->|(h & -> & ->)]; reflexivity.
Qed.

Lemma driver_call_trace (h : handle) (e : Event) (result : Script -> Completion unit) (w : World) :
  trace (snd (driver_call h e result w)) = (trace w ++ [e])%list.
Proof.
  unfold driver_call. destruct (script_of (observe e w) h) as [s|]; [|reflexivity].
  destruct (result s) as [[]|err]; reflexivity.
Qed.

(** When [deleteSession] gets past its guards and returns, the directory
    and the Registry entry are gone. *)
Lemma deleteSession_registered_removes (cfg : Config) (sessionId : string)
    (validation : ValidationResult) (w w' : World) (h : handle) (p : Page) :
  sessions w !! sessionId = Some h -> page_of w h = Some p ->
  deleteSession cfg sessionId validation w = (Normal tt, w') ->
  existsSync cfg (files w') (credential_dir cfg sessionId) = false /\
  sessions w' !! sessionId = None.
Proof.
  intros Hreg Hpage H.
  rewrite (deleteSession_registered _ _ _ _ _ _ Hreg Hpage) in H.
  apply bind_inv_normal in H as ([] & w1 & _ & H).
  unfold teardown_rest in H.
  apply bind_inv_normal in H as ([] & w2 & _ & H).
  apply bind_inv_normal in H as ([] & w3 & Hdel & H).
  injection H as <-. simpl. split.
  - eapply deleteSessionFolder_removes, Hdel.
  - apply lookup_delete_eq.
Qed.

(** C1, as amended.  For a tenant id that has a Registry entry whose
    client has its page: when [deleteSession] returns without throwing,
    the tenant's credential directory [session-<id>] is absent and the
    Registry has no entry for the id, whatever the validation passed in.
    For an id with no Registry entry, or whose client has no page yet,
    [deleteSession] returns at once and leaves the state as it was. *)
Theorem deleteSession_removes_session (cfg : Config) (sessionId : string)
    (validation : ValidationResult) (w : World) :
  (forall h p w',
     sessions w !! sessionId = Some h -> page_of w h = Some p ->
     deleteSession cfg sessionId validation w = (Normal tt, w') ->
     existsSync cfg (files w') (credential_dir cfg sessionId) = false /\
     sessions w' !! sessionId = None) /\
  (sessions w !! sessionId = None \/
   (exists h, sessions w !! sessionId = Some h /\ page_of w h = None) ->
   deleteSession cfg sessionId validation w = (Normal tt, w)).
Proof.
  split.
  - intros h p w'. apply deleteSession_registered_removes.
  - apply deleteSession_early_return.
Qed.

(** C1 at work: the connected tenant ["a"] is terminated. *)
Lemma deleteSession_removes_example :
  let cfg := Example.config [] false in
  let w := Example.world [("a", 0%nat)] [Example.running "a" (Some "CONNECTED")]
             (Example.disk [] [] ["a"]) in
  let v := {| success := true; message := "session_connected";
              state := Some "CONNECTED"; client := None |} in
  existsSync cfg (files w) (credential_dir cfg "a") = true /\
  fst (deleteSession cfg "a" v w) = Normal tt /\
  existsSync cfg (files (snd (deleteSession cfg "a" v w))) (credential_dir cfg "a") = false /\
  sessions (snd (deleteSession cfg "a" v w)) !! "a" = None.
Proof.
  intros cfg w v.
  assert (Hreg : sessions w !! "a" = Some 0%nat) by (vm_compute; reflexivity).
  assert (Hpage : page_of w 0%nat = Some {| once_listeners := [] |}) by reflexivity.
  assert (Hrun : deleteSession cfg "a" v w = (Normal tt, snd (deleteSession cfg "a" v w)))
    by (vm_compute; reflexivity).
  split; [vm_compute; reflexivity|]. split; [now rewrite Hrun|].
  exact (proj1 (deleteSession_removes_session cfg "a" v w) _ _ _ Hreg Hpage Hrun).
Defined.

(** C1 as stated fails: the client of tenant ["a"] never got its page.
    The validation times out, [deleteSession] called with it returns
    without throwing, and both the directory and the Registry entry are
    still there. *)
Lemma deleteSession_leaves_stalled_session :
  let cfg := Example.config [] false in
  let w := Example.world [("a", 0%nat)] [Example.stalled "a"] (Example.disk [] [] ["a"]) in
  let v := {| success := false; message := "Timeout waiting for nested object";
              state := None; client := None |} in
  validateSession "a" w = (Normal v, w) /\
  fst (deleteSession cfg "a" v w) = Normal tt /\
  existsSync cfg (files (snd (deleteSession cfg "a" v w))) (credential_dir cfg "a") = true /\
  sessions (snd (deleteSession cfg "a" v w)) !! "a" = Some 0%nat.
Proof. intros cfg w v. repeat split; vm_compute; reflexivity. Qed.

(** C5, as amended.  For a tenant id in the Registry whose client has
    its page, [deleteSession] calls the driver's logout when
    [validation.success] is true; it calls the driver's destroy when
    [validation.success] is false and [validation.message] is
    ["session_not_connected"]; for any other failed validation it calls
    neither.  Everything else it does that can be observed is file-system
    calls. *)
Theorem deleteSession_teardown_call (cfg : Config) (sessionId : string)
    (validation : ValidationResult) (w : World) (h : handle) (p : Page) :
  sessions w !! sessionId = Some h -> page_of w h = Some p ->
  exists fs_events,
    Forall is_fs_event fs_events /\
    trace (snd (deleteSession cfg sessionId validation w)) =
    (trace w
     ++ (if success validation then [EvLogout h]
         else if String.eqb (message validation) "session_not_connected" then [EvDestroy h]
              else [])
     ++ fs_events)%list.
Proof.
  intros Hreg Hpage. rewrite (deleteSession_registered _ _ _ _ _ _ Hreg Hpage).
  set (w0 := removeAllListeners h w).
  assert (Hstep : forall (m : M unit) (called : list Event),
            trace (snd (m w0)) = (trace w ++ called)%list ->
            exists fs_events,
              Forall is_fs_event fs_events /\
              trace (snd (bind m (fun _ => teardown_rest cfg sessionId h) w0)) =
              (trace w ++ called ++ fs_events)%list).
  { intros m called Hm. unfold bind. destruct (m w0) as [[[]|e] w1]; simpl in Hm.
    - destruct (teardown_rest_only_fs cfg sessionId h w1) as (evs & Hevs & E).
      exists evs. split; [exact Hevs|]. now rewrite E, Hm, app_assoc.
    - exists []. split; [constructor|]. simpl. now rewrite app_nil_r. }
  destruct (success validation).
  - apply Hstep. apply (driver_call_trace h (EvLogout h) logout_result w0).
  - destruct (String.eqb (message validation) "session_not_connected").
    + apply Hstep. apply (driver_call_trace h (EvDestroy h) destroy_result w0).
    + apply Hstep. simpl. now rewrite app_nil_r.
Qed.

(** C5 at work: tenant ["a"], validated as not connected, is destroyed
    and not logged out. *)
Lemma deleteSession_teardown_example :
  let cfg := Example.config [] false in
  let w := Example.world [("a", 0%nat)] [Example.running "a" (Some "OPENING")]
             (Example.disk [] [] ["a"]) in
  let v := {| success := false; message := "session_not_connected";
              state := Some "OPENING"; client := None |} in
  exists fs_events,
    Forall is_fs_event fs_events /\
    trace (snd (deleteSession cfg "a" v w)) = (EvDestroy 0%nat :: fs_events)%list.
Proof.
  intros cfg w v.
  assert (Hreg : sessions w !! "a" = Some 0%nat) by (vm_compute; reflexivity).
  exact (deleteSession_teardown_call cfg "a" v w 0%nat _ Hreg eq_refl).
Defined.

(** C5 as stated fails: the browser tab of tenant ["a"] is closed, the
    validation reports it (a failure, not connected), and [deleteSession]
    called with that validation calls neither destroy nor logout. *)
Lemma deleteSession_no_destroy_for_closed_tab :
  let cfg := Example.config [] false in
  let w := Example.world [("a", 0%nat)] [Example.closed_tab "a"] (Example.disk [] [] ["a"]) in
  let v := {| success := false; message := "browser tab closed";
              state := None; client := None |} in
  sessions w !! "a" = Some 0%nat /\
  validateSession "a" w = (Normal v, w) /\
  ~ In (EvDestroy 0%nat) (trace (snd (deleteSession cfg "a" v w))) /\
  ~ In (EvLogout 0%nat) (trace (snd (deleteSession cfg "a" v w))).
Proof.
  intros cfg w v.
  assert (Ht : trace (snd (deleteSession cfg "a" v w)) =
               [EvUnlink "/srv/sessions/session-a/Cookies"; EvRmdir "/srv/sessions/session-a"])
    by (vm_compute; reflexivity).
  split; [vm_compute; reflexivity|]. split; [vm_compute; reflexivity|].
  rewrite Ht. split; intros [H|[H|[]]]; discriminate H.
Qed.

(** ** [flushSessions] *)

#[local] Instance only_heap_preorder : PreOrder only_heap.
Proof.
  split; [now intros w|].
  intros a b c (?&?&?&?) (?&?&?&?). unfold only_heap. repeat split; congruence.
Qed.

Lemma waitForNestedObject_only_heap (more : nat) (h : handle) :
  respects only_heap (waitForNestedObject more h).
Proof.
  intros w. revert w. induction more as [|more IH]; intros w; simpl.
  - destruct (page_of w h); reflexivity.
  - destruct (page_of w h); [reflexivity|].
    transitivity (tick w); [now unfold only_heap|apply IH].
Qed.

Lemma validateSession_only_heap (sessionId : string) : respects only_heap (validateSession sessionId).
Proof.
  unfold validateSession.
  apply respects_bind; [typeclasses eauto|apply respects_get; typeclasses eauto|]. intros w.
  destruct (sessions w !! sessionId) as [h|]; [|apply respects_ret; typeclasses eauto].
  apply respects_try_catch; [typeclasses eauto| |intros e; apply respects_ret; typeclasses eauto].
  apply respects_bind; [typeclasses eauto|apply waitForNestedObject_only_heap|]. intros _.
  apply respects_bind; [typeclasses eauto| |intros closed].
  { apply respects_pure; [typeclasses eauto|]. intros w1. unfold page_isClosed.
    destruct (page_of w1 h); [|reflexivity]. now destruct (script_of w1 h). }
  destruct closed; [apply respects_ret; typeclasses eauto|].
  apply respects_bind; [typeclasses eauto| |intros st].
  { apply respects_pure; [typeclasses eauto|]. intros w1. unfold client_getState.
    now destruct (script_of w1 h). }
  case_bool_decide; apply respects_ret; typeclasses eauto.
Qed.

Lemma flush_file_total (cfg : Config) (b : bool) (file : string) (w : World) :
  fst (flush_file cfg b file w) = Normal tt.
Proof.
  unfold flush_file. destruct (match_session file) as [sessionId|]; [|reflexivity].
  unfold try_catch. now destruct (bind _ _ w) as [[[]|e] w1].
Qed.

Lemma forEach_total {A} (body : A -> M unit) (l : list A) (w : World) :
  (forall x w, fst (body x w) = Normal tt) -> fst (forEach l body w) = Normal tt.
Proof.
  intros Hb. revert w. induction l as [|x l IH]; intros w; simpl; [reflexivity|].
  unfold bind. specialize (Hb x w). destruct (body x w) as [[[]|e] w1]; simpl in Hb.
  - apply IH.
  - discriminate Hb.
Qed.

Lemma forEach_snoc {A} (body : A -> M unit) (l : list A) (x : A) (w : World) :
  (forall x w, fst (body x w) = Normal tt) ->
  snd (forEach (l ++ [x]) body w) = snd (body x (snd (forEach l body w))).
Proof.
  intros Hb. revert w. induction l as [|y l IH]; intros w; simpl.
  - unfold bind. destruct (body x w) as [[[]|e] w1]; reflexivity.
  - unfold bind. pose proof (Hb y w) as Hy.
    destruct (body y w) as [[[]|e] w1]; simpl in Hy; [apply IH|discriminate Hy].
Qed.

Lemma flushSessions_rounds (cfg : Config) (b : bool) (entries : list string) (w : World) :
  existsSync cfg (files w) (sessionFolderPath cfg) = true ->
  readdir (sessionFolderPath cfg) w = (Normal entries, w) ->
  flushSessions cfg b w = (Normal tt, flush_rounds cfg b entries w).
Proof.
  intros Hex Hread. unfold flushSessions. rewrite try_catch_rethrow.
  rewrite (bind_normal get _ w w w eq_refl), Hex. simpl.
  rewrite (bind_normal _ _ _ _ _ Hread). unfold flush_rounds.
  pose proof (forEach_total (flush_file cfg b) entries w (flush_file_total cfg b)) as Ht.
  destruct (forEach entries (flush_file cfg b) w) as [c w']. simpl in *. now subst c.
Qed.

Lemma validateSession_total (sessionId : string) (w : World) :
  exists v w1, validateSession sessionId w = (Normal v, w1).
Proof.
  unfold validateSession. rewrite (bind_normal get _ w w w eq_refl).
  destruct (sessions w !! sessionId) as [h|]; [|eauto].
  unfold try_catch. destruct (bind _ _ w) as [[v|e] w1]; eauto.
Qed.

(** One round of the loop on a matching entry. *)
Lemma flush_file_round (cfg : Config) (b : bool) (file sessionId : string) (w : World) :
  match_session file = Some sessionId ->
  exists v w1,
    validateSession sessionId w = (Normal v, w1) /\ only_heap w w1 /\
    snd (flush_file cfg b file w) =
    (if b && success v then w1 else snd (deleteSession cfg sessionId v w1)).
Proof.
  intros Hm. unfold flush_file. rewrite Hm.
  destruct (validateSession_total sessionId w) as (v & w1 & E).
  exists v, w1. split; [exact E|]. split.
  { pose proof (validateSession_only_heap sessionId w) as H. now rewrite E in H. }
  unfold try_catch. rewrite (bind_normal _ _ _ _ _ E).
  destruct b, (success v); simpl; try reflexivity;
    now destruct (deleteSession cfg sessionId v w1) as [[[]|e] w2].
Qed.

(** *** A directory that a flush leaves alone *)

Lemma forEach_app {A} (body : A -> M unit) (l1 l2 : list A) (w : World) :
  (forall x w, fst (body x w) = Normal tt) ->
  snd (forEach (l1 ++ l2) body w) = snd (forEach l2 body (snd (forEach l1 body w))).
Proof.
  intros Hb. revert w. induction l1 as [|y l1 IH]; intros w; [reflexivity|].
  cbn [app forEach]. unfold bind. pose proof (Hb y w) as Hy.
  destruct (body y w) as [[[]|e] w1]; simpl in Hy; [apply IH|discriminate Hy].
Qed.

Lemma respects_forEach_In {A} (R : relation World) `{!PreOrder R} (l : list A)
    (body : A -> M unit) :
  (forall x, In x l -> respects R (body x)) -> respects R (forEach l body).
Proof.
  induction l as [|x l IH]; intros Hb; cbn [forEach].
  - now apply respects_ret.
  - apply respects_bind; [assumption|apply Hb; now left|].
    intros _. apply IH. intros y Hy. apply Hb. now right.
Qed.

Lemma dir_kept_same (r : string -> string) (t : string) (w w' : World) :
  files w' = files w -> keeps (dir_kept r t) w w'.
Proof. intros E H. unfold dir_kept. now rewrite E. Qed.

Lemma is_dir_drop_entry (cfg : Config) (rv : string -> string)
    (ds bz : gmap string (list string)) (p t : string) :
  is_dir {| resolve := rv; dirs := drop_entry cfg p ds; busy := bz |} t =
  is_dir {| resolve := rv; dirs := ds; busy := bz |} t.
Proof.
  unfold is_dir, drop_entry. cbn [dirs]. rewrite map_lookup_imap.
  now destruct (ds !! t).
Qed.

Lemma dir_kept_unlink (cfg : Config) (r : string -> string) (t p : string) :
  respects (keeps (dir_kept r t)) (unlink cfg p).
Proof.
  intros w [Hr Hd]. unfold unlink. cbv zeta. cbn [files observe].
  destruct (busy (files w) !! p) as [[|code later]|]; [|split; assumption|];
    (destruct (is_dir (files w) p); [split; assumption|]);
    (destruct (is_entry cfg (files w) p); [|split; assumption]);
    (split; [exact Hr|]); cbn [snd files set_files observe];
    rewrite is_dir_drop_entry; now destruct (files w).
Qed.

Lemma dir_kept_rmdir (cfg : Config) (r : string -> string) (t p : string) :
  p <> t -> respects (keeps (dir_kept r t)) (rmdir cfg p).
Proof.
  intros Hne w [Hr Hd]. unfold rmdir. cbv zeta. cbn [files observe].
  destruct (dirs (files w) !! p) as [[|x entries]|]; [|split; assumption|split; assumption].
  split; [exact Hr|]. cbn [snd files set_files observe].
  unfold is_dir in *. cbn [dirs]. rewrite lookup_delete_ne by exact Hne.
  unfold drop_entry. rewrite map_lookup_imap. now destruct (dirs (files w) !! t).
Qed.

Lemma dir_kept_deleteSessionFolder (cfg : Config) (r : string -> string) (t : string)
    (sessionId : string) :
  r (credential_dir cfg sessionId) <> t ->
  respects (keeps (dir_kept r t)) (deleteSessionFolder cfg sessionId).
Proof.
  intros Hne w HI. pose proof HI as [Hr _].
  unfold deleteSessionFolder. rewrite try_catch_rethrow. fold (credential_dir cfg sessionId).
  unfold bind at 1, realpath at 1.
  destruct (existsSync cfg (files w) (credential_dir cfg sessionId)); [|exact HI].
  unfold bind at 1, realpath at 1.
  destruct (existsSync cfg (files w) (sessionFolderPath cfg)); [|exact HI].
  destruct (negb _); [exact HI|]. rewrite Hr. revert HI.
  generalize (r (credential_dir cfg sessionId)) Hne. intros target Htarget.
  assert (Hrest : respects (keeps (dir_kept r t))
            (do entries <- readdir target;
             run forEach entries
                   (fun file => unlink_with_retry cfg (path_join cfg target file));
             rmdir cfg target)).
  { unfold unlink_with_retry, sleep.
    repeat first
      [ respects_step
      | apply dir_kept_unlink
      | apply dir_kept_rmdir; exact Htarget
      | apply respects_pure; [typeclasses eauto|apply readdir_pure]
      | apply dir_kept_same; exact (iter_tick_files 10 _) ]. }
  exact (Hrest w).
Qed.

Lemma dir_kept_driver_call (r : string -> string) (t : string) (h : handle) (e : Event)
    (result : Script -> Completion unit) :
  respects (keeps (dir_kept r t)) (driver_call h e result).
Proof.
  intros w. apply dir_kept_same. unfold driver_call. cbv zeta.
  destruct (script_of (observe e w) h) as [s|]; [|reflexivity].
  now destruct (result s) as [[]|err].
Qed.

Lemma dir_kept_deleteSession (cfg : Config) (r : string -> string) (t : string)
    (sessionId : string) (validation : ValidationResult) :
  r (credential_dir cfg sessionId) <> t ->
  respects (keeps (dir_kept r t)) (deleteSession cfg sessionId validation).
Proof.
  intros Hne. unfold deleteSession, client_logout, client_destroy.
  repeat first
    [ respects_step
    | apply dir_kept_driver_call
    | apply dir_kept_deleteSessionFolder; exact Hne
    | apply dir_kept_same; solve [reflexivity | apply await_disconnected_frame] ].
Qed.

Lemma dir_kept_flush_file (cfg : Config) (b : bool) (r : string -> string) (t : string)
    (file : string) :
  (forall sessionId, match_session file = Some sessionId ->
                     r (credential_dir cfg sessionId) <> t) ->
  respects (keeps (dir_kept r t)) (flush_file cfg b file).
Proof.
  intros Hne. unfold flush_file.
  destruct (match_session file) as [sessionId|]; [|apply respects_ret; typeclasses eauto].
  apply respects_try_catch; [typeclasses eauto| |intros e; apply respects_ret; typeclasses eauto].
  apply respects_bind; [typeclasses eauto| |intros v].
  - intros w. apply dir_kept_same. apply validateSession_only_heap.
  - destruct (negb b || negb (success v)); [|apply respects_ret; typeclasses eauto].
    apply dir_kept_deleteSession. now apply Hne.
Qed.

Lemma dir_kept_flush_rounds (cfg : Config) (b : bool) (r : string -> string) (t : string)
    (entries : list string) (w : World) :
  (forall file sessionId, In file entries -> match_session file = Some sessionId ->
                          r (credential_dir cfg sessionId) <> t) ->
  dir_kept r t w -> dir_kept r t (flush_rounds cfg b entries w).
Proof.
  intros Hne. unfold flush_rounds.
  apply (respects_forEach_In (keeps (dir_kept r t))). intros file Hin.
  apply dir_kept_flush_file. intros sessionId. now apply Hne.
Qed.




(** ** The event gate over the lifetime of the process *)

#[local] Instance keeps_gate_preorder (cfg : Config) : PreOrder (keeps_gate cfg).
Proof. split; [now intros w|intros a b c Hab Hbc H; auto]. Qed.

Create HintDb gate.

Lemma keeps_gate_same (cfg : Config) (w w' : World) :
  heap w' = heap w -> microtasks w' = microtasks w -> keeps_gate cfg w w'.
Proof. intros Hh Hm [H1 H2]. split; [now rewrite Hh|now rewrite Hm]. Qed.

Lemma keeps_gate_update (cfg : Config) (h : handle) (f : Client -> Client) (w : World) :
  listener_neutral f -> keeps_gate cfg w (update_client h f w).
Proof.
  intros Hf [H1 H2]. split; [|exact H2]. simpl.
  apply Forall_alter; [exact H1|]. intros c _ Hc. now rewrite Hf.
Qed.

Lemma neutral_with_pupPage p : listener_neutral (with_pupPage p).
Proof. now intros c. Qed.
Lemma neutral_with_pupBrowser b : listener_neutral (with_pupBrowser b).
Proof. now intros c. Qed.
Lemma neutral_with_qr q : listener_neutral (with_qr q).
Proof. now intros c. Qed.
Lemma neutral_with_polling p : listener_neutral (with_polling p).
Proof. now intros c. Qed.
Lemma neutral_with_script s : listener_neutral (with_script s).
Proof. now intros c. Qed.

Lemma neutral_attach_recovery sessionId : listener_neutral (attach_recovery sessionId).
Proof. intros c. unfold attach_recovery. now destruct (pupPage c). Qed.

Lemma neutral_driver_progress : listener_neutral driver_progress.
Proof.
  intros c. unfold driver_progress.
  destruct (launch (script c)) as [[|n]|]; simpl;
    repeat (match goal with |- context [match ?x with _ => _ end] => destruct x end; simpl);
    reflexivity.
Qed.

Lemma neutral_poll_progress : listener_neutral poll_progress.
Proof.
  intros c. unfold poll_progress.
  destruct (polling c) as [[more sessionId]|]; [|reflexivity].
  destruct (pupPage c) eqn:E.
  - simpl. unfold attach_recovery. now rewrite E.
  - now destruct more.
Qed.

#[local] Hint Resolve neutral_with_pupPage neutral_with_pupBrowser neutral_with_qr
  neutral_with_polling neutral_with_script neutral_attach_recovery : gate.

Lemma keeps_gate_tick (cfg : Config) (w : World) : keeps_gate cfg w (tick w).
Proof.
  intros [H1 H2]. split; [|exact H2]. simpl.
  apply Forall_map. eapply Forall_impl; [exact H1|].
  intros c Hc. simpl. now rewrite neutral_poll_progress, neutral_driver_progress.
Qed.

Lemma keeps_gate_iter_tick (cfg : Config) (n : nat) (w : World) :
  keeps_gate cfg w (Nat.iter n tick w).
Proof. apply respects_iter; [typeclasses eauto|apply keeps_gate_tick]. Qed.

Lemma keeps_gate_removeAllListeners (cfg : Config) (h : handle) (w : World) :
  keeps_gate cfg w (removeAllListeners h w).
Proof.
  apply keeps_gate_update. intros c. now destruct (pupPage c).
Qed.

Lemma keeps_gate_request_close (cfg : Config) (h : handle) (w : World) :
  keeps_gate cfg w (request_close h w).
Proof.
  apply keeps_gate_update. intros c. now destruct (pupBrowser c).
Qed.

Lemma keeps_gate_await_disconnected (cfg : Config) (more : nat) (h : handle) (w : World) :
  keeps_gate cfg w (await_disconnected more h w).
Proof.
  revert w. induction more as [|more IH]; intros w; cbn [await_disconnected];
    destruct (browser_isConnected w h); try reflexivity.
  transitivity (Nat.iter 10 tick w); [apply keeps_gate_iter_tick|apply IH].
Qed.

Lemma keeps_gate_waitForNestedObject (cfg : Config) (more : nat) (h : handle) :
  respects (keeps_gate cfg) (waitForNestedObject more h).
Proof.
  intros w. revert w. induction more as [|more IH]; intros w; simpl.
  - destruct (page_of w h); reflexivity.
  - destruct (page_of w h); [reflexivity|].
    transitivity (tick w); [apply keeps_gate_tick|apply IH].
Qed.

Lemma keeps_gate_driver_call (cfg : Config) (h : handle) (e : Event)
    (result : Script -> Completion unit) :
  respects (keeps_gate cfg) (driver_call h e result).
Proof.
  intros w. unfold driver_call.
  destruct (script_of (observe e w) h) as [s|]; [|now apply keeps_gate_same].
  destruct (result s) as [[]|err]; [|now apply keeps_gate_same].
  transitivity (observe e w); [now apply keeps_gate_same|apply keeps_gate_request_close].
Qed.

Lemma keeps_gate_unlink (cfg : Config) (p : string) : respects (keeps_gate cfg) (unlink cfg p).
Proof.
  intros w. apply keeps_gate_same; unfold unlink; simpl;
    destruct (busy (files w) !! p) as [[|code later]|]; simpl;
    repeat (match goal with |- context [if ?b then _ else _] => destruct b end; simpl);
    reflexivity.
Qed.

Lemma keeps_gate_rmdir (cfg : Config) (p : string) : respects (keeps_gate cfg) (rmdir cfg p).
Proof.
  intros w. apply keeps_gate_same; unfold rmdir; simpl;
    destruct (dirs (files w) !! p) as [[|x entries]|]; reflexivity.
Qed.

Lemma keeps_gate_pure {A} (cfg : Config) (m : M A) :
  (forall w, snd (m w) = w) -> respects (keeps_gate cfg) m.
Proof. apply respects_pure. typeclasses eauto. Qed.

Lemma page_isClosed_pure (h : handle) (w : World) : snd (page_isClosed h w) = w.
Proof.
  unfold page_isClosed. destruct (page_of w h); [|reflexivity]. now destruct (script_of w h).
Qed.

Lemma client_getState_pure (h : handle) (w : World) : snd (client_getState h w) = w.
Proof. unfold client_getState. now destruct (script_of w h). Qed.

Ltac respects_gate :=
  repeat first
    [ respects_step
    | solve [eauto with gate]
    | apply keeps_gate_pure; solve [eauto with gate]
    | apply keeps_gate_same; reflexivity ].

#[local] Hint Resolve keeps_gate_tick keeps_gate_iter_tick keeps_gate_removeAllListeners
  keeps_gate_request_close keeps_gate_await_disconnected keeps_gate_waitForNestedObject
  keeps_gate_driver_call keeps_gate_unlink keeps_gate_rmdir
  realpath_pure readdir_pure page_isClosed_pure client_getState_pure : gate.

Lemma keeps_gate_validateSession (cfg : Config) (sessionId : string) :
  respects (keeps_gate cfg) (validateSession sessionId).
Proof. unfold validateSession. respects_gate. Qed.

Lemma keeps_gate_deleteSessionFolder (cfg : Config) (sessionId : string) :
  respects (keeps_gate cfg) (deleteSessionFolder cfg sessionId).
Proof.
  unfold deleteSessionFolder, unlink_with_retry, sleep. respects_gate.
Qed.

#[local] Hint Resolve keeps_gate_validateSession keeps_gate_deleteSessionFolder : gate.

Lemma keeps_gate_deleteSession (cfg : Config) (sessionId : string) (v : ValidationResult) :
  respects (keeps_gate cfg) (deleteSession cfg sessionId v).
Proof.
  unfold deleteSession, client_logout, client_destroy. respects_gate.
Qed.

#[local] Hint Resolve keeps_gate_deleteSession : gate.

Lemma keeps_gate_flushSessions (cfg : Config) (b : bool) :
  respects (keeps_gate cfg) (flushSessions cfg b).
Proof.
  unfold flushSessions, flush_file. respects_gate.
Qed.

Lemma gated_events_not_qr :
  Forall (fun eh : string * Handler => fst eh <> "qr") (gated_before_qr ++ gated_after_qr).
Proof. repeat constructor; discriminate. Qed.

Lemma keeps_gate_subscribe (cfg : Config) h wh sessionId (eh : string * Handler) (w : World) :
  fst eh <> "qr" -> keeps_gate cfg w (subscribe_gated cfg h wh sessionId eh w).
Proof.
  intros Hqr. unfold subscribe_gated, checkIfEventisEnabled.
  destruct (includes (disabledCallbacks cfg) (fst eh)) eqn:E; simpl; [reflexivity|].
  apply includes_not_In in E. intros [H1 H2]. split; [exact H1|]. simpl.
  apply Forall_app. split; [exact H2|]. apply Forall_singleton. split; assumption.
Qed.

Lemma keeps_gate_subscribe_all (cfg : Config) h wh sessionId (l : list (string * Handler))
    (w : World) :
  Forall (fun eh => fst eh <> "qr") l ->
  keeps_gate cfg w (fold_left (fun w eh => subscribe_gated cfg h wh sessionId eh w) l w).
Proof.
  intros Hl. revert w. induction Hl as [|eh l Heh Hl IH]; intros w; simpl; [reflexivity|].
  etransitivity; [apply keeps_gate_subscribe, Heh|apply IH].
Qed.

Lemma keeps_gate_client_on (cfg : Config) (h : handle) (l : Listener) (w : World) :
  allowed_listener cfg l -> keeps_gate cfg w (client_on h l w).
Proof.
  intros Hl [H1 H2]. split; [|exact H2]. simpl.
  apply Forall_alter; [exact H1|]. intros c _ Hc. simpl.
  apply Forall_app. split; [exact Hc|]. apply Forall_singleton. exact Hl.
Qed.

Lemma keeps_gate_start_recovery_wait (cfg : Config) (h : handle) (sessionId : string) (w : World) :
  keeps_gate cfg w (start_recovery_wait h sessionId w).
Proof.
  unfold start_recovery_wait. destruct (page_of w h).
  - intros [H1 H2]. split; [exact H1|]. simpl.
    apply Forall_app. split; [exact H2|]. repeat constructor.
  - destruct (wait_polls _); [reflexivity|]. apply keeps_gate_update. auto with gate.
Qed.

Lemma keeps_gate_initializeEvents (cfg : Config) (h : handle) (sessionId : string) (w : World) :
  keeps_gate cfg w (initializeEvents cfg h sessionId w).
Proof.
  pose proof gated_events_not_qr as Hqr. apply Forall_app in Hqr as [Hb Ha].
  unfold initializeEvents. cbv zeta.
  etransitivity; [|apply keeps_gate_subscribe_all, Ha].
  etransitivity; [|apply keeps_gate_client_on; left; split; reflexivity].
  etransitivity; [|apply keeps_gate_subscribe_all, Hb].
  destruct (recoverSessions cfg); [apply keeps_gate_start_recovery_wait|reflexivity].
Qed.

Lemma keeps_gate_alloc (cfg : Config) (o : ClientOptions) (s : Script) (w : World) :
  keeps_gate cfg w (set_heap (fun hp => (hp ++ [new_client o s])%list) w).
Proof.
  intros [H1 H2]. split; [|exact H2]. simpl.
  apply Forall_app. split; [exact H1|]. repeat constructor.
Qed.

Lemma keeps_gate_setupSession (cfg : Config) (driver : Driver) (sessionId : string) :
  respects (keeps_gate cfg) (setupSession cfg driver sessionId).
Proof.
  unfold setupSession. respects_gate.
  - etransitivity; [apply keeps_gate_alloc|now apply keeps_gate_same].
  - apply keeps_gate_initializeEvents.
Qed.

#[local] Hint Resolve keeps_gate_setupSession : gate.

Lemma keeps_gate_reloadSession (cfg : Config) (driver : Driver) (sessionId : string) :
  respects (keeps_gate cfg) (reloadSession cfg driver sessionId).
Proof.
  unfold reloadSession, browser_close_all. respects_gate.
Qed.

Lemma keeps_gate_run_tasks (cfg : Config) (tasks : list Task) (w : World) :
  Forall (allowed_task cfg) tasks ->
  keeps_gate cfg w (fold_left (fun w t => run_task t w) tasks w).
Proof.
  intros Ht. revert w. induction Ht as [|t tasks Ht Hts IH]; intros w; simpl; [reflexivity|].
  etransitivity; [|apply IH].
  destruct t as [h l|h sessionId]; simpl.
  - apply keeps_gate_client_on. right. exact Ht.
  - apply keeps_gate_update. auto with gate.
Qed.

Lemma gate_kept_drain (cfg : Config) (w : World) : gate_kept cfg w -> gate_kept cfg (drain w).
Proof.
  intros [H1 H2]. unfold drain.
  apply keeps_gate_run_tasks; [exact H2|]. split; [exact H1|constructor].
Qed.

Lemma keeps_gate_forward (cfg : Config) (l : Listener) (dataType : string) (w : World) :
  keeps_gate cfg w (forward l dataType w).
Proof.
  unfold forward. destruct (l_webhook l) as [url|]; [|reflexivity].
  destruct (truthy (Some url)); [now apply keeps_gate_same|reflexivity].
Qed.

Lemma keeps_gate_mark_seen (cfg later : Config) (h : handle) (a : EventArgs) (w : World) :
  keeps_gate cfg w (mark_seen later h a w).
Proof.
  unfold mark_seen. destruct (setMessagesAsSeen later); [|reflexivity].
  destruct (getChat a); [now apply keeps_gate_same|reflexivity].
Qed.

Lemma keeps_gate_run_handler (cfg later : Config) (h : handle) (l : Listener) (a : EventArgs)
    (w : World) :
  keeps_gate cfg w (run_handler later h l a w).
Proof.
  unfold run_handler. destruct (l_handler l) as [dataType|dataType| |].
  - apply keeps_gate_forward.
  - etransitivity; [apply keeps_gate_forward|apply keeps_gate_mark_seen].
  - cbv zeta.
    transitivity (forward l "message" w); [apply keeps_gate_forward|].
    transitivity (mark_seen later h a (forward l "message" w));
      [apply keeps_gate_mark_seen|].
    destruct (hasMedia a && _); [|reflexivity].
    destruct (checkIfEventisEnabled later "media"); try reflexivity.
    destruct (downloadMedia a); [apply keeps_gate_forward|reflexivity].
  - cbv zeta.
    transitivity (update_client h (with_qr (Some (arg_qr a))) w);
      [apply keeps_gate_update; auto with gate|].
    destruct (checkIfEventisEnabled later "qr"); try reflexivity.
    apply keeps_gate_forward.
Qed.

Lemma keeps_gate_client_emit (cfg later : Config) (h : handle) (event : string) (a : EventArgs)
    (w : World) :
  keeps_gate cfg w (client_emit later h event a w).
Proof.
  unfold client_emit. generalize (default [] (listeners <$> client_at w h)). intros ls.
  revert w. induction ls as [|l ls IH]; intros w; simpl; [reflexivity|].
  etransitivity; [|apply IH].
  destruct (String.eqb (l_event l) event); [apply keeps_gate_run_handler|reflexivity].
Qed.

Lemma keeps_gate_restartSession (cfg : Config) (h : handle) (sessionId : string) (w : World) :
  keeps_gate cfg w (restartSession h sessionId w).
Proof.
  unfold restartSession. cbv zeta.
  etransitivity; [|now apply keeps_gate_same].
  etransitivity; [|unfold client_destroy;
                   apply (respects_try_catch (keeps_gate cfg));
                   [apply keeps_gate_driver_call|intros e; apply respects_ret; typeclasses eauto]].
  now apply keeps_gate_same.
Qed.

Lemma keeps_gate_restartSession_resume (cfg : Config) (driver : Driver) (w : World) :
  keeps_gate cfg w (restartSession_resume cfg driver w).
Proof.
  unfold restartSession_resume. destruct (restarting w) as [|sessionId later]; [reflexivity|].
  etransitivity; [|apply keeps_gate_setupSession]. now apply keeps_gate_same.
Qed.

Lemma keeps_gate_page_emit (cfg : Config) (h : handle) (sig : Signal) (w : World) :
  keeps_gate cfg w (page_emit h sig w).
Proof.
  unfold page_emit. destruct (page_of w h) as [p|]; [|reflexivity]. cbv zeta.
  set (kept := List.filter (fun l => negb (signal_eqb (fst l) sig)) (once_listeners p)).
  transitivity (update_client h (with_pupPage (Some {| once_listeners := kept |})) w);
    [apply keeps_gate_update; auto with gate|].
  generalize (List.filter (fun l => signal_eqb (fst l) sig) (once_listeners p)). intros fired.
  generalize (update_client h (with_pupPage (Some {| once_listeners := kept |})) w).
  induction fired as [|l fired IH]; intros w'; simpl; [reflexivity|].
  etransitivity; [apply keeps_gate_restartSession|apply IH].
Qed.

Lemma gate_kept_perform (cfg : Config) (driver : Driver) (a : Action) (w : World) :
  gate_kept cfg w -> gate_kept cfg (perform cfg driver a w).
Proof.
  intros H. unfold perform. apply gate_kept_drain.
  destruct a as [sessionId|sessionId|sessionId|sessionId v|b|h event a|h sig| | |h s|fs|late].
  - now apply keeps_gate_setupSession.
  - now apply keeps_gate_validateSession.
  - now apply keeps_gate_reloadSession.
  - now apply keeps_gate_deleteSession.
  - now apply keeps_gate_flushSessions.
  - now apply keeps_gate_client_emit.
  - now apply keeps_gate_page_emit.
  - now apply keeps_gate_restartSession_resume.
  - now apply keeps_gate_tick.
  - revert H. apply keeps_gate_update. auto with gate.
  - revert H. now apply keeps_gate_same.
  - revert H. now apply keeps_gate_same.
Qed.

Lemma gate_kept_perform_all (cfg : Config) (driver : Driver) (l : list Action) (w : World) :
  gate_kept cfg w -> gate_kept cfg (perform_all cfg driver l w).
Proof.
  unfold perform_all. revert w. induction l as [|a l IH]; intros w H; simpl; [exact H|].
  apply IH, gate_kept_perform, H.
Qed.

Lemma gate_kept_boot (cfg : Config) (fs : FS) : gate_kept cfg (boot fs).
Proof. split; constructor. Qed.

Lemma allowed_listener_other (cfg : Config) (l : Listener) (event : string) :
  allowed_listener cfg l -> In event (disabledCallbacks cfg) -> event <> "qr" ->
  l_event l <> event.
Proof. intros [[Hq _]|[_ Hn]] Hin Hne E; subst event; auto. Qed.

Lemma emit_without_listener (later : Config) (h : handle) (event : string) (a : EventArgs)
    (ls : list Listener) (w : World) :
  Forall (fun l => l_event l <> event) ls ->
  fold_left (fun w l => if String.eqb (l_event l) event then run_handler later h l a w else w)
    ls w = w.
Proof.
  intros H. revert w. induction H as [|l ls Hl Hls IH]; intros w; simpl; [reflexivity|].
  apply String.eqb_neq in Hl. rewrite Hl. apply IH.
Qed.

Lemma emit_denied_qr (cfg : Config) (h : handle) (a : EventArgs) (ls : list Listener)
    (w : World) :
  In "qr" (disabledCallbacks cfg) -> Forall (allowed_listener cfg) ls ->
  trace (fold_left (fun w l => if String.eqb (l_event l) "qr" then run_handler cfg h l a w else w)
           ls w) = trace w.
Proof.
  intros Hin H. revert w. induction H as [|l ls Hl Hls IH]; intros w; simpl; [reflexivity|].
  rewrite IH. destruct (String.eqb (l_event l) "qr") eqn:E; [|reflexivity].
  apply String.eqb_eq in E. destruct Hl as [[_ Hh]|[Hne _]]; [|contradiction].
  unfold run_handler. rewrite Hh. unfold checkIfEventisEnabled.
  apply includes_In in Hin. now rewrite Hin.
Qed.

Lemma client_listeners_allowed (cfg : Config) (w : World) (h : handle) :
  gate_kept cfg w -> Forall (allowed_listener cfg) (default [] (listeners <$> client_at w h)).
Proof.
  intros [H _]. unfold client_at. destruct (heap w !! h) as [c|] eqn:E; simpl; [|constructor].
  eapply Forall_lookup_1 in H; [exact H|exact E].
Qed.

(** C7, as amended.  Take any run of the process from its start, and an
    event name that the deny-list holds.  If the event is not the
    pairing-code event ["qr"], no client ever has a listener for it, so
    when the driver emits it nothing happens at all, whatever the
    configuration says by then: the gate was consulted once, when the
    session subscribed.  The ["qr"] listener is attached whatever the
    deny-list says (it stores the pairing code) and consults the gate
    each time the event occurs.  In both cases the emission of a denied
    event dispatches no webhook. *)
Theorem denied_event_never_dispatched (cfg : Config) (driver : Driver) (fs : FS)
    (actions : list Action) (event : string) :
  In event (disabledCallbacks cfg) ->
  let w := perform_all cfg driver actions (boot fs) in
  (event <> "qr" ->
     (forall h c l, client_at w h = Some c -> In l (listeners c) -> l_event l <> event) /\
     (forall later h a, client_emit later h event a w = w)) /\
  (forall h a, trace (client_emit cfg h event a w) = trace w).
Proof.
  intros Hin w.
  assert (Hgate : gate_kept cfg w) by apply gate_kept_perform_all, gate_kept_boot.
  assert (Hother : event <> "qr" -> forall h,
            Forall (fun l => l_event l <> event) (default [] (listeners <$> client_at w h))).
  { intros Hne h. eapply Forall_impl; [apply client_listeners_allowed, Hgate|].
    intros l Hl. simpl. eapply allowed_listener_other; eassumption. }
  split.
  - intros Hne. split.
    + intros h c l Hc Hl. specialize (Hother Hne h). rewrite Hc in Hother. simpl in Hother.
      rewrite Forall_forall in Hother. apply Hother. now apply list_elem_of_In.
    + intros later h a. unfold client_emit. apply emit_without_listener, Hother, Hne.
  - intros h a. destruct (String.eqb event "qr") eqn:E.
    + apply String.eqb_eq in E. subst event. unfold client_emit.
      apply emit_denied_qr; [exact Hin|apply client_listeners_allowed, Hgate].
    + apply String.eqb_neq in E. unfold client_emit.
      now rewrite (emit_without_listener cfg h event a _ w (Hother E h)).
Qed.

(** C7 at work: with ["message"] denied, tenant ["a"] is started, its
    client launches, and a message arrives. *)
Lemma denied_message_example :
  let cfg := Example.config ["message"] false in
  let w := perform_all cfg Example.driver
             [CallSetup "a"; TimePasses; TimePasses; TimePasses; TimePasses]
             (boot (Example.disk [] [] [])) in
  client_emit cfg 0%nat "message" (plain_args "") w = w /\
  trace (client_emit cfg 0%nat "ready" (plain_args "") w) =
  (trace w ++ [EvWebhook "http://localhost:3000/localCallbackExample" "a" "ready"])%list.
Proof.
  intros cfg w. split; [|vm_compute; reflexivity].
  assert (Hin : In "message" (disabledCallbacks cfg)) by (left; reflexivity).
  assert (Hne : "message" <> "qr") by discriminate.
  exact (proj2 (proj1 (denied_event_never_dispatched cfg Example.driver
                         (Example.disk [] [] [])
                         [CallSetup "a"; TimePasses; TimePasses; TimePasses; TimePasses]
                         "message" Hin) Hne) cfg 0%nat (plain_args "")).
Defined.

(** C7 as stated fails for the pairing-code event: with ["qr"] in the
    deny-list at the start of tenant ["a"], a listener for ["qr"] is
    attached to the client all the same, and it consults the gate when
    the event occurs: under a deny-list emptied later the same listener
    dispatches the webhook. *)
Lemma qr_listener_attached_when_denied :
  let cfg := Example.config ["qr"] false in
  let later := Example.config [] false in
  let w := perform cfg Example.driver (CallSetup "a") (boot (Example.disk [] [] [])) in
  In "qr" (disabledCallbacks cfg) /\
  (exists c l, client_at w 0%nat = Some c /\ In l (listeners c) /\ l_event l = "qr") /\
  trace (client_emit later 0%nat "qr" (plain_args "2@abc") w) =
  (trace w ++ [EvWebhook "http://localhost:3000/localCallbackExample" "a" "qr"])%list.
Proof.
  intros cfg later w. split; [left; reflexivity|]. split; [|vm_compute; reflexivity].
  eexists _, _. split; [vm_compute; reflexivity|]. split; [left; reflexivity|reflexivity].
Qed.

(** ** Crash recovery *)

(** One signal of a crashed page, with [recoverSessions] on: one restart,
    and the Registry holds a new handle. *)
Lemma page_error_restarts_once :
  let cfg := Example.config [] true in
  let w := perform_all cfg Example.driver
             [CallSetup "a"; TimePasses; TimePasses; TimePasses; TimePasses]
             (boot (Example.disk [] [] [])) in
  let w' := perform_all cfg Example.driver [PageEmits 0%nat SigError; DestroySettles] w in
  sessions w !! "a" = Some 0%nat /\
  constructed "a" (trace w') = [0%nat; 1%nat] /\
  sessions w' !! "a" = Some 1%nat.
Proof. intros cfg w w'. repeat split; vm_compute; reflexivity. Qed.

(** Both signals, the second while the destroy of the first restart is
    still pending: [restartSession] runs twice and the client is destroyed
    twice; the second [setupSession] finds the entry of the first and is
    rejected. *)
Lemma page_crash_during_destroy :
  let cfg := Example.config [] true in
  let w := perform_all cfg Example.driver
             [CallSetup "a"; TimePasses; TimePasses; TimePasses; TimePasses]
             (boot (Example.disk [] [] [])) in
  let w' := perform_all cfg Example.driver
              [PageEmits 0%nat SigError; PageEmits 0%nat SigClose;
               DestroySettles; DestroySettles] w in
  trace w' =
    (trace w ++ [EvDestroy 0%nat; EvDestroy 0%nat; EvConstruct 1%nat "a";
                 EvInitialize 1%nat])%list /\
  sessions w' !! "a" = Some 1%nat.
Proof. intros cfg w w'. repeat split; vm_compute; reflexivity. Qed.

(** C8.  The claim is that one page crash, with [recoverSessions] on,
    restarts the session exactly once even when both the close and the
    error signal fire.  The code does not do that: the two one-shot
    listeners are independent and [restartSession] detaches neither, so
    when the crashed page of tenant ["a"] emits [error] and, after the
    first restart is through, [close], the session is restarted twice:
    the client is destroyed twice, two clients are constructed, and the
    one from the first restart is dropped from the Registry while it
    runs on. *)
Theorem page_crash_restarts_twice :
  let cfg := Example.config [] true in
  let w := perform_all cfg Example.driver
             [CallSetup "a"; TimePasses; TimePasses; TimePasses; TimePasses]
             (boot (Example.disk [] [] [])) in
  let w' := perform_all cfg Example.driver
              [PageEmits 0%nat SigError; DestroySettles;
               PageEmits 0%nat SigClose; DestroySettles] w in
  page_of w 0%nat = Some {| once_listeners := [(SigClose, "a"); (SigError, "a")] |} /\
  trace w' =
    (trace w ++ [EvDestroy 0%nat; EvConstruct 1%nat "a"; EvInitialize 1%nat;
                 EvDestroy 0%nat; EvConstruct 2%nat "a"; EvInitialize 2%nat])%list /\
  constructed "a" (trace w') = [0%nat; 1%nat; 2%nat] /\
  sessions w' !! "a" = Some 2%nat.
Proof. intros cfg w w'. repeat split; vm_compute; reflexivity. Qed.

(** * Further properties of the code *)

(** ** Directory names and tenant ids *)

Lemma prefix_split (p s : string) :
  String.prefix p s = true -> exists r, s = p +:+ r.
Proof.
  revert s. induction p as [|c p IH]; intros s H; simpl in *.
  - now exists s.
  - destruct s as [|d s]; [discriminate|]. simpl in H.
    destruct (ascii_dec c d) as [->|]; [|discriminate].
    destruct (IH s H) as [r ->]. now exists r.
Qed.

Lemma prefix_app (p r : string) : String.prefix p (p +:+ r) = true.
Proof.
  induction p as [|c p IH]; simpl; [now destruct r|].
  destruct (ascii_dec c c); [exact IH|congruence].
Qed.

Lemma substring_all (s : string) : String.substring 0 (String.length s) s = s.
Proof. induction s as [|c s IH]; simpl; [reflexivity|now rewrite IH]. Qed.

Lemma substring_after (p r : string) :
  String.substring (String.length p) (String.length (p +:+ r) - String.length p) (p +:+ r) = r.
Proof.
  induction p as [|c p IH]; simpl.
  - rewrite Nat.sub_0_r. apply substring_all.
  - exact IH.
Qed.

Lemma match_session_spec (file sessionId : string) :
  match_session file = Some sessionId <->
  file = "session-" +:+ sessionId /\ sessionId <> "" /\ no_line_terminator sessionId = true.
Proof.
  unfold match_session, startsWith. split.
  - intros H. destruct (String.prefix "session-" file) eqn:Hp; [|discriminate].
    apply prefix_split in Hp as [r ->].
    change 8%nat with (String.length "session-") in H.
    rewrite substring_after in H. simpl in H.
    destruct (String.eqb r "") eqn:Er; [discriminate|]. simpl in H.
    destruct (no_line_terminator r) eqn:Et; [|discriminate].
    injection H as <-. apply String.eqb_neq in Er. auto.
  - intros (-> & Hne & Ht). rewrite prefix_app.
    change 8%nat with (String.length "session-").
    rewrite substring_after. apply String.eqb_neq in Hne. rewrite Hne, Ht. reflexivity.
Qed.

Lemma starts_line_terminator_spec (l : list ascii) :
  starts_line_terminator l = true <->
  exists t post, In t line_terminators /\ l = (t ++ post)%list.
Proof.
  split.
  - destruct l as [|c r]; [discriminate|]. cbn [starts_line_terminator]. intros H.
    apply orb_prop in H as [H|H]; [apply orb_prop in H as [H|H]|].
    + apply Ascii.eqb_eq in H as ->. exists ["010"%char], r. split; [now left|reflexivity].
    + apply Ascii.eqb_eq in H as ->. exists ["013"%char], r.
      split; [right; now left|reflexivity].
    + destruct r as [|b [|d r]]; try discriminate.
      apply andb_prop in H as [H Hd]. apply andb_prop in H as [Hc Hb].
      apply Ascii.eqb_eq in Hc as ->. apply Ascii.eqb_eq in Hb as ->.
      apply orb_prop in Hd as [Hd|Hd]; apply Ascii.eqb_eq in Hd as ->.
      * exists ["226"; "128"; "168"]%char, r. split; [right; right; now left|reflexivity].
      * exists ["226"; "128"; "169"]%char, r.
        split; [right; right; right; now left|reflexivity].
  - intros (t & post & Hin & ->). simpl in Hin.
    destruct Hin as [<-|[<-|[<-|[<-|[]]]]]; reflexivity.
Qed.

Lemma free_of_line_terminators_spec (l : list ascii) :
  free_of_line_terminators l = true <->
  ~ exists t pre post, In t line_terminators /\ l = (pre ++ t ++ post)%list.
Proof.
  induction l as [|c r IH].
  - split; [|reflexivity]. intros _ (t & pre & post & Hin & E).
    destruct pre; [|discriminate]. simpl in Hin.
    destruct Hin as [<-|[<-|[<-|[<-|[]]]]]; discriminate.
  - cbn [free_of_line_terminators]. rewrite andb_true_iff, negb_true_iff, IH. split.
    + intros [Hs Hr] (t & pre & post & Hin & E). destruct pre as [|x pre].
      * assert (starts_line_terminator (c :: r) = true)
          by (apply starts_line_terminator_spec; exists t, post; auto).
        congruence.
      * apply Hr. exists t, pre, post. split; [exact Hin|]. now injection E.
    + intros Hno. split.
      * destruct (starts_line_terminator (c :: r)) eqn:Hs; [|reflexivity].
        apply starts_line_terminator_spec in Hs as (t & post & Hin & E).
        exfalso. apply Hno. exists t, [], post. auto.
      * intros (t & pre & post & Hin & E). apply Hno.
        exists t, (c :: pre), post. split; [exact Hin|]. now rewrite E.
Qed.

(** X1.  The pattern [/^session-(.+)$/] of [restoreSessions] and
    [flushSessions] matches a file name exactly when the name is
    ["session-"] followed by a non-empty rest that holds no line
    terminator (LF, CR, U+2028, U+2029), and the tenant id it captures is
    that rest. *)
Theorem match_session_iff (file sessionId : string) :
  match_session file = Some sessionId <->
  file = "session-" +:+ sessionId /\ sessionId <> "" /\ ~ holds_line_terminator sessionId.
Proof.
  rewrite match_session_spec. unfold no_line_terminator, holds_line_terminator.
  now rewrite free_of_line_terminators_spec.
Qed.

Lemma name_char_plain (c : ascii) :
  Middleware.word_char c || Ascii.eqb c "-" = true ->
  (Ascii.eqb c "010" || Ascii.eqb c "013" || Ascii.eqb c "226")%char = false /\
  c <> "/"%char /\ c <> "\"%char /\ c <> "."%char.
Proof.
  destruct c as [[] [] [] [] [] [] [] []]; vm_compute; intros H;
    first [discriminate H | repeat split; discriminate].
Qed.

Lemma plain_bytes_free (l : list ascii) :
  (forall c, In c l ->
     (Ascii.eqb c "010" || Ascii.eqb c "013" || Ascii.eqb c "226")%char = false) ->
  free_of_line_terminators l = true.
Proof.
  induction l as [|c l IH]; intros H; [reflexivity|].
  cbn [free_of_line_terminators]. rewrite IH by (intros x Hx; apply H; now right).
  specialize (H c (or_introl eq_refl)).
  apply orb_false_elim in H as [H H226]. apply orb_false_elim in H as [Hlf Hcr].
  unfold starts_line_terminator. rewrite Hlf, Hcr, H226.
  now destruct l as [|b [|d r]].
Qed.

(** X2.  A tenant id that [sessionNameValidation] lets through names a
    credential directory [session-<id>] that the pattern of
    [restoreSessions] and [flushSessions] maps back to the same id, and
    the id has no path separator and no dot in it. *)
Theorem accepted_name_round_trip (sessionId : string) :
  Middleware.sessionNameValidation sessionId = Next ->
  match_session ("session-" +:+ sessionId) = Some sessionId /\
  Forall (fun c => c <> "/"%char /\ c <> "\"%char /\ c <> "."%char)
    (list_ascii_of_string sessionId).
Proof.
  unfold Middleware.sessionNameValidation, Middleware.name_test. intros H.
  destruct (String.eqb sessionId "") eqn:Ee; [discriminate|]. simpl in H.
  destruct (forallb _ _) eqn:Ef; [|discriminate]. clear H.
  rewrite forallb_forall in Ef. split.
  - apply match_session_spec. split; [reflexivity|]. split; [now apply String.eqb_neq|].
    unfold no_line_terminator. apply plain_bytes_free. intros c Hc.
    apply (name_char_plain c), Ef, Hc.
  - apply Forall_forall. intros c Hc. apply list_elem_of_In in Hc.
    apply (name_char_plain c), Ef, Hc.
Qed.

(** X2 at work: tenant ["tenant-4"]. *)
Lemma accepted_name_example :
  match_session "session-tenant-4" = Some "tenant-4".
Proof. exact (proj1 (accepted_name_round_trip "tenant-4" eq_refl)). Defined.

(** ** The deny-list of the configuration *)

Lemma split_not_nil (sep : ascii) (s : string) : split sep s <> [].
Proof.
  destruct s as [|c r]; simpl; [discriminate|].
  destruct (Ascii.eqb c sep); [discriminate|]. now destruct (split sep r).
Qed.

Lemma concat_head (sep : string) (c : ascii) (x : string) (xs : list string) :
  String.concat sep (String c x :: xs) = String c (String.concat sep (x :: xs)).
Proof. now destruct xs. Qed.

Lemma concat_more (sep x y : string) (ys : list string) :
  String.concat sep (x :: y :: ys) = x +:+ sep +:+ String.concat sep (y :: ys).
Proof. reflexivity. Qed.

Lemma concat_split (sep : ascii) (s : string) :
  String.concat (String sep "") (split sep s) = s.
Proof.
  induction s as [|c r IH]; simpl; [reflexivity|].
  destruct (Ascii.eqb c sep) eqn:E.
  - apply Ascii.eqb_eq in E. subst c.
    pose proof (split_not_nil sep r) as Hne.
    destruct (split sep r) as [|y ys]; [contradiction|].
    rewrite concat_more, IH. reflexivity.
  - pose proof (split_not_nil sep r) as Hne.
    destruct (split sep r) as [|y ys]; [contradiction|].
    rewrite concat_head, IH. reflexivity.
Qed.

Lemma split_free_app (sep : ascii) (x rest : string) :
  ~ In sep (list_ascii_of_string x) ->
  split sep (x +:+ String sep rest) = x :: split sep rest.
Proof.
  induction x as [|c x IH]; intros Hfree; simpl.
  - now rewrite Ascii.eqb_refl.
  - destruct (Ascii.eqb c sep) eqn:E.
    + apply Ascii.eqb_eq in E. subst c. exfalso. apply Hfree. now left.
    + rewrite IH; [reflexivity|]. intros H. apply Hfree. now right.
Qed.

Lemma split_free (sep : ascii) (x : string) :
  ~ In sep (list_ascii_of_string x) -> split sep x = [x].
Proof.
  induction x as [|c x IH]; intros Hfree; simpl; [reflexivity|].
  destruct (Ascii.eqb c sep) eqn:E.
  - apply Ascii.eqb_eq in E. subst c. exfalso. apply Hfree. now left.
  - rewrite IH; [reflexivity|]. intros H. apply Hfree. now right.
Qed.

Lemma split_concat (sep : ascii) (l : list string) :
  l <> [] -> Forall (fun x => ~ In sep (list_ascii_of_string x)) l ->
  split sep (String.concat (String sep "") l) = l.
Proof.
  induction l as [|x l IH]; intros Hne Hfree; [contradiction|].
  apply Forall_cons in Hfree as [Hx Hl].
  destruct l as [|y l]; [now apply split_free|].
  rewrite concat_more. change (String sep "" +:+ ?z) with (String sep z).
  rewrite split_free_app by exact Hx. now rewrite IH.
Qed.

(** X3.  The deny-list is read from [DISABLED_CALLBACKS] by splitting at
    ["|"]: joining the list with ["|"] gives the variable back, and a
    non-empty list of event names without ["|"], written joined by ["|"],
    is read back as that list; an unset or empty variable gives the empty
    deny-list. *)
Theorem disabledCallbacks_round_trip :
  (forall s, s <> "" -> String.concat "|" (disabledCallbacks_of (Some s)) = s) /\
  (forall names,
     names <> [] -> Forall (fun x => ~ In "|"%char (list_ascii_of_string x)) names ->
     String.concat "|" names <> "" ->
     disabledCallbacks_of (Some (String.concat "|" names)) = names) /\
  disabledCallbacks_of None = [] /\ disabledCallbacks_of (Some "") = [].
Proof.
  split; [|split; [|split; reflexivity]].
  - intros s Hs. unfold disabledCallbacks_of, truthy.
    apply String.eqb_neq in Hs. rewrite Hs. simpl. apply concat_split.
  - intros names Hne Hfree Hs. unfold disabledCallbacks_of, truthy.
    apply String.eqb_neq in Hs. rewrite Hs. simpl. now apply split_concat.
Qed.

(** X3 at work: two event names. *)
Lemma disabledCallbacks_example :
  disabledCallbacks_of (Some "message_ack|message_reaction") =
  ["message_ack"; "message_reaction"].
Proof.
  apply (proj1 (proj2 disabledCallbacks_round_trip) ["message_ack"; "message_reaction"]).
  - discriminate.
  - repeat constructor; vm_compute; intuition discriminate.
  - discriminate.
Defined.

(** ** The middleware *)

Lemma truthy_Some (s : string) : truthy (Some s) = true <-> s <> "".
Proof.
  unfold truthy. destruct (String.eqb s "") eqn:E; simpl.
  - apply String.eqb_eq in E. split; congruence.
  - apply String.eqb_neq in E. split; auto.
Qed.

(** X4.  [apikey]: when an API key is configured, a request goes on
    exactly when its [x-api-key] header is that key, and is answered 403
    otherwise; when no key is configured (unset or empty), every request
    goes on, whatever its header. *)
Theorem apikey_verdict (globalApiKey header : option string) :
  (truthy globalApiKey = true ->
     (Middleware.apikey globalApiKey header = Next <-> header = globalApiKey) /\
     (header <> globalApiKey ->
        Middleware.apikey globalApiKey header =
        Reply (sendErrorResponse 403 (JsonError "Invalid API key")))) /\
  (truthy globalApiKey = false -> Middleware.apikey globalApiKey header = Next).
Proof.
  unfold Middleware.apikey. split; intros Hk; rewrite Hk; [|reflexivity].
  split; [split|].
  - destruct (truthy header); simpl; [|discriminate].
    case_bool_decide; simpl; [auto|discriminate].
  - intros ->. rewrite Hk. simpl. now rewrite bool_decide_true.
  - intros Hne. destruct (truthy header); simpl; [|reflexivity].
    now rewrite bool_decide_false.
Qed.

(** X4 at work: the key of the test suite. *)
Lemma apikey_example :
  Middleware.apikey (Some "test_api_key") (Some "test_api_key") = Next /\
  Middleware.apikey (Some "test_api_key") None =
  Reply (sendErrorResponse 403 (JsonError "Invalid API key")).
Proof.
  destruct (proj1 (apikey_verdict (Some "test_api_key") (Some "test_api_key")) eq_refl)
    as [Hok _].
  destruct (proj1 (apikey_verdict (Some "test_api_key") None) eq_refl) as [_ Hko].
  split; [now apply Hok|apply Hko; discriminate].
Defined.

(** ** The bounded wait *)

Lemma iter_tick_shift (n : nat) (w : World) : Nat.iter n tick (tick w) = Nat.iter (S n) tick w.
Proof. induction n as [|n IH]; [reflexivity|]. simpl. now rewrite IH. Qed.

Lemma waitForNestedObject_run (more : nat) (h : handle) (w : World) :
  match waitForNestedObject more h w with
  | (Normal _, w') =>
      exists k, (k <= more)%nat /\ w' = Nat.iter k tick w /\ is_Some (page_of w' h) /\
                forall j, (j < k)%nat -> page_of (Nat.iter j tick w) h = None
  | (Throw e, w') =>
      e = JsError "Timeout waiting for nested object" None /\
      w' = Nat.iter more tick w /\
      forall j, (j <= more)%nat -> page_of (Nat.iter j tick w) h = None
  end.
Proof.
  revert w. induction more as [|more IH]; intros w; cbn [waitForNestedObject].
  - destruct (page_of w h) as [p|] eqn:E.
    + exists 0%nat. repeat split; [lia|rewrite E; eauto|intros j Hj; lia].
    + repeat split. intros j Hj. now replace j with 0%nat by lia.
  - destruct (page_of w h) as [p|] eqn:E.
    + exists 0%nat. repeat split; [lia|rewrite E; eauto|intros j Hj; lia].
    + specialize (IH (tick w)).
      destruct (waitForNestedObject more h (tick w)) as [[[]|e] w'].
      * destruct IH as (k & Hk & -> & Hp & Hn). exists (S k).
        split; [lia|]. split; [apply iter_tick_shift|]. split; [exact Hp|].
        intros [|j] Hj; [exact E|]. rewrite <- iter_tick_shift. apply Hn. lia.
      * destruct IH as (-> & -> & Hn). split; [reflexivity|].
        split; [apply iter_tick_shift|].
        intros [|j] Hj; [exact E|]. rewrite <- iter_tick_shift. apply Hn. lia.
Qed.

Lemma wait_polls_least (late n : nat) :
  (wait_polls late <= n)%nat <->
  Z.of_nat n * (interval + Z.of_nat late) > maxWaitTime.
Proof.
  unfold wait_polls, maxWaitTime, interval.
  set (d := 100 + Z.of_nat late).
  assert (Hd : 0 < d) by (subst d; lia).
  pose proof (Z.div_mod 10000 d ltac:(lia)) as Hdiv.
  pose proof (Z.mod_pos_bound 10000 d Hd) as Hmod.
  assert (Hq : 0 <= 10000 / d) by (apply Z.div_pos; lia).
  split; intros H.
  - assert (10000 / d < Z.of_nat n) by lia. nia.
  - assert (10000 / d < Z.of_nat n) by nia. lia.
Qed.

Lemma wait_polls_bounds (late : nat) : (1 <= wait_polls late <= 101)%nat.
Proof.
  split; [unfold wait_polls; lia|].
  apply wait_polls_least. unfold maxWaitTime, interval. lia.
Qed.

(** X5.  [waitForNestedObject(client, 'pupPage')] with its defaults (10 s,
    every 100 ms) returns as soon as a check finds the page, none of its
    earlier checks having seen it.  Otherwise it throws the time-out
    error at the first check that reads more than [maxWaitTime] on the
    clock, the page absent at every check: that is after the least number
    of intervals [n] with [n * (interval + latency) > maxWaitTime], which
    is 101 when the timers fire on time, 100 when they are a millisecond
    late, and always between 1 and 101. *)
Theorem waitForNestedObject_bounded (h : handle) (w : World) :
  let polls := wait_polls (latency w) in
  (forall n, (polls <= n)%nat <->
             Z.of_nat n * (interval + Z.of_nat (latency w)) > maxWaitTime) /\
  (1 <= polls <= 101)%nat /\
  match waitForNestedObject polls h w with
  | (Normal _, w') =>
      exists k, (k <= polls)%nat /\ w' = Nat.iter k tick w /\ is_Some (page_of w' h) /\
                forall j, (j < k)%nat -> page_of (Nat.iter j tick w) h = None
  | (Throw e, w') =>
      e = JsError "Timeout waiting for nested object" None /\
      w' = Nat.iter polls tick w /\
      forall j, (j <= polls)%nat -> page_of (Nat.iter j tick w) h = None
  end.
Proof.
  intros polls. split; [intros n; apply wait_polls_least|].
  split; [apply wait_polls_bounds|]. exact (waitForNestedObject_run polls h w).
Qed.

(** ** Properties that every run keeps *)

Create HintDb stable.

Section StableRuns.

Variable cfg : Config.
Variable driver : Driver.
Variable I : World -> Prop.
Hypothesis HS : Stable cfg driver I.

Lemma keeps_delete sessionId w : keeps I w (set_sessions (delete sessionId) w).
Proof. intros H. now apply (st_delete _ _ _ HS). Qed.

Lemma keeps_observe e w : plain_event e -> keeps I w (observe e w).
Proof. intros He H. now apply (st_observe _ _ _ HS). Qed.

Lemma keeps_kill h w : keeps I w (observe (EvKill h) w).
Proof. now apply keeps_observe. Qed.

Lemma keeps_update h f w : listener_neutral f -> keeps I w (update_client h f w).
Proof. intros Hf H. now apply (st_update _ _ _ HS). Qed.

Lemma keeps_tick w : keeps I w (tick w).
Proof. intros H. now apply (st_tick _ _ _ HS). Qed.

Lemma keeps_iter_tick n w : keeps I w (Nat.iter n tick w).
Proof. apply respects_iter; [typeclasses eauto|apply keeps_tick]. Qed.

Lemma keeps_removeAllListeners h w : keeps I w (removeAllListeners h w).
Proof. apply keeps_update. intros c. now destruct (pupPage c). Qed.

Lemma keeps_request_close h w : keeps I w (request_close h w).
Proof. apply keeps_update. intros c. now destruct (pupBrowser c). Qed.

Lemma keeps_await_disconnected more h w : keeps I w (await_disconnected more h w).
Proof.
  revert w. induction more as [|more IH]; intros w; cbn [await_disconnected];
    destruct (browser_isConnected w h); try reflexivity.
  transitivity (Nat.iter 10 tick w); [apply keeps_iter_tick|apply IH].
Qed.

Lemma keeps_waitForNestedObject more h : respects (keeps I) (waitForNestedObject more h).
Proof.
  intros w. revert w. induction more as [|more IH]; intros w; simpl.
  - destruct (page_of w h); reflexivity.
  - destruct (page_of w h); [reflexivity|].
    transitivity (tick w); [apply keeps_tick|apply IH].
Qed.

Lemma keeps_driver_call h e result :
  plain_event e -> respects (keeps I) (driver_call h e result).
Proof.
  intros He w. unfold driver_call.
  destruct (script_of (observe e w) h) as [s|]; [|now apply keeps_observe].
  destruct (result s) as [[]|err]; [|now apply keeps_observe].
  transitivity (observe e w); [now apply keeps_observe|apply keeps_request_close].
Qed.

Lemma keeps_client_logout h : respects (keeps I) (client_logout h).
Proof. now apply keeps_driver_call. Qed.

Lemma keeps_client_destroy h : respects (keeps I) (client_destroy h).
Proof. now apply keeps_driver_call. Qed.

Lemma keeps_browser_close_all h : respects (keeps I) (browser_close_all h).
Proof. now apply keeps_driver_call. Qed.

Lemma keeps_unlink p : respects (keeps I) (unlink cfg p).
Proof.
  intros w H. unfold unlink. cbv zeta.
  assert (H1 : I (observe (EvUnlink p) w)) by now apply (st_observe _ _ _ HS).
  destruct (busy (files (observe (EvUnlink p) w)) !! p) as [[|code later]|]; simpl;
    repeat (match goal with |- context [if ?b then _ else _] => destruct b end; simpl);
    first [exact H1 | now apply (st_files _ _ _ HS)].
Qed.

Lemma keeps_rmdir p : respects (keeps I) (rmdir cfg p).
Proof.
  intros w H. unfold rmdir. cbv zeta.
  assert (H1 : I (observe (EvRmdir p) w)) by now apply (st_observe _ _ _ HS).
  destruct (dirs (files (observe (EvRmdir p) w)) !! p) as [[|x entries]|]; simpl;
    first [exact H1 | now apply (st_files _ _ _ HS)].
Qed.

Lemma keeps_pure {A} (m : M A) : (forall w, snd (m w) = w) -> respects (keeps I) m.
Proof. apply respects_pure. typeclasses eauto. Qed.

#[local] Hint Resolve keeps_delete keeps_kill keeps_tick keeps_iter_tick
  keeps_removeAllListeners keeps_request_close keeps_await_disconnected
  keeps_waitForNestedObject keeps_client_logout keeps_client_destroy
  keeps_browser_close_all keeps_unlink keeps_rmdir : stable.

Ltac respects_stable :=
  repeat first
    [ respects_step
    | solve [eauto with stable]
    | apply keeps_pure; solve [eauto with gate] ].

Lemma keeps_validateSession sessionId : respects (keeps I) (validateSession sessionId).
Proof. unfold validateSession. respects_stable. Qed.

Lemma keeps_deleteSessionFolder sessionId :
  respects (keeps I) (deleteSessionFolder cfg sessionId).
Proof. unfold deleteSessionFolder, unlink_with_retry, sleep. respects_stable. Qed.

#[local] Hint Resolve keeps_validateSession keeps_deleteSessionFolder : stable.

Lemma keeps_deleteSession sessionId v : respects (keeps I) (deleteSession cfg sessionId v).
Proof. unfold deleteSession. respects_stable. Qed.

#[local] Hint Resolve keeps_deleteSession : stable.

Lemma keeps_flushSessions b : respects (keeps I) (flushSessions cfg b).
Proof. unfold flushSessions, flush_file. respects_stable. Qed.

Lemma keeps_setupSession sessionId : respects (keeps I) (setupSession cfg driver sessionId).
Proof.
  intros w H. destruct (sessions w !! sessionId) as [h|] eqn:Hreg.
  - now rewrite (setupSession_existing _ _ _ _ _ Hreg).
  - rewrite (setupSession_fresh _ _ _ _ Hreg).
    destruct (LocalAuth_new driver sessionId (sessionFolderPath cfg)) as [[]|e]; [|exact H].
    destruct (Client_new driver (length (heap w)) (clientOptions_for cfg sessionId)) as [s|e];
      [|exact H].
    now apply (st_started _ _ _ HS).
Qed.

#[local] Hint Resolve keeps_setupSession : stable.

Lemma keeps_reloadSession sessionId : respects (keeps I) (reloadSession cfg driver sessionId).
Proof. unfold reloadSession. respects_stable. Qed.

Lemma keeps_restartSession h sessionId w : keeps I w (restartSession h sessionId w).
Proof.
  unfold restartSession. cbv zeta. intros H.
  apply (st_restarting _ _ _ HS).
  apply (respects_try_catch (keeps I) (client_destroy h) (fun _ => ret tt));
    [apply keeps_client_destroy|intros e; apply respects_ret; typeclasses eauto|].
  now apply keeps_delete.
Qed.

Lemma keeps_restartSession_resume w : keeps I w (restartSession_resume cfg driver w).
Proof.
  unfold restartSession_resume. destruct (restarting w) as [|sessionId later]; [reflexivity|].
  intros H. apply keeps_setupSession. now apply (st_restarting _ _ _ HS).
Qed.

Lemma keeps_page_emit h sig w : keeps I w (page_emit h sig w).
Proof.
  unfold page_emit. destruct (page_of w h) as [p|]; [|reflexivity]. cbv zeta.
  set (kept := List.filter (fun l => negb (signal_eqb (fst l) sig)) (once_listeners p)).
  transitivity (update_client h (with_pupPage (Some {| once_listeners := kept |})) w);
    [apply keeps_update; auto with gate|].
  generalize (List.filter (fun l => signal_eqb (fst l) sig) (once_listeners p)). intros fired.
  generalize (update_client h (with_pupPage (Some {| once_listeners := kept |})) w).
  induction fired as [|l fired IH]; intros w'; simpl; [reflexivity|].
  etransitivity; [apply keeps_restartSession|apply IH].
Qed.

Lemma stable_perform a w : I w -> I (perform cfg driver a w).
Proof.
  intros H. unfold perform. apply (st_drain _ _ _ HS).
  destruct a as [sessionId|sessionId|sessionId|sessionId v|b|h event a|h sig| | |h s|fs|late].
  - now apply keeps_setupSession.
  - now apply keeps_validateSession.
  - now apply keeps_reloadSession.
  - now apply keeps_deleteSession.
  - now apply keeps_flushSessions.
  - now apply (st_emit _ _ _ HS).
  - now apply keeps_page_emit.
  - now apply keeps_restartSession_resume.
  - now apply keeps_tick.
  - apply (st_update _ _ _ HS); auto with gate.
  - now apply (st_files _ _ _ HS).
  - now apply (st_latency _ _ _ HS).
Qed.

Lemma stable_perform_all l w : I w -> I (perform_all cfg driver l w).
Proof.
  unfold perform_all. revert w. induction l as [|a l IH]; intros w H; simpl; [exact H|].
  apply IH, stable_perform, H.
Qed.

End StableRuns.

(** *** What a start, the reactions and an event do to the state *)

Lemma subscribe_all_fields cfg h wh sessionId (l : list (string * Handler)) (w : World) :
  let w' := fold_left (fun w eh => subscribe_gated cfg h wh sessionId eh w) l w in
  sessions w' = sessions w /\ heap w' = heap w /\ files w' = files w /\
  restarting w' = restarting w /\ trace w' = trace w /\
  microtasks w' = (microtasks w ++ subscriptions cfg h wh sessionId l)%list.
Proof.
  revert w. induction l as [|eh l IH]; intros w; simpl.
  - now rewrite app_nil_r.
  - destruct (IH (subscribe_gated cfg h wh sessionId eh w)) as (-> & -> & -> & -> & -> & ->).
    unfold subscribe_gated, subscriptions. simpl.
    destruct (checkIfEventisEnabled cfg (fst eh)); simpl; repeat split; auto.
    now rewrite <- app_assoc.
Qed.

Lemma started_fields (cfg : Config) (driver : Driver) (sessionId : string) (s : Script)
    (w : World) :
  let h := length (heap w) in
  let wh := sessionWebhook_of cfg sessionId in
  let w' := started cfg driver sessionId s w in
  sessions w' = <[sessionId := h]> (sessions w) /\
  (exists c, heap w' = (heap w ++ [c])%list /\
             listeners c = [listener_for wh sessionId ("qr", OnQr)] /\ qr c = None /\
             pupPage c = None) /\
  microtasks w' = (microtasks w ++ subscriptions cfg h wh sessionId gated_before_qr
                   ++ subscriptions cfg h wh sessionId gated_after_qr)%list /\
  trace w' = (trace w ++ [EvConstruct h sessionId; EvInitialize h])%list /\
  restarting w' = restarting w.
Proof.
  intros h wh w'. subst w'. unfold started, initializeEvents. cbv zeta.
  fold h. fold (sessionWebhook_of cfg sessionId). fold wh.
  generalize gated_before_qr, gated_after_qr. intros before_qr after_qr.
  set (o := clientOptions_for cfg sessionId).
  set (base := set_files _ _).
  set (w0 := if recoverSessions cfg then _ else _).
  assert (H0 : sessions w0 = sessions w /\
               (exists c, heap w0 = (heap w ++ [c])%list /\ listeners c = [] /\ qr c = None /\
                          pupPage c = None) /\
               microtasks w0 = microtasks w /\
               trace w0 = (trace w ++ [EvConstruct h sessionId; EvInitialize h])%list /\
               restarting w0 = restarting w).
  { assert (Hb : sessions base = sessions w /\
                 (exists c, heap base = (heap w ++ [c])%list /\ listeners c = [] /\
                            qr c = None /\ pupPage c = None) /\
                 microtasks base = microtasks w /\
                 trace base = (trace w ++ [EvConstruct h sessionId; EvInitialize h])%list /\
                 restarting base = restarting w).
    { subst base. simpl. rewrite <- app_assoc. repeat split; eauto 10. }
    subst w0. destruct (recoverSessions cfg); [|exact Hb].
    unfold start_recovery_wait, page_of, client_at. subst base. simpl.
    rewrite lookup_app_r by (subst h; lia).
    replace (h - length (heap w))%nat with 0%nat by (subst h; lia). simpl.
    rewrite <- app_assoc.
    split; [reflexivity|]. split; [|repeat split; reflexivity].
    eexists. split.
    { subst h. rewrite <- (Nat.add_0_r (length (heap w))) at 1.
      rewrite alter_app_r. reflexivity. }
    repeat split; reflexivity. }
  destruct H0 as (Hs0 & (c0 & Hh0 & Hl0 & Hq0 & Hp0) & Hm0 & Ht0 & Hr0).
  destruct (subscribe_all_fields cfg h wh sessionId before_qr w0)
    as (Hs1 & Hh1 & _ & Hr1 & Ht1 & Hm1).
  set (w1 := fold_left _ before_qr w0) in *.
  set (w2 := client_on h _ w1).
  destruct (subscribe_all_fields cfg h wh sessionId after_qr w2)
    as (Hs2 & Hh2 & _ & Hr2 & Ht2 & Hm2).
  cbv zeta in *. simpl. rewrite Hs2, Hh2, Hm2, Ht2, Hr2.
  subst w2. simpl. rewrite Hs1, Hh1, Hm1, Ht1, Hr1, Hs0, Hh0, Hm0, Ht0, Hr0.
  repeat split; [|now rewrite <- app_assoc].
  eexists. split.
  - subst h. rewrite <- (Nat.add_0_r (length (heap w))) at 1.
    rewrite alter_app_r. reflexivity.
  - simpl. rewrite Hl0. auto.
Qed.

Lemma run_tasks_fields (tasks : list Task) (w : World) :
  let w' := fold_left (fun w t => run_task t w) tasks w in
  sessions w' = sessions w /\ length (heap w') = length (heap w) /\ files w' = files w /\
  restarting w' = restarting w /\ trace w' = trace w /\ microtasks w' = microtasks w.
Proof.
  revert w. induction tasks as [|t tasks IH]; intros w; simpl; [auto 10|].
  destruct (IH (run_task t w)) as (-> & -> & -> & -> & -> & ->).
  destruct t; simpl; rewrite length_alter; auto 10.
Qed.

Lemma drain_fields (w : World) :
  sessions (drain w) = sessions w /\ length (heap (drain w)) = length (heap w) /\
  files (drain w) = files w /\ restarting (drain w) = restarting w /\
  trace (drain w) = trace w /\ microtasks (drain w) = [].
Proof.
  unfold drain.
  destruct (run_tasks_fields (microtasks w) (set_microtasks (fun _ => []) w))
    as (-> & -> & -> & -> & -> & ->). auto 10.
Qed.

Lemma run_handler_fields (cfg : Config) (h : handle) (l : Listener) (a : EventArgs) (w : World) :
  let w' := run_handler cfg h l a w in
  sessions w' = sessions w /\ files w' = files w /\ restarting w' = restarting w /\
  microtasks w' = microtasks w /\
  (heap w' = heap w \/ heap w' = alter (with_qr (Some (arg_qr a))) h (heap w)).
Proof.
  unfold run_handler, forward, mark_seen, triggerWebhook.
  destruct (l_handler l); simpl;
    repeat (match goal with |- context [match ?x with _ => _ end] => destruct x end; simpl);
    auto 10.
Qed.

Lemma client_emit_fields (cfg : Config) (h : handle) (event : string) (a : EventArgs) (w : World) :
  let w' := client_emit cfg h event a w in
  sessions w' = sessions w /\ files w' = files w /\ restarting w' = restarting w /\
  microtasks w' = microtasks w /\
  (heap w' = heap w \/ heap w' = alter (with_qr (Some (arg_qr a))) h (heap w)).
Proof.
  unfold client_emit. generalize (default [] (listeners <$> client_at w h)). intros ls.
  revert w. induction ls as [|l ls IH]; intros w; cbn [fold_left]; [auto 10|].
  set (w1 := if String.eqb (l_event l) event then run_handler cfg h l a w else w).
  assert (H1 : sessions w1 = sessions w /\ files w1 = files w /\
               restarting w1 = restarting w /\ microtasks w1 = microtasks w /\
               (heap w1 = heap w \/ heap w1 = alter (with_qr (Some (arg_qr a))) h (heap w))).
  { subst w1. destruct (String.eqb (l_event l) event); [|auto 10].
    apply run_handler_fields. }
  destruct H1 as (Hs1 & Hf1 & Hr1 & Hm1 & Hh1).
  destruct (IH w1) as (-> & -> & -> & -> & Hh).
  rewrite Hs1, Hf1, Hr1, Hm1. repeat split; auto.
  destruct Hh as [->| ->]; [exact Hh1|]. right.
  destruct Hh1 as [->| ->]; [reflexivity|].
  rewrite list_alter_alter_eq. now apply list_alter_ext.
Qed.

(** ** The Registry over the lifetime of the process *)

Lemma registry_sound_stable (cfg : Config) (driver : Driver) : Stable cfg driver registry_sound.
Proof.
  split.
  - intros sessionId w [H1 H2]. split; simpl.
    + intros id h. rewrite lookup_delete_Some. intros [_ H]. eauto.
    + intros id1 id2 h. rewrite !lookup_delete_Some. intros [_ Ha] [_ Hb]. eauto.
  - intros f w H. exact H.
  - intros f w H. exact H.
  - intros late w H. exact H.
  - intros e w _ H. exact H.
  - intros h f w _ [H1 H2]. split; [|exact H2]. simpl. intros id h'.
    rewrite length_alter. apply H1.
  - intros w [H1 H2]. split; [|exact H2]. simpl. intros id h'.
    rewrite length_map. apply H1.
  - intros sessionId s w _ [H1 H2].
    destruct (started_fields cfg driver sessionId s w) as (Hs & (c & Hh & _) & _).
    cbv zeta in Hs. split.
    + intros id h. rewrite Hs, Hh, length_app. simpl.
      rewrite lookup_insert_Some. intros [[_ <-]|[_ H]]; [lia|]. apply H1 in H. lia.
    + intros id1 id2 h. rewrite Hs, !lookup_insert_Some.
      intros [[<- <-]|[Hn1 Ha]] [[<- Hb]|[Hn2 Hb]]; auto.
      * apply H1 in Hb. lia.
      * apply H1 in Ha. lia.
      * eauto.
  - intros w [H1 H2].
    destruct (drain_fields w) as (Hs & Hl & _). unfold registry_sound. rewrite Hs, Hl. auto.
  - intros h event a w [H1 H2].
    destruct (client_emit_fields cfg h event a w) as (Hs & _ & _ & _ & Hh).
    cbv zeta in *. unfold registry_sound. rewrite Hs.
    destruct Hh as [->| ->]; [|rewrite length_alter]; auto.
Qed.

Lemma registry_sound_boot (fs : FS) : registry_sound (boot fs).
Proof. split; simpl; intros *; rewrite lookup_empty; discriminate. Qed.

(** X6.  In every state that the process reaches from its start, a
    Registry entry holds a client that was constructed (its handle is on
    the heap), and no other tenant id holds the same client. *)
Theorem registry_entries_live (cfg : Config) (driver : Driver) (fs : FS)
    (actions : list Action) (sessionId : string) (h : handle) :
  let w := perform_all cfg driver actions (boot fs) in
  sessions w !! sessionId = Some h ->
  is_Some (client_at w h) /\
  (forall other, sessions w !! other = Some h -> other = sessionId).
Proof.
  intros w Hreg.
  destruct (stable_perform_all cfg driver _ (registry_sound_stable cfg driver) actions (boot fs)
              (registry_sound_boot fs)) as [H1 H2].
  fold w in H1, H2. split.
  - apply lookup_lt_is_Some. eapply H1, Hreg.
  - intros other Ho. eapply H2; eassumption.
Qed.

(** X6 at work: two tenants, one of them reloaded. *)
Lemma registry_entries_example :
  let w := perform_all (Example.config [] true) Example.driver
             [CallSetup "a"; CallSetup "b"; TimePasses; CallReload "a"]
             (boot (Example.disk [] [] [])) in
  sessions w !! "b" = Some 1%nat /\
  is_Some (client_at w 1%nat) /\
  (forall other, sessions w !! other = Some 1%nat -> other = "b").
Proof.
  intros w. assert (H : sessions w !! "b" = Some 1%nat) by (vm_compute; reflexivity).
  split; [exact H|].
  exact (registry_entries_live (Example.config [] true) Example.driver (Example.disk [] [] [])
           [CallSetup "a"; CallSetup "b"; TimePasses; CallReload "a"] "b" 1%nat H).
Defined.

(** ** The listeners and the effects over the lifetime of the process *)

Section Wired.

Variable cfg : Config.
Variable driver : Driver.
Variable PC : list Listener -> Prop.
Variable PL : Listener -> Prop.
Variable PE : Event -> Prop.

Hypothesis Hplain : forall e, plain_event e -> PE e.
Hypothesis Hqr : forall sessionId,
  PC [listener_for (sessionWebhook_of cfg sessionId) sessionId ("qr", OnQr)].
Hypothesis Hsub : forall sessionId eh,
  In eh (gated_before_qr ++ gated_after_qr) ->
  PL (listener_for (sessionWebhook_of cfg sessionId) sessionId eh).
Hypothesis Happ : forall ls l, PC ls -> PL l -> PC (ls ++ [l]).
Hypothesis Hrun : forall h l a w ls,
  PC ls -> In l ls -> Forall PE (trace w) -> Forall PE (trace (run_handler cfg h l a w)).

Lemma subscriptions_wired h sessionId (l : list (string * Handler)) :
  (forall eh, In eh l -> PL (listener_for (sessionWebhook_of cfg sessionId) sessionId eh)) ->
  Forall (fun t => match t with ThenAttach _ l => PL l | ThenRecover _ _ => True end)
    (subscriptions cfg h (sessionWebhook_of cfg sessionId) sessionId l).
Proof.
  induction l as [|eh l IH]; intros H; [constructor|].
  unfold subscriptions. cbn [omap list_omap].
  destruct (checkIfEventisEnabled cfg (fst eh)).
  - constructor; [apply H; now left|]. apply IH. intros eh' Hin. apply H. now right.
  - apply IH. intros eh' Hin. apply H. now right.
  - apply IH. intros eh' Hin. apply H. now right.
Qed.

Lemma run_tasks_wired (tasks : list Task) (w : World) :
  Forall (fun t => match t with ThenAttach _ l => PL l | ThenRecover _ _ => True end) tasks ->
  Forall (fun c => PC (listeners c)) (heap w) ->
  Forall (fun c => PC (listeners c)) (heap (fold_left (fun w t => run_task t w) tasks w)).
Proof.
  intros Ht. revert w. induction Ht as [|t tasks Ht Hts IH]; intros w H; [exact H|].
  cbn [fold_left]. apply IH. destruct t as [h l|h sessionId]; simpl.
  - apply Forall_alter; [exact H|]. intros c _ Hc. simpl. now apply Happ.
  - apply Forall_alter; [exact H|]. intros c _ Hc. now rewrite neutral_attach_recovery.
Qed.

Lemma emit_wired (h : handle) (event : string) (a : EventArgs) (all ls : list Listener)
    (w : World) :
  PC all -> (forall l, In l ls -> In l all) -> Forall PE (trace w) ->
  Forall PE (trace (fold_left
    (fun w l => if String.eqb (l_event l) event then run_handler cfg h l a w else w) ls w)).
Proof.
  intros Hall. revert w. induction ls as [|l ls IH]; intros w Hin H; [exact H|].
  cbn [fold_left]. apply IH; [intros l' Hl'; apply Hin; now right|].
  destruct (String.eqb (l_event l) event); [|exact H].
  eapply Hrun; [exact Hall| |exact H]. apply Hin. now left.
Qed.

Lemma wired_stable : Stable cfg driver (wired PC PL PE).
Proof.
  split.
  - intros sessionId w H. exact H.
  - intros f w H. exact H.
  - intros f w H. exact H.
  - intros late w H. exact H.
  - intros e w He (H1 & H2 & H3). split; [exact H1|]. split; [exact H2|]. simpl.
    apply Forall_app. split; [exact H3|]. apply Forall_singleton. now apply Hplain.
  - intros h f w Hf (H1 & H2 & H3). split; [|split; assumption]. simpl.
    apply Forall_alter; [exact H1|]. intros c _ Hc. now rewrite Hf.
  - intros w (H1 & H2 & H3). split; [|split; assumption]. simpl.
    apply List.Forall_map. eapply Forall_impl; [exact H1|].
    intros c Hc. simpl. now rewrite neutral_poll_progress, neutral_driver_progress.
  - intros sessionId s w _ (H1 & H2 & H3).
    destruct (started_fields cfg driver sessionId s w)
      as (_ & (c & Hh & Hl & _) & Hm & Ht & _).
    cbv zeta in *. unfold wired. rewrite Hh, Hm, Ht. split; [|split].
    + apply Forall_app. split; [exact H1|]. apply Forall_singleton. rewrite Hl. apply Hqr.
    + apply Forall_app. split; [exact H2|]. apply Forall_app.
      split; apply subscriptions_wired; intros eh Hin; apply Hsub, in_or_app; auto.
    + apply Forall_app. split; [exact H3|].
      apply Forall_cons. split; [now apply Hplain|].
      apply Forall_singleton. now apply Hplain.
  - intros w (H1 & H2 & H3).
    destruct (drain_fields w) as (_ & _ & _ & _ & Ht & Hm).
    unfold wired. rewrite Ht, Hm. split; [|split; [constructor|exact H3]].
    unfold drain. now apply run_tasks_wired.
  - intros h event a w (H1 & H2 & H3).
    destruct (client_emit_fields cfg h event a w) as (_ & _ & _ & Hm & Hh).
    cbv zeta in *. unfold wired. rewrite Hm. split; [|split; [exact H2|]].
    + destruct Hh as [->| ->]; [exact H1|].
      apply Forall_alter; [exact H1|]. intros c _ Hc. exact Hc.
    + unfold client_emit, client_at. destruct (heap w !! h) as [c|] eqn:E; [|exact H3].
      simpl. eapply emit_wired; [|intros l Hl; exact Hl|exact H3].
      eapply (Forall_lookup_1 _ _ _ _ H1 E).
Qed.

Lemma wired_boot (fs : FS) : wired PC PL PE (boot fs).
Proof. repeat split; constructor. Qed.

Lemma wired_always (fs : FS) (actions : list Action) :
  wired PC PL PE (perform_all cfg driver actions (boot fs)).
Proof. apply (stable_perform_all cfg driver _ wired_stable), wired_boot. Qed.

End Wired.

(** *** What a listener posts *)

Lemma enabled_not_In (cfg : Config) (event : string) (u : unit) :
  checkIfEventisEnabled cfg event = Resolved u -> ~ In event (disabledCallbacks cfg).
Proof.
  unfold checkIfEventisEnabled.
  destruct (includes (disabledCallbacks cfg) event) eqn:E; simpl; [discriminate|].
  intros _. now apply includes_not_In.
Qed.

Lemma forward_sends (PE : Event -> Prop) (l : Listener) (dataType : string) (w : World) :
  (forall url, l_webhook l = Some url -> url <> "" -> PE (EvWebhook url (l_session l) dataType)) ->
  Forall PE (trace w) -> Forall PE (trace (forward l dataType w)).
Proof.
  intros Hsend H. unfold forward. destruct (l_webhook l) as [url|]; [|exact H].
  destruct (truthy (Some url)) eqn:E; [|exact H]. simpl.
  apply Forall_app. split; [exact H|]. apply Forall_singleton. apply Hsend; [reflexivity|].
  intros ->. discriminate E.
Qed.

Lemma mark_seen_sends (PE : Event -> Prop) (cfg : Config) (h : handle) (a : EventArgs)
    (w : World) :
  (setMessagesAsSeen cfg = true -> PE (EvSendSeen h)) ->
  Forall PE (trace w) -> Forall PE (trace (mark_seen cfg h a w)).
Proof.
  intros Hseen H. unfold mark_seen. destruct (setMessagesAsSeen cfg); [|exact H].
  destruct (getChat a); [|exact H]. simpl.
  apply Forall_app. split; [exact H|]. apply Forall_singleton. now apply Hseen.
Qed.

Lemma run_handler_sends (PE : Event -> Prop) (cfg : Config) (h : handle) (l : Listener)
    (a : EventArgs) (w : World) :
  (forall url dataType, l_webhook l = Some url -> url <> "" -> may_send cfg l dataType ->
     PE (EvWebhook url (l_session l) dataType)) ->
  (setMessagesAsSeen cfg = true -> PE (EvSendSeen h)) ->
  Forall PE (trace w) -> Forall PE (trace (run_handler cfg h l a w)).
Proof.
  intros Hsend Hseen H. unfold run_handler, may_send in *.
  destruct (l_handler l) as [d|d| |].
  - apply forward_sends; [|exact H]. intros url Hu Hne. now apply Hsend.
  - apply mark_seen_sends; [exact Hseen|].
    apply forward_sends; [|exact H]. intros url Hu Hne. now apply Hsend.
  - cbv zeta.
    assert (H1 : Forall PE (trace (mark_seen cfg h a (forward l "message" w)))).
    { apply mark_seen_sends; [exact Hseen|].
      apply forward_sends; [|exact H]. intros url Hu Hne. apply Hsend; auto. }
    destruct (hasMedia a && _); [|exact H1].
    destruct (checkIfEventisEnabled cfg "media") as [u| |] eqn:E; try exact H1.
    destruct (downloadMedia a); [|exact H1].
    apply forward_sends; [|exact H1]. intros url Hu Hne. apply Hsend; auto.
    right. split; [reflexivity|]. eapply enabled_not_In, E.
  - cbv zeta.
    destruct (checkIfEventisEnabled cfg "qr") as [u| |] eqn:E; try exact H.
    apply forward_sends; [|exact H]. intros url Hu Hne. apply Hsend; auto.
    split; [reflexivity|]. eapply enabled_not_In, E.
Qed.

Lemma Forall_snoc_intro {A} (P : A -> Prop) (l : list A) (x : A) :
  Forall P l -> P x -> Forall P (l ++ [x]).
Proof. intros Hl Hx. apply Forall_app. split; [exact Hl|now apply Forall_singleton]. Qed.

(** X7.  Every webhook that the process ever posts for a session goes
    to the URL that [initializeEvents] computes for that session id: the
    variable of the environment named by [sessionId.toUpperCase()]
    followed by [_WEBHOOK_URL] when it is set and not empty, the base URL
    otherwise; and that URL is not empty.  (Two ids with the same upper
    case, such as ["a"] and ["A"], read the same variable.) *)
Theorem webhook_goes_to_session_url (cfg : Config) (driver : Driver) (fs : FS)
    (actions : list Action) (url sessionId dataType : string) :
  In (EvWebhook url sessionId dataType) (trace (perform_all cfg driver actions (boot fs))) ->
  url <> "" /\
  Some url = js_or (process_env cfg (toUpperCase cfg sessionId +:+ "_WEBHOOK_URL"))
               (baseWebhookURL cfg).
Proof.
  intros Hin.
  assert (H : wired (Forall (own_webhook cfg)) (own_webhook cfg) (routed cfg)
                (perform_all cfg driver actions (boot fs))).
  { apply wired_always.
    - now intros [].
    - intros sid. now apply Forall_singleton.
    - now intros sid eh _.
    - intros ls l. apply Forall_snoc_intro.
    - intros h l a w ls Hls Hl. apply run_handler_sends; [|now intros _].
      intros u dt Hu Hne _. split; [|exact Hne].
      rewrite Forall_forall in Hls. apply list_elem_of_In in Hl.
      unfold own_webhook in Hls. now rewrite <- Hls, Hu. }
  destruct H as (_ & _ & H). rewrite Forall_forall in H.
  apply list_elem_of_In, H in Hin. destruct Hin as [E Hne]. split; [exact Hne|].
  symmetry. exact E.
Qed.

(** X7 at work: tenant ["a"] has a URL of its own, tenant ["b"] has none. *)
Lemma webhook_override_example :
  let cfg :=
    {| sessionFolderPath := "/srv/sessions";
       baseWebhookURL := Some "http://localhost:3000/localCallbackExample";
       maxAttachmentSize := 10000000; setMessagesAsSeen := false; disabledCallbacks := [];
       webVersion := None; webVersionCacheType := "none"; recoverSessions := false;
       process_env := fun name =>
         if String.eqb name "A_WEBHOOK_URL" then Some "http://a.example/hook" else None;
       path_sep := "/"; path_join := Example.posix_join;
       toUpperCase := ascii_toUpperCase; toLowerCase := ascii_toLowerCase |} in
  let w := perform_all cfg Example.driver
             [CallSetup "a"; CallSetup "b"; ClientEmits 0%nat "ready" (plain_args "");
              ClientEmits 1%nat "ready" (plain_args "")]
             (boot (Example.disk [] [] [])) in
  In (EvWebhook "http://a.example/hook" "a" "ready") (trace w) /\
  Some "http://a.example/hook" =
    js_or (process_env cfg (toUpperCase cfg "a" +:+ "_WEBHOOK_URL")) (baseWebhookURL cfg).
Proof.
  intros cfg w.
  assert (Hin : In (EvWebhook "http://a.example/hook" "a" "ready") (trace w))
    by (vm_compute; tauto).
  split; [exact Hin|].
  exact (proj2 (webhook_goes_to_session_url cfg Example.driver (Example.disk [] [] []) _ _ _ _
                  Hin)).
Defined.

(** X8.  With ["media"] in the deny-list no webhook of data type
    ["media"] is ever posted: the message listener forwards no
    attachment, whatever the messages carry. *)
Theorem denied_media_never_posted (cfg : Config) (driver : Driver) (fs : FS)
    (actions : list Action) (url sessionId : string) :
  In "media" (disabledCallbacks cfg) ->
  ~ In (EvWebhook url sessionId "media") (trace (perform_all cfg driver actions (boot fs))).
Proof.
  intros Hdeny Hin.
  assert (H : wired (Forall (silent_on "media")) (silent_on "media") (not_webhook_of "media")
                (perform_all cfg driver actions (boot fs))).
  { apply wired_always.
    - now intros [].
    - intros sid. now apply Forall_singleton.
    - intros sid eh Heh. unfold silent_on. simpl in *.
      repeat (destruct Heh as [<-|Heh]; [simpl; first [discriminate|exact I]|]). destruct Heh.
    - intros ls l. apply Forall_snoc_intro.
    - intros h l a w ls Hls Hl. apply run_handler_sends; [|now intros _].
      intros u dt _ _ Hdt. simpl. intros ->.
      rewrite Forall_forall in Hls. apply list_elem_of_In, Hls in Hl.
      unfold silent_on, may_send in *.
      destruct (l_handler l); [congruence|congruence| |].
      + destruct Hdt as [Hdt|[_ Hdt]]; [discriminate|contradiction].
      + destruct Hdt as [Hdt _]. discriminate. }
  destruct H as (_ & _ & H). rewrite Forall_forall in H.
  apply list_elem_of_In, H in Hin. now apply Hin.
Qed.

(** X8 at work: a message with a small attachment. *)
Lemma denied_media_example :
  let cfg := Example.config ["media"] false in
  let picture := {| arg_qr := ""; hasMedia := true; data_size := Some 2048;
                    downloadMedia := Normal tt; getChat := Normal tt |} in
  let w := perform_all cfg Example.driver [CallSetup "a"; ClientEmits 0%nat "message" picture]
             (boot (Example.disk [] [] [])) in
  trace w = [EvConstruct 0%nat "a"; EvInitialize 0%nat;
             EvWebhook "http://localhost:3000/localCallbackExample" "a" "message"] /\
  ~ In (EvWebhook "http://localhost:3000/localCallbackExample" "a" "media") (trace w).
Proof.
  intros cfg picture w. split; [vm_compute; reflexivity|].
  assert (Hdeny : In "media" (disabledCallbacks cfg)) by (simpl; tauto).
  exact (denied_media_never_posted cfg Example.driver (Example.disk [] [] [])
           [CallSetup "a"; ClientEmits 0%nat "message" picture]
           "http://localhost:3000/localCallbackExample" "a" Hdeny).
Defined.

(** X9.  With [setMessagesAsSeen] off, no run of the process ever marks
    a chat as seen. *)
Theorem no_read_receipt_unless_configured (cfg : Config) (driver : Driver) (fs : FS)
    (actions : list Action) (h : handle) :
  setMessagesAsSeen cfg = false ->
  ~ In (EvSendSeen h) (trace (perform_all cfg driver actions (boot fs))).
Proof.
  intros Hoff Hin.
  assert (H : wired (fun _ => True) (fun _ => True) not_sendSeen
                (perform_all cfg driver actions (boot fs))).
  { apply wired_always; auto.
    - now intros [].
    - intros h' l a w ls _ _. apply run_handler_sends; [now intros|].
      rewrite Hoff. discriminate. }
  destruct H as (_ & _ & H). rewrite Forall_forall in H.
  apply list_elem_of_In, H in Hin. exact Hin.
Qed.

(** X9 at work: a message arrives. *)
Lemma no_read_receipt_example :
  let cfg := Example.config [] false in
  let w := perform_all cfg Example.driver
             [CallSetup "a"; ClientEmits 0%nat "message" (plain_args "")]
             (boot (Example.disk [] [] [])) in
  setMessagesAsSeen cfg = false /\ ~ In (EvSendSeen 0%nat) (trace w).
Proof.
  intros cfg w. split; [reflexivity|].
  exact (no_read_receipt_unless_configured cfg Example.driver (Example.disk [] [] [])
           [CallSetup "a"; ClientEmits 0%nat "message" (plain_args "")] 0%nat eq_refl).
Defined.

(** ** The pairing code *)

Lemma qr_listener_always (cfg : Config) (driver : Driver) (fs : FS) (actions : list Action) :
  Forall (fun c => has_qr_listener (listeners c))
    (heap (perform_all cfg driver actions (boot fs))).
Proof.
  apply (wired_always cfg driver has_qr_listener (fun _ => True) (fun _ => True)); auto.
  - intros sid. eexists. split; [now left|]. split; reflexivity.
  - intros ls l (q & Hq & Hqr) _. exists q. split; [|exact Hqr].
    apply in_or_app. now left.
  - intros h l a w ls _ _ _. apply Forall_forall. auto.
Qed.

Lemma run_handler_keeps_qr (cfg : Config) (h : handle) (l : Listener) (a : EventArgs)
    (w : World) :
  qr <$> client_at w h = Some (Some (arg_qr a)) ->
  qr <$> client_at (run_handler cfg h l a w) h = Some (Some (arg_qr a)).
Proof.
  intros H. unfold client_at in *.
  destruct (run_handler_fields cfg h l a w) as (_ & _ & _ & _ & [->| ->]); [exact H|].
  rewrite list_lookup_alter_eq. destruct (heap w !! h); [reflexivity|discriminate].
Qed.

Lemma emit_keeps_qr (cfg : Config) (h : handle) (event : string) (a : EventArgs)
    (ls : list Listener) (w : World) :
  qr <$> client_at w h = Some (Some (arg_qr a)) ->
  qr <$> client_at (fold_left
    (fun w l => if String.eqb (l_event l) event then run_handler cfg h l a w else w) ls w) h =
  Some (Some (arg_qr a)).
Proof.
  revert w. induction ls as [|l ls IH]; intros w H; [exact H|].
  cbn [fold_left]. apply IH. destruct (String.eqb (l_event l) event); [|exact H].
  now apply run_handler_keeps_qr.
Qed.

Lemma emit_stores_qr (cfg : Config) (h : handle) (a : EventArgs) (ls : list Listener)
    (w : World) :
  is_Some (client_at w h) -> has_qr_listener ls ->
  qr <$> client_at (fold_left
    (fun w l => if String.eqb (l_event l) "qr" then run_handler cfg h l a w else w) ls w) h =
  Some (Some (arg_qr a)).
Proof.
  revert w. induction ls as [|l ls IH]; intros w Hc (q & Hin & He & Hh); [destruct Hin|].
  cbn [fold_left]. destruct Hin as [->|Hin].
  - rewrite He. cbn [String.eqb]. apply emit_keeps_qr.
    unfold run_handler. rewrite Hh. cbv zeta.
    assert (Hq : qr <$> client_at (update_client h (with_qr (Some (arg_qr a))) w) h =
                 Some (Some (arg_qr a))).
    { unfold client_at in *. simpl. rewrite list_lookup_alter_eq.
      destruct Hc as [c ->]. reflexivity. }
    destruct (checkIfEventisEnabled cfg "qr"); [|exact Hq|exact Hq].
    unfold forward. destruct (l_webhook q) as [url|]; [|exact Hq].
    destruct (truthy (Some url)); exact Hq.
  - apply IH; [|exists q; auto].
    destruct (String.eqb (l_event l) "qr"); [|exact Hc].
    unfold client_at in *.
    destruct (run_handler_fields cfg h l a w) as (_ & _ & _ & _ & [->| ->]); [exact Hc|].
    rewrite list_lookup_alter_eq. destruct Hc as [c ->]. simpl. eauto.
Qed.

Lemma run_tasks_keep_qr (tasks : list Task) (h : handle) (w : World) :
  qr <$> client_at (fold_left (fun w t => run_task t w) tasks w) h = qr <$> client_at w h.
Proof.
  revert w. induction tasks as [|t tasks IH]; intros w; [reflexivity|].
  cbn [fold_left]. rewrite IH. unfold client_at.
  assert (Hq : forall f k, (forall c : Client, qr (f c) = qr c) ->
            qr <$> alter f k (heap w) !! h = qr <$> heap w !! h).
  { intros f k Hf. destruct (decide (k = h)) as [->|Hne].
    - rewrite list_lookup_alter_eq. destruct (heap w !! h); simpl; [now rewrite Hf|reflexivity].
    - now rewrite list_lookup_alter_ne. }
  destruct t as [k l|k sessionId]; simpl; apply Hq; intros c; [reflexivity|].
  unfold attach_recovery. now destruct (pupPage c).
Qed.

(** X10.  The pairing code comes back.  In any state that the process
    reaches, when the driver emits [qr] with a non-empty code on the
    client of a registered tenant, [sessionQrCode] for that tenant answers
    200 with that code, whatever the deny-list holds: the [qr] listener is
    attached unconditionally and stores the code before it consults the
    gate. *)
Theorem pairing_code_round_trip (cfg : Config) (driver : Driver) (fs : FS)
    (actions : list Action) (sessionId : string) (h : handle) (a : EventArgs) :
  let w := perform_all cfg driver actions (boot fs) in
  sessions w !! sessionId = Some h -> arg_qr a <> "" ->
  let w' := perform cfg driver (ClientEmits h "qr" a) w in
  SessionController.sessionQrCode sessionId w' = (Normal (res_json (JsonQr (arg_qr a))), w').
Proof.
  intros w Hreg Hcode w'.
  destruct (stable_perform_all cfg driver _ (registry_sound_stable cfg driver) actions (boot fs)
              (registry_sound_boot fs)) as [Hlive _].
  fold w in Hlive. pose proof (Hlive _ _ Hreg) as Hc.
  apply lookup_lt_is_Some in Hc. destruct Hc as [c Hc].
  pose proof (qr_listener_always cfg driver fs actions) as Hqr. fold w in Hqr.
  eapply Forall_lookup_1 in Hqr; [|exact Hc].
  assert (Hs : sessions w' = sessions w).
  { subst w'. unfold perform.
    destruct (drain_fields (client_emit cfg h "qr" a w)) as (-> & _).
    apply client_emit_fields. }
  assert (Hq : qr <$> client_at w' h = Some (Some (arg_qr a))).
  { subst w'. unfold perform, drain. rewrite run_tasks_keep_qr.
    change (qr <$> client_at (client_emit cfg h "qr" a w) h = Some (Some (arg_qr a))).
    unfold client_emit.
    replace (default [] (listeners <$> client_at w h)) with (listeners c)
      by (unfold client_at; now rewrite Hc).
    apply emit_stores_qr; [|exact Hqr]. unfold client_at. rewrite Hc. eauto. }
  unfold SessionController.sessionQrCode, try_catch, bind, get. rewrite Hs, Hreg. simpl.
  destruct (client_at w' h) as [c'|]; [|discriminate]. simpl in *.
  injection Hq as ->. apply String.eqb_neq in Hcode. rewrite Hcode. reflexivity.
Qed.

(** X10 at work: ["qr"] is denied, and the code is served all the same. *)
Lemma pairing_code_example :
  let cfg := Example.config ["qr"] false in
  let w := perform_all cfg Example.driver [CallSetup "a"; TimePasses]
             (boot (Example.disk [] [] [])) in
  let w' := perform cfg Example.driver (ClientEmits 0%nat "qr" (plain_args "2@abc")) w in
  sessions w !! "a" = Some 0%nat /\
  SessionController.sessionQrCode "a" w' = (Normal (res_json (JsonQr "2@abc")), w').
Proof.
  intros cfg w w'.
  assert (Hreg : sessions w !! "a" = Some 0%nat) by (vm_compute; reflexivity).
  assert (Hcode : arg_qr (plain_args "2@abc") <> "") by discriminate.
  split; [exact Hreg|].
  exact (pairing_code_round_trip cfg Example.driver (Example.disk [] [] [])
           [CallSetup "a"; TimePasses] "a" 0%nat (plain_args "2@abc") Hreg Hcode).
Defined.

(** ** The session controller on a session that does not launch *)

Lemma wait_in_vain_run (more : nat) (w : World) :
  SessionController.wait_in_vain more w =
  (Throw (JsError "Timeout waiting for nested object" None), Nat.iter more tick w).
Proof.
  revert w. induction more as [|more IH]; intros w; [reflexivity|].
  cbn [SessionController.wait_in_vain]. rewrite IH. now rewrite iter_tick_shift.
Qed.

(** X11.  [startSession] for a new tenant whose driver objects can be
    constructed never answers 200.  [setupSession] returns no [client],
    so the handler waits for [pupPage] on an empty object; when the wait
    times out, after at least one and at most 101 timer intervals, it
    answers 500 with the time-out message, and the session it started
    stays in the Registry. *)
Theorem startSession_times_out (cfg : Config) (driver : Driver) (sessionId : string)
    (s : Script) (w : World) :
  sessions w !! sessionId = None ->
  LocalAuth_new driver sessionId (sessionFolderPath cfg) = Normal tt ->
  Client_new driver (length (heap w)) (clientOptions_for cfg sessionId) = Normal s ->
  exists k, (1 <= k <= 101)%nat /\
    let w' := Nat.iter k tick (drain (started cfg driver sessionId s w)) in
    SessionController.startSession cfg driver sessionId w =
      (Normal (sendErrorResponse 500 (JsonError "Timeout waiting for nested object")), w') /\
    sessions w' !! sessionId = Some (length (heap w)).
Proof.
  intros Hfresh Hauth Hnew.
  exists (wait_polls (latency (drain (started cfg driver sessionId s w)))).
  split; [apply wait_polls_bounds|]. intros w'. split.
  - unfold SessionController.startSession, try_catch at 1.
    rewrite (bind_normal _ _ w (started cfg driver sessionId s w) initiated)
      by (rewrite (setupSession_fresh _ _ _ _ Hfresh), Hauth, Hnew; reflexivity).
    cbn [success initiated negb client]. unfold bind at 1. cbn [modify].
    unfold try_catch, bind, SessionController.waitForNestedObject_root.
    rewrite wait_in_vain_run. reflexivity.
  - subst w'. rewrite iter_tick_sessions.
    destruct (drain_fields (started cfg driver sessionId s w)) as (-> & _).
    destruct (started_fields cfg driver sessionId s w) as (-> & _).
    apply lookup_insert_eq.
Qed.

(** X11 at work: the first tenant of a fresh process. *)
Lemma startSession_example :
  let cfg := Example.config [] false in
  let w := boot (Example.disk [] [] []) in
  fst (SessionController.startSession cfg Example.driver "a" w) =
    Normal (sendErrorResponse 500 (JsonError "Timeout waiting for nested object")) /\
  sessions (snd (SessionController.startSession cfg Example.driver "a" w)) !! "a" = Some 0%nat.
Proof.
  intros cfg w.
  destruct (startSession_times_out cfg Example.driver "a"
              (Example.script_with (Some "OPENING")) w (lookup_empty _) eq_refl eq_refl)
    as (k & _ & Hrun & Hreg).
  rewrite Hrun. split; [reflexivity|exact Hreg].
Defined.

Lemma tick_never_launches (h : handle) (w : World) :
  (exists c, client_at w h = Some c /\ never_launches c) ->
  exists c, client_at (tick w) h = Some c /\ never_launches c.
Proof.
  intros (c & Hc & Hp & Hl). unfold client_at, tick in *. simpl.
  rewrite list_lookup_fmap, Hc. simpl. eexists. split; [reflexivity|].
  assert (H1 : never_launches (driver_progress c)).
  { unfold never_launches, driver_progress. rewrite Hl.
    destruct (pupBrowser c) as [[[[|n]|]]|]; simpl; auto. }
  destruct H1 as [Hp1 Hl1]. unfold never_launches, poll_progress.
  destruct (polling (driver_progress c)) as [[[|more] sid]|]; rewrite ?Hp1; simpl; auto.
Qed.

Lemma iter_tick_never_launches (n : nat) (h : handle) (w : World) :
  (exists c, client_at w h = Some c /\ never_launches c) ->
  exists c, client_at (Nat.iter n tick w) h = Some c /\ never_launches c.
Proof.
  intros H. induction n as [|n IH]; [exact H|]. cbn [Nat.iter]. now apply tick_never_launches.
Qed.

Lemma never_launches_no_page (h : handle) (w : World) :
  (exists c, client_at w h = Some c /\ never_launches c) -> page_of w h = None.
Proof. intros (c & Hc & Hp & _). unfold page_of. now rewrite Hc. Qed.

Lemma validateSession_never_launches (sessionId : string) (h : handle) (w : World) :
  sessions w !! sessionId = Some h ->
  (exists c, client_at w h = Some c /\ never_launches c) ->
  validateSession sessionId w =
  (Normal {| success := false; message := "Timeout waiting for nested object";
             state := None; client := None |}, Nat.iter (wait_polls (latency w)) tick w).
Proof.
  intros Hreg Hc. unfold validateSession, bind at 1, get. rewrite Hreg.
  pose proof (waitForNestedObject_run (wait_polls (latency w)) h w) as Hrun.
  destruct (waitForNestedObject (wait_polls (latency w)) h w) as [[[]|e] w1] eqn:E.
  - destruct Hrun as (k & _ & -> & [p Hp] & _).
    rewrite (never_launches_no_page h _ (iter_tick_never_launches k h w Hc)) in Hp.
    discriminate.
  - destruct Hrun as (-> & -> & _).
    rewrite (try_catch_throw _ _ w (Nat.iter (wait_polls (latency w)) tick w)
               (JsError "Timeout waiting for nested object" None)); [reflexivity|].
    now rewrite (bind_throw _ _ w (Nat.iter (wait_polls (latency w)) tick w)
                   (JsError "Timeout waiting for nested object" None)).
Qed.

(** X12.  A stalled session, one whose client has no page and whose
    launch is over: [terminateSession] answers ['Logged out successfully']
    and [restartSession] answers ['Restarted successfully'], both after
    the validation has timed out (at least one and at most 101 timer
    intervals), and neither does anything: the Registry, the files and
    the trace are as before. *)
Theorem stalled_session_reported_done (cfg : Config) (driver : Driver) (sessionId : string)
    (h : handle) (c : Client) (w : World) :
  sessions w !! sessionId = Some h -> client_at w h = Some c ->
  pupPage c = None -> launch (script c) = None ->
  exists k, (1 <= k <= 101)%nat /\
    let w' := Nat.iter k tick w in
    SessionController.terminateSession cfg sessionId w =
      (Normal (res_json (JsonMessage true "Logged out successfully")), w') /\
    SessionController.restartSession cfg driver sessionId w =
      (Normal (res_json (JsonMessage true "Restarted successfully")), w') /\
    sessions w' = sessions w /\ files w' = files w /\ trace w' = trace w.
Proof.
  intros Hreg Hc Hp Hl. exists (wait_polls (latency w)).
  split; [apply wait_polls_bounds|]. intros w'.
  assert (Hst : exists c, client_at w h = Some c /\ never_launches c) by (exists c; now split).
  pose proof (validateSession_never_launches sessionId h w Hreg Hst) as Hv.
  change (Nat.iter (wait_polls (latency w)) tick w) with w' in Hv.
  assert (Hs : sessions w' = sessions w) by apply iter_tick_sessions.
  assert (Hreg' : sessions w' !! sessionId = Some h) by now rewrite Hs.
  assert (Hpage : page_of w' h = None).
  { apply never_launches_no_page. now apply iter_tick_never_launches. }
  split; [|split; [|split; [exact Hs|split; [apply iter_tick_files|apply iter_tick_trace]]]].
  - unfold SessionController.terminateSession, try_catch at 1.
    rewrite (bind_normal _ _ w w' _ Hv). cbn [message String.eqb Ascii.eqb Bool.eqb].
    rewrite (bind_normal _ _ w' w' tt); [reflexivity|].
    apply deleteSession_early_return. right. eauto.
  - unfold SessionController.restartSession, try_catch at 1.
    rewrite (bind_normal _ _ w w' _ Hv). cbn [message String.eqb Ascii.eqb Bool.eqb].
    rewrite (bind_normal _ _ w' w' tt); [reflexivity|].
    unfold reloadSession, try_catch, bind, get. now rewrite Hreg', Hpage.
Qed.

(** X12 at work: the session is reported as logged out, and its
    Registry entry and its directory are still there. *)
Lemma stalled_session_example :
  let cfg := Example.config [] false in
  let w := Example.world [("a", 0%nat)] [Example.stalled "a"] (Example.disk [] [] ["a"]) in
  fst (SessionController.terminateSession cfg "a" w) =
    Normal (res_json (JsonMessage true "Logged out successfully")) /\
  sessions (snd (SessionController.terminateSession cfg "a" w)) !! "a" = Some 0%nat /\
  existsSync cfg (files (snd (SessionController.terminateSession cfg "a" w)))
    (credential_dir cfg "a") = true.
Proof.
  intros cfg w.
  assert (Hreg : sessions w !! "a" = Some 0%nat) by (vm_compute; reflexivity).
  destruct (stalled_session_reported_done cfg Example.driver "a" 0%nat (Example.stalled "a") w
              Hreg eq_refl eq_refl eq_refl) as (k & _ & Hrun & _ & Hs & Hf & _).
  rewrite Hrun. cbn [fst snd]. split; [reflexivity|]. split; [now rewrite Hs|].
  rewrite Hf. vm_compute. reflexivity.
Defined.

(** ** Start-up, and what a start and a validation leave alone *)

Lemma setupSession_outcome (cfg : Config) (driver : Driver) (sessionId : string) (w : World) :
  exists v,
    (setupSession cfg driver sessionId w = (Normal v, w) /\ success v = false) \/
    (exists s, setupSession cfg driver sessionId w =
               (Normal v, started cfg driver sessionId s w) /\
               sessions w !! sessionId = None /\
               LocalAuth_new driver sessionId (sessionFolderPath cfg) = Normal tt /\
               Client_new driver (length (heap w)) (clientOptions_for cfg sessionId) =
               Normal s).
Proof.
  destruct (sessions w !! sessionId) as [h|] eqn:Hreg.
  - eexists. left. split; [apply (setupSession_existing _ _ _ _ _ Hreg)|reflexivity].
  - rewrite (setupSession_fresh _ _ _ _ Hreg).
    destruct (LocalAuth_new driver sessionId (sessionFolderPath cfg)) as [[]|e].
    + destruct (Client_new driver (length (heap w)) (clientOptions_for cfg sessionId))
        as [s|e].
      * eexists. right. exists s. auto.
      * eexists. left. split; reflexivity.
    + eexists. left. split; reflexivity.
Qed.

(** X13.  [setupSession] leaves the other tenants alone, whether it
    succeeds or fails: the Registry entries of the other ids, the client
    objects that exist and the restarts in progress are unchanged. *)
Theorem setupSession_leaves_others (cfg : Config) (driver : Driver) (sessionId : string)
    (w : World) :
  let w' := snd (setupSession cfg driver sessionId w) in
  (forall other, other <> sessionId -> sessions w' !! other = sessions w !! other) /\
  (forall h c, client_at w h = Some c -> client_at w' h = Some c) /\
  restarting w' = restarting w.
Proof.
  intros w'. subst w'.
  destruct (setupSession_outcome cfg driver sessionId w) as [v [[-> _]|(s & -> & Hn & _)]];
    cbn [snd]; [repeat split; auto|].
  destruct (started_fields cfg driver sessionId s w) as (Hs & (c & Hh & _) & _ & _ & Hr).
  cbv zeta in *. repeat split.
  - intros other Hne. rewrite Hs. now apply lookup_insert_ne.
  - intros h c' Hc. unfold client_at in *. rewrite Hh. now apply lookup_app_l_Some.
  - exact Hr.
Qed.

Lemma restore_files (cfg : Config) (driver : Driver) (entries : list string) (w : World) :
  (forall sessionId, discovered entries sessionId -> constructible cfg driver sessionId) ->
  exists w', forEach entries (restore_file cfg driver) w = (Normal tt, w') /\
    (forall sessionId, is_Some (sessions w' !! sessionId) <->
                       is_Some (sessions w !! sessionId) \/ discovered entries sessionId) /\
    ((forall sessionId, discovered entries sessionId -> is_Some (sessions w !! sessionId)) ->
     w' = w).
Proof.
  revert w. induction entries as [|file entries IH]; intros w Hok.
  - exists w. split; [reflexivity|]. split; [|reflexivity].
    intros sid. split; [auto|]. intros [H|(f & [] & _)]. exact H.
  - assert (Hok' : forall sid, discovered entries sid -> constructible cfg driver sid).
    { intros sid (f & Hf & Hm). apply Hok. exists f. split; [now right|exact Hm]. }
    cbn [forEach]. unfold restore_file at 1.
    destruct (match_session file) as [sid|] eqn:Hm.
    + destruct (setupSession_outcome cfg driver sid w) as [v [[Hv Hfail]|(s & Hv & Hn & _)]].
      * (* the tenant is registered already: the constructors succeed *)
        assert (Hreg : is_Some (sessions w !! sid)).
        { destruct (sessions w !! sid) as [h|] eqn:Hreg; [eauto|].
          rewrite (setupSession_fresh _ _ _ _ Hreg) in Hv.
          destruct (Hok sid) as [Ha Hc]; [exists file; split; [now left|exact Hm]|].
          rewrite Ha in Hv. destruct (Hc (length (heap w))) as [s Hs]. rewrite Hs in Hv.
          injection Hv as <- _. discriminate Hfail. }
        destruct (IH w Hok') as (w' & Hrun & Hiff & Hsame). exists w'.
        split; [|split].
        -- rewrite (bind_normal _ _ w w tt); [exact Hrun|].
           now rewrite (bind_normal _ _ w w v Hv).
        -- intros sid'. rewrite Hiff. split.
           ++ intros [H|(f & Hf & Hf')]; [now left|]. right. exists f. split; [now right|easy].
           ++ intros [H|(f & [<-|Hf] & Hf')]; [now left| |right; exists f; easy].
              rewrite Hm in Hf'. injection Hf' as <-. now left.
        -- intros Hall. apply Hsame. intros sid' (f & Hf & Hf').
           apply Hall. exists f. split; [now right|exact Hf'].
      * destruct (IH (started cfg driver sid s w) Hok') as (w' & Hrun & Hiff & Hsame).
        exists w'. split; [|split].
        -- rewrite (bind_normal _ _ w (started cfg driver sid s w) tt); [exact Hrun|].
           now rewrite (bind_normal _ _ w (started cfg driver sid s w) v Hv).
        -- intros sid'. rewrite Hiff.
           destruct (started_fields cfg driver sid s w) as (-> & _).
           rewrite lookup_insert_is_Some. split.
           ++ intros [[<-|[_ H]]|(f & Hf & Hf')]; [right|now left|right].
              ** exists file. split; [now left|exact Hm].
              ** exists f. split; [now right|exact Hf'].
           ++ intros [H|(f & [<-|Hf] & Hf')].
              ** left. destruct (decide (sid = sid')); auto.
              ** rewrite Hm in Hf'. injection Hf' as <-. auto.
              ** right. exists f. auto.
        -- intros Hall. destruct (Hall sid) as [h Hh]; [exists file; split; [now left|easy]|].
           congruence.
    + destruct (IH w Hok') as (w' & Hrun & Hiff & Hsame). exists w'. split; [|split].
      * rewrite (bind_normal _ _ w w tt); [exact Hrun|reflexivity].
      * intros sid'. rewrite Hiff. split.
        -- intros [H|(f & Hf & Hf')]; [now left|]. right. exists f. split; [now right|easy].
        -- intros [H|(f & [<-|Hf] & Hf')]; [now left|congruence|right; exists f; easy].
      * intros Hall. apply Hsame. intros sid' (f & Hf & Hf').
        apply Hall. exists f. split; [now right|exact Hf'].
Qed.

(** X14.  [restoreSessions] on a credential root that lists [entries],
    when the driver's constructors succeed for the tenants that the
    listing names: it returns normally, and afterwards the registered
    tenants are exactly those registered before and those named by an
    entry [session-<id>].  When all of these were registered already (the
    second of the two calls at start-up, from [app.ts] and [index.ts]),
    it changes nothing. *)
Theorem restoreSessions_registers_discovered (cfg : Config) (driver : Driver)
    (path_dirname path_basename : string -> string) (entries : list string) (w : World) :
  readdir (sessionFolderPath cfg) w = (Normal entries, w) ->
  (forall sessionId, discovered entries sessionId -> constructible cfg driver sessionId) ->
  exists w',
    restoreSessions cfg driver path_dirname path_basename w = (Normal tt, w') /\
    (forall sessionId, is_Some (sessions w' !! sessionId) <->
                       is_Some (sessions w !! sessionId) \/ discovered entries sessionId) /\
    ((forall sessionId, discovered entries sessionId -> is_Some (sessions w !! sessionId)) ->
     w' = w).
Proof.
  intros Hdir Hok.
  destruct (restore_files cfg driver entries w Hok) as (w' & Hrun & Hiff & Hsame).
  exists w'. split; [|split; assumption].
  assert (Hex : existsSync cfg (files w) (sessionFolderPath cfg) = true).
  { unfold readdir in Hdir. unfold existsSync, is_dir.
    destruct (dirs (files w) !! resolve (files w) (sessionFolderPath cfg)); [reflexivity|].
    discriminate. }
  unfold restoreSessions.
  rewrite (bind_normal _ _ w w true).
  - now rewrite Hdir.
  - apply try_catch_normal. unfold bind at 1, get. rewrite Hex. reflexivity.
Qed.

(** X14 at work: two credential directories at start-up. *)
Lemma restoreSessions_example :
  let cfg := Example.config [] false in
  let w := boot (Example.disk [] [] ["a"; "b"]) in
  exists w',
    restoreSessions cfg Example.driver (fun _ => "/srv") (fun _ => "sessions") w =
      (Normal tt, w') /\
    is_Some (sessions w' !! "a") /\ is_Some (sessions w' !! "b") /\
    ~ is_Some (sessions w' !! "c").
Proof.
  intros cfg w.
  assert (Hdir : readdir (sessionFolderPath cfg) w = (Normal ["session-a"; "session-b"], w))
    by (vm_compute; reflexivity).
  assert (Hok : forall sessionId,
            discovered ["session-a"; "session-b"] sessionId ->
            constructible cfg Example.driver sessionId).
  { intros sessionId (file & Hin & Hm). simpl in Hin.
    destruct Hin as [<-|[<-|[]]]; vm_compute in Hm; injection Hm as <-;
      (split; [reflexivity|intros h; eexists; reflexivity]). }
  destruct (restoreSessions_registers_discovered cfg Example.driver (fun _ => "/srv")
              (fun _ => "sessions") ["session-a"; "session-b"] w Hdir Hok)
    as (w' & Hrun & Hiff & _).
  exists w'. split; [exact Hrun|]. split; [|split].
  - apply Hiff. right. exists "session-a". split; [simpl; tauto|vm_compute; reflexivity].
  - apply Hiff. right. exists "session-b". split; [simpl; tauto|vm_compute; reflexivity].
  - rewrite Hiff. intros [[h Hh]|(file & Hin & Hm)].
    + vm_compute in Hh. discriminate.
    + simpl in Hin. destruct Hin as [<-|[<-|[]]]; vm_compute in Hm; discriminate.
Defined.


(** ** What [deleteSession] and [deleteSessionFolder] touch *)

#[local] Instance same_sessions_preorder : PreOrder same_sessions.
Proof. split; [now intros w|intros a b c Hab Hbc; unfold same_sessions in *; congruence]. Qed.

Lemma same_sessions_driver_call (h : handle) (e : Event) (result : Script -> Completion unit) :
  respects same_sessions (driver_call h e result).
Proof.
  intros w. unfold driver_call, same_sessions.
  destruct (script_of (observe e w) h) as [s|]; [|reflexivity].
  destruct (result s) as [[]|err]; reflexivity.
Qed.

Lemma same_sessions_unlink (cfg : Config) (p : string) : respects same_sessions (unlink cfg p).
Proof.
  intros w. unfold unlink, same_sessions. simpl.
  destruct (busy (files w) !! p) as [[|code later]|]; simpl;
    repeat (match goal with |- context [if ?b then _ else _] => destruct b end; simpl);
    reflexivity.
Qed.

Lemma same_sessions_rmdir (cfg : Config) (p : string) : respects same_sessions (rmdir cfg p).
Proof.
  intros w. unfold rmdir, same_sessions. simpl.
  destruct (dirs (files w) !! p) as [[|x entries]|]; reflexivity.
Qed.

Lemma same_sessions_deleteSessionFolder (cfg : Config) (sessionId : string) :
  respects same_sessions (deleteSessionFolder cfg sessionId).
Proof.
  unfold deleteSessionFolder, unlink_with_retry, sleep.
  repeat first
    [ respects_step
    | apply same_sessions_unlink
    | apply same_sessions_rmdir
    | apply respects_pure; [typeclasses eauto|solve [auto using realpath_pure, readdir_pure]]
    | exact (iter_tick_sessions 10 _) ].
Qed.

(** X16.  [deleteSession] touches the Registry last: when it throws,
    the Registry is as before (the entry of the tenant is still there),
    and when it returns, the Registry is as before or lacks just the entry
    of that tenant. *)
Theorem deleteSession_entry_goes_last (cfg : Config) (sessionId : string)
    (validation : ValidationResult) (w : World) :
  match deleteSession cfg sessionId validation w with
  | (Normal _, w') =>
      sessions w' = sessions w \/ sessions w' = delete sessionId (sessions w)
  | (Throw _, w') => sessions w' = sessions w
  end.
Proof.
  destruct (sessions w !! sessionId) as [h|] eqn:Hreg.
  2:{ rewrite deleteSession_early_return by now left. now left. }
  destruct (page_of w h) as [p|] eqn:Hpage.
  2:{ rewrite deleteSession_early_return by (right; eauto). now left. }
  rewrite (deleteSession_registered _ _ _ _ _ _ Hreg Hpage).
  set (w0 := removeAllListeners h w).
  assert (H0 : sessions w0 = sessions w) by reflexivity.
  unfold bind at 1.
  assert (Hcall : respects same_sessions
            (if success validation then client_logout h
             else if String.eqb (message validation) "session_not_connected"
                  then client_destroy h else ret tt)).
  { destruct (success validation); [apply same_sessions_driver_call|].
    destruct (String.eqb _ _); [apply same_sessions_driver_call|].
    apply respects_ret. typeclasses eauto. }
  specialize (Hcall w0). unfold same_sessions in Hcall.
  destruct ((if success validation then client_logout h
             else if String.eqb (message validation) "session_not_connected"
                  then client_destroy h else ret tt) w0) as [[[]|e] w1];
    cbn [snd] in Hcall; [|congruence].
  unfold teardown_rest.
  destruct (disconnect_poll_frame h w1) as (w2 & E & _ & Hs2 & _).
  rewrite (bind_normal _ _ _ _ _ E). unfold bind.
  pose proof (same_sessions_deleteSessionFolder cfg sessionId w2) as Hd.
  unfold same_sessions in Hd.
  destruct (deleteSessionFolder cfg sessionId w2) as [[[]|e] w3]; cbn [snd] in Hd.
  - right. simpl. congruence.
  - congruence.
Qed.

Lemma unlink_trace (cfg : Config) (p : string) (w : World) :
  trace (snd (unlink cfg p w)) = (trace w ++ [EvUnlink p])%list.
Proof.
  unfold unlink. cbv zeta. cbn [files observe].
  destruct (busy (files w) !! p) as [[|code later]|]; [|reflexivity|];
    (destruct (is_dir (files w) p); [reflexivity|]);
    (destruct (is_entry cfg (files w) p); reflexivity).
Qed.

Lemma unlink_error (cfg : Config) (p : string) (w w1 : World) (e : Exn) :
  unlink cfg p w = (Throw e, w1) ->
  has_code e "EPERM" || has_code e "EBUSY" =
  match busy (files w) !! p with
  | Some (code :: _) => String.eqb code "EPERM" || String.eqb code "EBUSY"
  | _ => false
  end.
Proof.
  unfold unlink. cbv zeta. cbn [files observe].
  destruct (busy (files w) !! p) as [[|code later]|];
    [|intros H; injection H as <- _; reflexivity|];
    (destruct (is_dir (files w) p); [intros H; injection H as <- _; reflexivity|]);
    (destruct (is_entry cfg (files w) p); intros H; [discriminate|]);
    injection H as <- _; reflexivity.
Qed.

Lemma unlink_done (cfg : Config) (p : string) (w w1 : World) :
  unlink cfg p w = (Normal tt, w1) ->
  match busy (files w) !! p with
  | Some (code :: _) => String.eqb code "EPERM" || String.eqb code "EBUSY"
  | _ => false
  end = false.
Proof.
  unfold unlink. cbv zeta. cbn [files observe].
  destruct (busy (files w) !! p) as [[|code later]|]; [reflexivity|discriminate|reflexivity].
Qed.

(** X17.  [unlink_with_retry], the deletion of one file in
    [deleteSessionFolder]: a second attempt is made exactly when the first
    one failed with [EPERM] or [EBUSY], one second later, and its outcome
    is final; there is never a third attempt. *)
Theorem unlink_with_retry_attempts (cfg : Config) (p : string) (w : World) :
  let retried :=
    match busy (files w) !! p with
    | Some (code :: _) => String.eqb code "EPERM" || String.eqb code "EBUSY"
    | _ => false
    end in
  unlink_with_retry cfg p w =
    (if retried then unlink cfg p (Nat.iter 10 tick (snd (unlink cfg p w)))
     else unlink cfg p w) /\
  trace (snd (unlink_with_retry cfg p w)) =
    (trace w ++ if retried then [EvUnlink p; EvUnlink p] else [EvUnlink p])%list.
Proof.
  intros retried.
  assert (H : unlink_with_retry cfg p w =
              if retried then unlink cfg p (Nat.iter 10 tick (snd (unlink cfg p w)))
              else unlink cfg p w).
  { subst retried. unfold unlink_with_retry, try_catch.
    destruct (unlink cfg p w) as [[[]|e] w1] eqn:E.
    - now rewrite (unlink_done _ _ _ _ E).
    - rewrite <- (unlink_error _ _ _ _ _ E).
      destruct (has_code e "EPERM" || has_code e "EBUSY"); reflexivity. }
  split; [exact H|]. rewrite H. destruct retried; [|apply unlink_trace].
  rewrite unlink_trace, iter_tick_trace, unlink_trace, <- app_assoc. reflexivity.
Qed.

#[local] Instance deletes_inside_preorder (cfg : Config) (target : string)
    (entries : list string) : PreOrder (deletes_inside cfg target entries).
Proof.
  split.
  - intros w. exists []. split; [constructor|now rewrite app_nil_r].
  - intros a b c (e1 & H1 & E1) (e2 & H2 & E2). exists (e1 ++ e2)%list.
    split; [now apply Forall_app|]. now rewrite E2, E1, app_assoc.
Qed.

Lemma same_trace_inside (cfg : Config) (target : string) (entries : list string)
    (w w' : World) :
  trace w' = trace w -> deletes_inside cfg target entries w w'.
Proof. intros H. exists []. split; [constructor|now rewrite app_nil_r]. Qed.

Lemma unlink_inside (cfg : Config) (target : string) (entries : list string) (file : string) :
  In file entries ->
  respects (deletes_inside cfg target entries) (unlink cfg (path_join cfg target file)).
Proof.
  intros Hin w. exists [EvUnlink (path_join cfg target file)].
  split; [apply Forall_singleton; now exists file|].
  apply unlink_trace.
Qed.

Lemma rmdir_inside (cfg : Config) (target : string) (entries : list string) :
  respects (deletes_inside cfg target entries) (rmdir cfg target).
Proof.
  intros w. exists [EvRmdir target]. split; [now apply Forall_singleton|].
  unfold rmdir. simpl. destruct (dirs (files w) !! target) as [[|x more]|]; reflexivity.
Qed.

Lemma unlink_listed_inside (cfg : Config) (target : string) (entries listed : list string) :
  (forall file, In file listed -> In file entries) ->
  respects (deletes_inside cfg target entries)
    (forEach listed (fun file => unlink_with_retry cfg (path_join cfg target file))).
Proof.
  induction listed as [|file listed IH]; intros Hin; cbn [forEach].
  - apply respects_ret. typeclasses eauto.
  - apply respects_bind; [typeclasses eauto| |intros _; apply IH; intros f Hf; apply Hin; now right].
    assert (Hfile : In file entries) by (apply Hin; now left).
    unfold unlink_with_retry, sleep.
    repeat first
      [ respects_step
      | apply unlink_inside; exact Hfile
      | apply same_trace_inside; exact (iter_tick_trace 10 _) ].
Qed.

(** X18.  [deleteSessionFolder] deletes only inside the resolved
    credential directory of the tenant: every file-system call it makes is
    the unlink of an entry that the directory lists or the rmdir of the
    directory itself, and it makes one only when the resolved directory
    lies under the resolved credential root. *)
Theorem deleteSessionFolder_contained (cfg : Config) (sessionId : string) (w : World) :
  let target := resolve (files w) (credential_dir cfg sessionId) in
  let root := resolve (files w) (sessionFolderPath cfg) in
  let listed := default [] (dirs (files w) !! resolve (files w) target) in
  let w' := snd (deleteSessionFolder cfg sessionId w) in
  exists evs,
    trace w' = (trace w ++ evs)%list /\
    Forall (inside cfg target listed) evs /\
    (evs <> [] -> startsWith target (root +:+ path_sep cfg) = true).
Proof.
  intros target root listed w'. subst w'. unfold deleteSessionFolder.
  rewrite try_catch_rethrow. fold (credential_dir cfg sessionId).
  assert (Hnone : forall r : Completion unit, exists evs,
            trace (snd (r, w)) = (trace w ++ evs)%list /\
            Forall (inside cfg target listed) evs /\
            (evs <> [] -> startsWith target (root +:+ path_sep cfg) = true)).
  { intros r. exists []. split; [now rewrite app_nil_r|]. split; [constructor|congruence]. }
  unfold bind at 1, realpath at 1.
  destruct (existsSync cfg (files w) (credential_dir cfg sessionId)); [|apply Hnone].
  unfold bind at 1, realpath at 1.
  destruct (existsSync cfg (files w) (sessionFolderPath cfg)); [|apply Hnone].
  fold target root.
  destruct (startsWith target (root +:+ path_sep cfg)) eqn:Hin; [|apply Hnone].
  cbn [negb]. unfold bind at 1, readdir at 1. subst listed.
  destruct (dirs (files w) !! resolve (files w) target) as [entries|]; [|apply Hnone].
  cbn [default].
  assert (Hrest : respects (deletes_inside cfg target entries)
            (run forEach entries
                   (fun file => unlink_with_retry cfg (path_join cfg target file));
             rmdir cfg target)).
  { apply respects_bind; [typeclasses eauto| |intros _; apply rmdir_inside].
    now apply unlink_listed_inside. }
  destruct (Hrest w) as (evs & Hall & Htr). exists evs. auto.
Qed.

(** ** [reloadSession] *)

Lemma reload_close (h : handle) (c : Client) (w : World) :
  client_at w h = Some c -> pupPage c = Some {| once_listeners := [] |} ->
  exists w2,
    try_catch (browser_close_all h)
      (fun _ => do w <- get;
                if default false (has_process <$> script_of w h)
                then modify (observe (EvKill h)) else ret tt) w = (Normal tt, w2) /\
    sessions w2 = sessions w /\ length (heap w2) = length (heap w) /\
    page_of w2 h = Some {| once_listeners := [] |} /\
    restarting w2 = restarting w /\
    trace w2 = (trace w ++ [EvCloseBrowser h] ++
                match close_result (script c) with
                | Normal _ => []
                | Throw _ => if has_process (script c) then [EvKill h] else []
                end)%list.
Proof.
  intros Hc Hp. unfold try_catch, browser_close_all, driver_call. cbv zeta.
  unfold script_of at 1, client_at at 1. cbn [heap observe].
  unfold client_at in Hc. rewrite Hc. cbn [fmap option_fmap option_map].
  destruct (close_result (script c)) as [[]|err].
  - eexists. split; [reflexivity|]. unfold request_close, page_of, client_at.
    cbn [sessions heap trace restarting update_client set_heap observe].
    rewrite length_alter, list_lookup_alter_eq, Hc. cbn [fmap option_fmap option_map mbind option_bind].
    repeat split. destruct (pupBrowser c); exact Hp.
  - unfold bind, get, script_of, client_at. cbn [heap observe]. rewrite Hc.
    cbn [fmap option_fmap option_map default].
    destruct (has_process (script c)); eexists; (split; [reflexivity|]);
      unfold page_of, client_at; cbn [sessions heap trace restarting observe];
      rewrite Hc; cbn [mbind option_bind]; repeat split; try exact Hp.
    now rewrite <- app_assoc.
Qed.



(** ** The recovery listeners after [deleteSession] *)

Section Detached.

Variable h : handle.

Lemma detached_same (w w' : World) : heap w' = heap w -> keeps (detached h) w w'.
Proof. intros E (c & Hc & H). exists c. unfold client_at in *. now rewrite E. Qed.

Lemma detached_tick (w : World) : keeps (detached h) w (tick w).
Proof.
  intros (c & Hc & Hp & Hq). unfold detached, client_at, tick in *. cbn [heap set_heap].
  rewrite list_lookup_fmap, Hc. cbn [fmap option_fmap option_map].
  eexists. split; [reflexivity|].
  assert (H1 : pupPage (driver_progress c) = Some {| once_listeners := [] |} /\
               polling (driver_progress c) = None).
  { unfold driver_progress.
    destruct (launch (script c)) as [[|n]|]; cbn [pupBrowser with_script with_pupBrowser];
      repeat (match goal with |- context [match ?x with _ => _ end] => destruct x end);
      cbn; auto. }
  destruct H1 as [Hp1 Hq1]. unfold poll_progress. rewrite Hq1. auto.
Qed.

Lemma detached_iter_tick (n : nat) (w : World) : keeps (detached h) w (Nat.iter n tick w).
Proof. apply respects_iter; [typeclasses eauto|apply detached_tick]. Qed.

Lemma detached_request_close (k : handle) (w : World) :
  keeps (detached h) w (request_close k w).
Proof.
  intros (c & Hc & Hp & Hq). unfold detached, client_at, request_close, update_client in *.
  cbn [heap set_heap]. destruct (decide (k = h)) as [->|Hne].
  - rewrite list_lookup_alter_eq, Hc. cbn [fmap option_fmap option_map].
    eexists. split; [reflexivity|]. destruct (pupBrowser c); auto.
  - rewrite list_lookup_alter_ne by exact Hne. eauto.
Qed.

Lemma detached_await_disconnected (more : nat) (k : handle) (w : World) :
  keeps (detached h) w (await_disconnected more k w).
Proof.
  revert w. induction more as [|more IH]; intros w; cbn [await_disconnected];
    destruct (browser_isConnected w k); try reflexivity.
  transitivity (Nat.iter 10 tick w); [apply detached_iter_tick|apply IH].
Qed.

Lemma detached_driver_call (k : handle) (e : Event) (result : Script -> Completion unit) :
  respects (keeps (detached h)) (driver_call k e result).
Proof.
  intros w. unfold driver_call. cbv zeta.
  destruct (script_of (observe e w) k) as [s|]; [|now apply detached_same].
  destruct (result s) as [[]|err]; [|now apply detached_same].
  transitivity (observe e w); [now apply detached_same|apply detached_request_close].
Qed.

Lemma detached_unlink (cfg : Config) (p : string) : respects (keeps (detached h)) (unlink cfg p).
Proof.
  intros w. apply detached_same. unfold unlink. cbv zeta. cbn [files observe].
  destruct (busy (files w) !! p) as [[|code later]|]; [|reflexivity|];
    (destruct (is_dir (files w) p); [reflexivity|]);
    (destruct (is_entry cfg (files w) p); reflexivity).
Qed.

Lemma detached_rmdir (cfg : Config) (p : string) : respects (keeps (detached h)) (rmdir cfg p).
Proof.
  intros w. apply detached_same. unfold rmdir. cbv zeta. cbn [files observe].
  destruct (dirs (files w) !! p) as [[|x entries]|]; reflexivity.
Qed.

Lemma detached_deleteSessionFolder (cfg : Config) (sessionId : string) :
  respects (keeps (detached h)) (deleteSessionFolder cfg sessionId).
Proof.
  unfold deleteSessionFolder, unlink_with_retry, sleep.
  repeat first
    [ respects_step
    | apply detached_unlink
    | apply detached_rmdir
    | apply respects_pure; [typeclasses eauto|solve [auto using realpath_pure, readdir_pure]]
    | apply detached_iter_tick ].
Qed.

Lemma detached_teardown (cfg : Config) (sessionId : string) (validation : ValidationResult) :
  respects (keeps (detached h))
    (run (if success validation then client_logout h
          else if String.eqb (message validation) "session_not_connected"
               then client_destroy h else ret tt);
     teardown_rest cfg sessionId h).
Proof.
  unfold teardown_rest, client_logout, client_destroy.
  repeat first
    [ respects_step
    | apply detached_driver_call
    | apply detached_deleteSessionFolder
    | apply detached_await_disconnected
    | apply detached_same; reflexivity ].
Qed.

End Detached.

Lemma page_emit_detached (h : handle) (sig : Signal) (w : World) :
  detached h w -> page_emit h sig w = w.
Proof.
  intros (c & Hc & Hp & _). unfold page_emit, page_of. rewrite Hc. cbn [mbind option_bind].
  rewrite Hp. cbn [once_listeners List.filter fold_left]. unfold update_client, set_heap.
  replace (alter (with_pupPage (Some {| once_listeners := [] |})) h (heap w)) with (heap w);
    [now destruct w|].
  symmetry. rewrite (list_alter_ext _ id (heap w) (heap w) h); [now apply list_alter_id| |easy].
  intros c' Hc'. unfold client_at in Hc.
  assert (c' = c) as -> by congruence. destruct c. cbn in *. now subst.
Qed.

(** X20.  [deleteSession] on a registered tenant whose client has its
    page (no recovery wait pending) leaves that page without recovery
    listeners, whether it returns or throws: when the browser it closed
    emits [close] or [error], nothing is restarted. *)
Theorem deleteSession_detaches_recovery (cfg : Config) (sessionId : string)
    (validation : ValidationResult) (h : handle) (c : Client) (p : Page) (w : World) :
  sessions w !! sessionId = Some h -> client_at w h = Some c ->
  pupPage c = Some p -> polling c = None ->
  let w' := snd (deleteSession cfg sessionId validation w) in
  page_of w' h = Some {| once_listeners := [] |} /\
  (forall sig, page_emit h sig w' = w').
Proof.
  intros Hreg Hc Hp Hq w'.
  assert (Hd : detached h w').
  { subst w'. rewrite (deleteSession_registered cfg sessionId validation w h p Hreg)
      by (unfold page_of; now rewrite Hc).
    apply detached_teardown.
    unfold detached, removeAllListeners, client_at, update_client in *. cbn [heap set_heap].
    rewrite list_lookup_alter_eq, Hc. cbn [fmap option_fmap option_map]. rewrite Hp.
    eexists. split; [reflexivity|]. split; [reflexivity|exact Hq]. }
  split; [|intros sig; now apply page_emit_detached].
  destruct Hd as (c' & Hc' & Hp' & _). unfold page_of. now rewrite Hc'.
Qed.

(** X20 at work: the recovery listeners of a launched session are gone
    after [deleteSession]. *)
Lemma deleteSession_detaches_example :
  let cfg := Example.config [] true in
  let w := perform_all cfg Example.driver
             [CallSetup "a"; TimePasses; TimePasses; TimePasses; TimePasses]
             (boot (Example.disk [] [] [])) in
  let v := {| success := true; message := "session_connected";
              state := Some "CONNECTED"; client := None |} in
  let w' := snd (deleteSession cfg "a" v w) in
  page_of w 0%nat = Some {| once_listeners := [(SigClose, "a"); (SigError, "a")] |} /\
  page_of w' 0%nat = Some {| once_listeners := [] |} /\
  page_emit 0%nat SigClose w' = w'.
Proof.
  intros cfg w v w'.
  assert (Hreg : sessions w !! "a" = Some 0%nat) by (vm_compute; reflexivity).
  assert (Hc : exists c, client_at w 0%nat = Some c /\
                 pupPage c = Some {| once_listeners := [(SigClose, "a"); (SigError, "a")] |} /\
                 polling c = None).
  { eexists. split; [vm_compute; reflexivity|]. split; reflexivity. }
  destruct Hc as (c & Hc & Hp & Hq).
  split; [unfold page_of; now rewrite Hc|].
  destruct (deleteSession_detaches_recovery cfg "a" v 0%nat c _ w Hreg Hc Hp Hq) as [H1 H2].
  split; [exact H1|apply H2].
Defined.
